(** * log_viewer.py: the conversation-log report, embedded and verified

    The program reads a JSON-lines file, prints a report (statistics, date
    range, average lengths, data availability, recent conversations, error
    analysis) and exports the records as a CSV table.  Everything lives in
    one function, [view_logs]; the development follows its blocks in source
    order and keeps the names of its local variables.

    Modelling decisions, once and for all:
    - a value produced by [json.loads] is a [pyval]; a JSON object is the
      list of its items in insertion order;
    - an uncaught Python exception is [Raise e] in the error type [res]; the
      printing code runs in the monad [prog], which threads the console and
      the files written so far and stops at the first uncaught exception;
    - a rate is a rational number.  The availability rate of line 86 is
      the binary64 number that CPython computes for
      [available / total * 100] (a correctly rounded division, then a
      correctly rounded product), given by its exact value; the error rate
      of line 45 is kept as the exact quotient [errors / total * 100], and
      the binary64 number computed for it is shown to obey the same bounds;
      the [:.1f] rendering of a rate is not modelled;
    - text is a [string] whose characters stand for Python's code points
      below 256; the log file is one that exists or not, and whose bytes
      decode, given by its lines;
    - [datetime], [json.loads], [str] and [pandas] are library code: they
      are the fields of the class [PyLib], and every theorem holds for all
      of its instances;
    - [pandas] stores a frame column by column and chooses how to store a
      column from the objects in it (a column of integers in which a key is
      missing is stored as floats); the class leaves that choice open and
      fixes only that a column holding a mapping keeps its objects;
    - building the frame and writing the CSV file may raise; writing may
      fail after the file was opened, which leaves an incomplete file. *)

From Stdlib Require Import ZArith QArith Lqa SpecFloat Ascii.
From stdpp Require Import gmap strings list.

Set Warnings "-register-all".

(** ** Values loaded from the log file *)

Inductive pyval : Type :=
| PNone
| PBool (b : bool)
| PInt (z : Z)
| PFloat (f : spec_float)
| PStr (s : string)
| PList (l : list pyval)
| PDict (d : list (string * pyval)).

(** A record of the log is a JSON object: its items, in insertion order.
    A key occurs once in a Python [dict]; should a list repeat a key, the
    later bindings are dead and every accessor below ignores them. *)
Definition record : Type := list (string * pyval).

Inductive exn : Type :=
| AttributeError
| TypeError
| OverflowError
| ValueError
| RecursionError
| UnicodeEncodeError.

Inductive res (A : Type) : Type :=
| Ok (a : A)
| Raise (e : exn).
Arguments Ok {A} a.
Arguments Raise {A} e.

#[global] Instance res_ret : MRet res := fun A a => Ok a.
#[global] Instance res_bind : MBind res := fun A B k m =>
  match m with
  | Ok a => k a
  | Raise e => Raise e
  end.

(** Python's truth value of a loaded object ([if x:], [bool(x)]). *)
Definition truthy (v : pyval) : bool :=
  match v with
  | PNone => false
  | PBool b => b
  | PInt z => negb (z =? 0)%Z
  | PFloat (S754_zero _) => false
  | PFloat _ => true
  | PStr EmptyString => false
  | PStr _ => true
  | PList [] => false
  | PList _ => true
  | PDict [] => false
  | PDict _ => true
  end.

(** [d[k]] when the key is there: the first binding of [k]. *)
Fixpoint dict_get (k : string) (d : record) : option pyval :=
  match d with
  | [] => None
  | (k', v) :: d' => if String.eqb k k' then Some v else dict_get k d'
  end.

(** [log.get(k, default)]; [log.get(k)] is [get_or k PNone log]. *)
Definition get_or (k : string) (default : pyval) (log : record) : pyval :=
  match dict_get k log with
  | Some v => v
  | None => default
  end.

(** Every member once, at the place of its first occurrence. *)
Fixpoint first_occurrences (ks : list string) : list string :=
  match ks with
  | [] => []
  | k :: ks' =>
      k :: List.filter (fun k' => negb (String.eqb k' k)) (first_occurrences ks')
  end.

(** [d.keys()]: every key once, in the order of first insertion. *)
Definition dict_keys (d : record) : list string :=
  first_occurrences (map fst d).

(** [d.items()]: each key with the value [d[k]]. *)
Definition dict_items (d : record) : list (string * pyval) :=
  map (fun k => (k, get_or k PNone d)) (dict_keys d).

(** ** Sets of loaded objects ([set(...)], line 43)

    Only [None], booleans, numbers and text hash; a list or a mapping raises
    [TypeError: unhashable type].  Members are compared with [==], under
    which [True], [1] and [1.0] are one value.  A number is [n * 2^e],
    an infinity or the not-a-number; [json] returns one shared object for
    every [NaN] literal, and membership tests identity before [==], so
    not-a-number counts as equal to itself here. *)

Inductive numval : Type :=
| NVfin (n e : Z)
| NVinf (negative : bool)
| NVnan.

Definition num_of (v : pyval) : option numval :=
  match v with
  | PBool b => Some (NVfin (Z.b2z b) 0)
  | PInt z => Some (NVfin z 0)
  | PFloat (S754_zero _) => Some (NVfin 0 0)
  | PFloat (S754_infinity s) => Some (NVinf s)
  | PFloat S754_nan => Some NVnan
  | PFloat (S754_finite s m e) => Some (NVfin (cond_Zopp s (Z.pos m)) e)
  | _ => None
  end.

Definition nv_eqb (x y : numval) : bool :=
  match x, y with
  | NVfin n1 e1, NVfin n2 e2 =>
      let e := Z.min e1 e2 in
      (n1 * 2 ^ (e1 - e) =? n2 * 2 ^ (e2 - e))%Z
  | NVinf s1, NVinf s2 => Bool.eqb s1 s2
  | NVnan, NVnan => true
  | _, _ => false
  end.

Definition hashable (v : pyval) : bool :=
  match v with
  | PList _ | PDict _ => false
  | _ => true
  end.

Definition py_eq (x y : pyval) : bool :=
  match x, y with
  | PNone, PNone => true
  | PStr s, PStr t => String.eqb s t
  | _, _ =>
      match num_of x, num_of y with
      | Some a, Some b => nv_eqb a b
      | _, _ => false
      end
  end.

(** The set under construction: its members, one per distinct value. *)
Definition set_add (s : list pyval) (v : pyval) : res (list pyval) :=
  if hashable v then
    Ok (if existsb (py_eq v) s then s else s ++ [v])
  else Raise TypeError.

(** ** Basic statistics (lines 42-45) *)

Definition total_conversations (logs : list record) : nat := length logs.

(** [log.get(k, default)] on a loaded object: anything but a mapping has
    no [get] and raises [AttributeError]. *)
Definition py_get (k : string) (default : pyval) (log : pyval) : res pyval :=
  match log with
  | PDict d => Ok (get_or k default d)
  | _ => Raise AttributeError
  end.

(** The generator of line 43 feeding [set]: each log is read, then its
    session id is hashed, before the next log is looked at. *)
Fixpoint session_set (s : list pyval) (logs : list pyval) : res (list pyval) :=
  match logs with
  | [] => Ok s
  | log :: logs' =>
      v ← py_get "session_id" PNone log;
      s' ← set_add s v;
      session_set s' logs'
  end.

(** [len(set(log.get('session_id') for log in logs))] *)
Definition unique_sessions (logs : list pyval) : res nat :=
  s ← session_set [] logs; mret (length s).

(** Past line 43 every log is a mapping: the records themselves. *)
Definition records_of (logs : list pyval) : list record :=
  omap (fun log => match log with PDict d => Some d | _ => None end) logs.

Definition error_occurred (log : record) : bool :=
  truthy (get_or "error_occurred" (PBool false) log).

(** [sum(1 for log in logs if log.get('error_occurred', False))] *)
Fixpoint errors (logs : list record) : nat :=
  match logs with
  | [] => 0
  | log :: logs' =>
      if error_occurred log then 1 + errors logs' else errors logs'
  end.

Definition Qnat (n : nat) : Q := inject_Z (Z.of_nat n).

(** [(part / whole * 100) if whole > 0 else 0], as an exact quotient. *)
Definition percentage (part whole : nat) : Q :=
  if (0 <? whole)%nat then (Qnat part / Qnat whole * 100)%Q else 0%Q.

Definition error_rate (logs : list record) : Q :=
  percentage (errors logs) (total_conversations logs).

(** *** The same expression in binary64

    CPython divides two integers to the binary64 number nearest to their
    exact quotient (ties to even), whatever their size, and multiplies
    that number by the float [100.0], rounding again.  [SFdiv] and [SFmul]
    round the exact quotient and product of the values of their arguments
    in that way; an integer is given to them by its exact value. *)
Definition exact_int (n : nat) : spec_float :=
  match n with
  | O => S754_zero false
  | S _ => S754_finite false (Pos.of_nat n) 0
  end.

(** [(part / whole * 100) if whole > 0 else 0], as CPython evaluates it. *)
Definition float_percentage (part whole : nat) : spec_float :=
  if (0 <? whole)%nat
  then SFmul 53 1024 (SFdiv 53 1024 (exact_int part) (exact_int whole))
         (exact_int 100)
  else S754_zero false.

(** The exact value of a binary64 number, [m * 2^e] in lowest terms; the
    rates are finite (see [float_percentage_shape]), so the other cases do
    not matter. *)
Definition float_value (f : spec_float) : Q :=
  match f with
  | S754_finite s m e =>
      let n := cond_Zopp s (Z.pos m) in
      Qred (if (0 <=? e)%Z then inject_Z (n * 2 ^ e)
            else n # Z.to_pos (2 ^ (- e)))
  | _ => 0
  end.

(** ** The table that [pandas] builds

    A cell holds a loaded object, the float [nan] that stands for a
    missing key, or text made by the export. *)

Inductive cell : Type :=
| NaN
| Obj (v : pyval)
| Text (s : string).

Record frame : Type := {
  columns : list string;
  rows : list (list cell)
}.

(** What [json.loads] does with a text: a value, [JSONDecodeError], or
    another exception. *)
Inductive parsed : Type :=
| Loaded (v : pyval)
| DecodeError
| OtherError (e : exn).

(** ** Library code the program calls

    [fromisoformat s] is [None] where [datetime.fromisoformat] raises
    [ValueError]; [dt_compare a b] is [None] where comparing an aware with
    a naive instant raises [TypeError]; [py_str] is the builtin [str].

    [json_loads s] is [DecodeError] where [json.loads] raises
    [JSONDecodeError], the one exception the loader catches, and
    [OtherError e] where it raises another one: [ValueError] for an integer
    of more digits than the interpreter converts, [RecursionError] for
    brackets nested too deeply.

    [frame_error logs] is the exception [pd.DataFrame(logs)] raises, if
    any.  [store_column col] is the column as the frame stores it, [col]
    being the objects the records give for one key, with [nan] where the
    key is missing: a column has as many cells as there are records, and a
    column in which some object is a mapping is stored as it is (an object
    column); nothing else is assumed.  [csv_error df] is the exception
    [df.to_csv] raises, if any, while it writes the file. *)
Class PyLib : Type := {
  datetime : Type;
  fromisoformat : string -> option datetime;
  dt_compare : datetime -> datetime -> option comparison;
  strftime : string -> datetime -> string;
  json_loads : string -> parsed;
  py_str : pyval -> string;
  frame_error : list record -> option exn;
  store_column : list cell -> list cell;
  csv_error : frame -> option exn;
  store_column_length :
    forall col, length (store_column col) = length col;
  store_column_mappings :
    forall col d, In (Obj (PDict d)) col -> store_column col = col
}.

(** An average length: the exact quotient of an integer sum by the count,
    or a float (a sum that met a float), whose value is not modelled. *)
Inductive average : Type :=
| Mean (q : Q)
| MeanFloat.

(** What the report shows.  One constructor per [print] of the source; the
    decorative rulers around a section title are folded into [Banner]. *)
Inductive line : Type :=
| NoLogFile
| NoValidEntries
| Found (n : nat)
| Banner (title : string)
| TotalConversations (n : nat)
| UniqueSessions (n : nat)
| Errors (n : nat) (rate : Q)
| DateRange (text : string)
| DateRangeUnknown
| AverageQuestionLength (a : average)
| AverageResponseLength (a : average)
| Availability (file_name : string) (available total : nat) (rate : Q)
| RecentHeading (i : nat) (formatted_time : string)
| RecentQuestion (text : string)
| RecentResponse (text : string)
| RecentErrorMark
| ErrorEntry (i : nat) (formatted_time : string) (text : string)
| Exported (csv_filename : string)
| FrameInfo
| FrameShape (rows cols : nat)
| FrameColumns (names : list string)
| NoDataToExport.

Section WithLibrary.
Context `{PyLib}.

(** *** Date range (lines 52-59) *)

(** [datetime.fromisoformat(ts)]: [TypeError] on anything but text,
    [ValueError] on text it cannot read; both are [None] here, since every
    call site catches all exceptions. *)
Definition parse_timestamp (ts : pyval) : option datetime :=
  match ts with
  | PStr s => fromisoformat s
  | _ => None
  end.

(** [[log.get('timestamp') for log in logs if log.get('timestamp')]] *)
Definition timestamps (logs : list record) : list pyval :=
  List.filter truthy (map (get_or "timestamp" PNone) logs).

(** [[datetime.fromisoformat(ts) for ts in timestamps]]: the first
    failure ends the comprehension. *)
Fixpoint parse_all (tss : list pyval) : option (list datetime) :=
  match tss with
  | [] => Some []
  | ts :: tss' =>
      match parse_timestamp ts with
      | Some d =>
          match parse_all tss' with
          | Some ds => Some (d :: ds)
          | None => None
          end
      | None => None
      end
  end.

(** [min(dates)] and [max(dates)]: the running extremum is replaced when
    the next item is strictly smaller (larger); [None] when a comparison
    raises or the list is empty. *)
Fixpoint extremum_from (want : comparison) (best : datetime)
    (rest : list datetime) : option datetime :=
  match rest with
  | [] => Some best
  | d :: rest' =>
      match dt_compare d best with
      | Some c =>
          extremum_from want (if decide (c = want) then d else best) rest'
      | None => None
      end
  end.

Definition py_extremum (want : comparison) (dates : list datetime)
    : option datetime :=
  match dates with
  | [] => None
  | d :: rest => extremum_from want d rest
  end.

Definition date_range_text (dates : list datetime) : option string :=
  match py_extremum Lt dates, py_extremum Gt dates with
  | Some lo, Some hi =>
      Some (strftime "%Y-%m-%d %H:%M" lo +:+ " to "
            +:+ strftime "%Y-%m-%d %H:%M" hi)
  | _, _ => None
  end.

(** The whole block: nothing is printed when [timestamps] is empty; the
    bare [except] turns every failure inside the [try] into [Unknown]. *)
Definition date_range (logs : list record) : option line :=
  match timestamps logs with
  | [] => None
  | tss =>
      Some match parse_all tss with
           | Some dates =>
               match date_range_text dates with
               | Some text => DateRange text
               | None => DateRangeUnknown
               end
           | None => DateRangeUnknown
           end
  end.

(** *** Average lengths (lines 62-63)

    [sum] starts from the integer [0].  Booleans add as integers; once a
    float has been added the running sum is a float.  Adding an integer to
    a float converts it first, which raises [OverflowError] beyond the
    binary64 range; anything that is not a number raises [TypeError]. *)

Inductive running_sum : Type :=
| SumInt (z : Z)
| SumFloat.

(** The least magnitude that rounds to [2^1024]: halfway between the
    largest binary64 number and [2^1024]. *)
Definition float_limit : Z := 2 ^ 1024 - 2 ^ 970.

Definition fits_float (z : Z) : bool := (Z.abs z <? float_limit)%Z.

Definition py_add (acc : running_sum) (v : pyval) : res running_sum :=
  match acc, v with
  | SumInt z, PBool b => Ok (SumInt (z + Z.b2z b))
  | SumInt z, PInt n => Ok (SumInt (z + n))
  | SumInt z, PFloat _ => if fits_float z then Ok SumFloat else Raise OverflowError
  | SumFloat, PBool _ => Ok SumFloat
  | SumFloat, PInt n => if fits_float n then Ok SumFloat else Raise OverflowError
  | SumFloat, PFloat _ => Ok SumFloat
  | _, _ => Raise TypeError
  end.

Fixpoint py_sum_from (acc : running_sum) (vs : list pyval) : res running_sum :=
  match vs with
  | [] => Ok acc
  | v :: vs' => acc' ← py_add acc v; py_sum_from acc' vs'
  end.

Definition py_sum (vs : list pyval) : res running_sum := py_sum_from (SumInt 0) vs.

(** [acc / count] for a positive [count]: true division of two integers
    raises [OverflowError] when the rounded quotient leaves the binary64
    range; a float divided by an integer converts the integer first. *)
Definition py_truediv (acc : running_sum) (count : nat) : res average :=
  match acc with
  | SumInt z =>
      if (Z.abs z <? float_limit * Z.of_nat count)%Z
      then Ok (Mean (inject_Z z / Qnat count))
      else Raise OverflowError
  | SumFloat =>
      if fits_float (Z.of_nat count) then Ok MeanFloat else Raise OverflowError
  end.

(** [sum(log.get(field, 0) for log in logs) / total if total > 0 else 0] *)
Definition average_length (field : string) (logs : list record) : res average :=
  if (0 <? total_conversations logs)%nat then
    acc ← py_sum (map (get_or field (PInt 0)) logs);
    py_truediv acc (total_conversations logs)
  else Ok (Mean 0).

(** *** Data availability (lines 72-87) *)

(** [counts[key] += 1] on a [Counter]: a missing key reads as [0]. *)
Definition counter_incr (key : string) (counts : gmap string nat)
    : gmap string nat :=
  <[key := S (default 0 (counts !! key))]> counts.

Definition counter_get (key : string) (counts : gmap string nat) : nat :=
  default 0 (counts !! key).

Definition tally_item (counts : gmap string nat) (item : string * pyval)
    : gmap string nat :=
  let '(file_name, available) := item in
  if truthy available
  then counter_incr (file_name +:+ "_available") counts
  else counter_incr (file_name +:+ "_missing") counts.

(** One turn of the outer loop; [.items()] on a truthy value that is not
    a mapping raises [AttributeError]. *)
Definition tally_log (counts : gmap string nat) (log : record)
    : res (gmap string nat) :=
  let da := get_or "data_availability" PNone log in
  if truthy da then
    match da with
    | PDict d => Ok (foldl tally_item counts (dict_items d))
    | _ => Raise AttributeError
    end
  else Ok counts.

Fixpoint tally_from (counts : gmap string nat) (logs : list record)
    : res (gmap string nat) :=
  match logs with
  | [] => Ok counts
  | log :: logs' => counts' ← tally_log counts log; tally_from counts' logs'
  end.

Definition data_availability_counts (logs : list record)
    : res (gmap string nat) :=
  tally_from ∅ logs.

Definition data_sources : list string :=
  ["metadata_cache"; "order_data"; "asin_report"; "brand_report";
   "gm_report"; "underper_report"; "brand_map"].

(** [availability_rate = (available / total * 100) if total > 0 else 0]
    (line 86): the value of the binary64 number. *)
Definition availability_rate (available total : nat) : Q :=
  float_value (float_percentage available total).

(** The body of the reporting loop for one source: at most one line. *)
Definition availability_line (counts : gmap string nat) (file_name : string)
    : list line :=
  let available := counter_get (file_name +:+ "_available") counts in
  let missing := counter_get (file_name +:+ "_missing") counts in
  let total := available + missing in
  if (0 <? total)%nat
  then [Availability file_name available total
          (availability_rate available total)]
  else [].

Definition availability_report (counts : gmap string nat) : list line :=
  concat (map (availability_line counts) data_sources).

(** *** Recent conversations and error analysis (lines 94-129) *)

(** [logs[-5:] if len(logs) >= 5 else logs] *)
Definition recent_logs (logs : list record) : list record :=
  if (5 <=? length logs)%nat then drop (length logs - 5) logs else logs.

(** [reversed(recent_logs)], the order in which the loop shows them. *)
Definition recent_view (logs : list record) : list record :=
  reverse (recent_logs logs).

(** [[log for log in logs if log.get('error_occurred', False)]] *)
Definition error_logs (logs : list record) : list record :=
  List.filter error_occurred logs.

Fixpoint str_take (n : nat) (s : string) : string :=
  match n, s with
  | S n', String c s' => String c (str_take n' s')
  | _, _ => EmptyString
  end.

(** [v[:n]]: text and lists slice; the other loaded objects raise
    [TypeError] (a mapping raises [KeyError] from Python 3.12 on). *)
Definition py_slice (n : nat) (v : pyval) : res pyval :=
  match v with
  | PStr s => Ok (PStr (str_take n s))
  | PList l => Ok (PList (take n l))
  | _ => Raise TypeError
  end.

Definition py_len (v : pyval) : res nat :=
  match v with
  | PStr s => Ok (String.length s)
  | PList l => Ok (length l)
  | PDict d => Ok (length (dict_keys d))
  | _ => Raise TypeError
  end.

(** A value inside an f-string: text as it is, the rest through [str]. *)
Definition fmt (v : pyval) : string :=
  match v with
  | PStr s => s
  | _ => py_str v
  end.

(** [f"{v[:budget]}{'...' if len(v) > budget else ''}"] *)
Definition clipped (budget : nat) (v : pyval) : res string :=
  shown ← py_slice budget v;
  n ← py_len v;
  mret (fmt shown +:+ (if (budget <? n)%nat then "..." else "")).

(** The [try]/[except] around the timestamp of one entry: the handler's
    own slice is outside any [try]. *)
Definition formatted_time (log : record) : res string :=
  let timestamp := get_or "timestamp" (PStr "Unknown") log in
  match parse_timestamp timestamp with
  | Some dt => Ok (strftime "%Y-%m-%d %H:%M:%S" dt)
  | None =>
      if truthy timestamp
      then shown ← py_slice 19 timestamp; mret (fmt shown)
      else Ok "Unknown"
  end.

(** *** The exported table (lines 137-158)

    [pd.DataFrame(logs)] has one row per record and one column per key,
    in the order in which the keys first appear.  The object a record
    gives for a column is its value for the key, and the float [nan] when
    it lacks the key; the frame stores each column in the way the library
    chooses for these objects.  [df.empty] holds when either axis has
    length zero. *)

Definition frame_cell (log : record) (column : string) : cell :=
  match dict_get column log with
  | Some v => Obj v
  | None => NaN
  end.

(** The stored column of one key. *)
Definition frame_column (logs : list record) (column : string) : list cell :=
  store_column (map (fun log => frame_cell log column) logs).

Definition DataFrame (logs : list record) : frame :=
  let cols := first_occurrences (concat (map dict_keys logs)) in
  {| columns := cols;
     rows := map (fun i => map (fun column =>
                                  default NaN (frame_column logs column !! i))
                               cols)
                 (seq 0 (length logs)) |}.

Definition frame_empty (df : frame) : bool :=
  (length (rows df) =? 0)%nat || (length (columns df) =? 0)%nat.

(** Truth value and [str] of a cell; [nan] is a non-zero float. *)
Definition cell_truthy (x : cell) : bool :=
  match x with
  | NaN => true
  | Obj v => truthy v
  | Text EmptyString => false
  | Text _ => true
  end.

Definition cell_str (x : cell) : string :=
  match x with
  | NaN => "nan"
  | Obj v => py_str v
  | Text s => s
  end.

(** [lambda x: str(x) if x else '{}'] *)
Definition stringify (x : cell) : cell :=
  Text (if cell_truthy x then cell_str x else "{}").

(** [df[column] = df[column].apply(f)] *)
Definition apply_column (column : string) (f : cell -> cell) (df : frame)
    : frame :=
  {| columns := columns df;
     rows := map (fun row =>
                    zip_with (fun name x =>
                                if String.eqb name column then f x else x)
                             (columns df) row)
                 (rows df) |}.

Definition export_frame (df : frame) : frame :=
  if existsb (String.eqb "data_availability") (columns df)
  then apply_column "data_availability" stringify df
  else df.

(** The cell in row [i] under [column], if both exist. *)
Definition cell_at (df : frame) (i : nat) (column : string) : option cell :=
  row ← rows df !! i;
  snd <$> List.find (fun nx => String.eqb (fst nx) column)
                    (zip (columns df) row).

(** ** The program

    [prog] threads what has been printed and written; a computation that
    raises stops the run, and the console keeps what was printed before. *)

(** What a file holds: the table that was written, or the beginning of
    one when the writing stopped on an exception. *)
Inductive file_content : Type :=
| Table (df : frame)
| Incomplete.

Record world : Type := {
  console : list line;
  files : list (string * file_content)
}.

Definition prog (A : Type) : Type := world -> world * res A.

#[global] Instance prog_ret : MRet prog := fun A a w => (w, Ok a).
#[global] Instance prog_bind : MBind prog := fun A B k m w =>
  match m w with
  | (w', Ok a) => k a w'
  | (w', Raise e) => (w', Raise e)
  end.

Definition print (l : line) : prog unit := fun w =>
  ({| console := console w ++ [l]; files := files w |}, Ok tt).

Definition print_all (ls : list line) : prog unit := fun w =>
  ({| console := console w ++ ls; files := files w |}, Ok tt).

(** [df.to_csv(name, index=False)]: the file is opened, then written. *)
Definition to_csv (name : string) (df : frame) : prog unit := fun w =>
  match csv_error df with
  | None =>
      ({| console := console w; files := files w ++ [(name, Table df)] |},
       Ok tt)
  | Some e =>
      ({| console := console w; files := files w ++ [(name, Incomplete)] |},
       Raise e)
  end.

Definition eval {A : Type} (r : res A) : prog A := fun w => (w, r).

Fixpoint for_each {A : Type} (body : nat -> A -> prog unit) (i : nat)
    (xs : list A) : prog unit :=
  match xs with
  | [] => mret tt
  | x :: xs' => _ ← body i x; for_each body (S i) xs'
  end.

(** The body of the loop over the recent conversations. *)
Definition recent_entry (i : nat) (log : record) : prog unit :=
  time ← eval (formatted_time log);
  let question := get_or "user_question" (PStr "No question") log in
  let response := get_or "ai_response" (PStr "No response") log in
  let error := get_or "error_occurred" (PBool false) log in
  _ ← print (RecentHeading i time);
  q ← eval (clipped 100 question);
  _ ← print (RecentQuestion q);
  a ← eval (clipped 100 response);
  _ ← print (RecentResponse a);
  if truthy error then print RecentErrorMark else mret tt.

(** The body of the loop over the error records. *)
Definition error_entry (i : nat) (log : record) : prog unit :=
  time ← eval (formatted_time log);
  let question := get_or "user_question" (PStr "No question") log in
  q ← eval (clipped 80 question);
  print (ErrorEntry i time q).

Definition error_analysis (logs : list record) : prog unit :=
  if (0 <? errors logs)%nat then
    _ ← print (Banner "ERROR ANALYSIS");
    for_each error_entry 1 (error_logs logs)
  else mret tt.

Definition export (now : datetime) (logs : list record) : prog unit :=
  df ← eval (match frame_error logs with
             | Some e => Raise e
             | None => Ok (DataFrame logs)
             end);
  if negb (frame_empty df) then
    let export_df := export_frame df in
    let csv_filename :=
      "conversation_logs_analysis_" +:+ strftime "%Y%m%d_%H%M%S" now
      +:+ ".csv" in
    _ ← to_csv csv_filename export_df;
    _ ← print (Exported csv_filename);
    _ ← print FrameInfo;
    _ ← print (FrameShape (length (rows export_df))
                          (length (columns export_df)));
    print (FrameColumns (columns export_df))
  else print NoDataToExport.

(** Lines 35-158. *)
Definition report (now : datetime) (loaded : list pyval) : prog unit :=
  _ ← print (Found (length loaded));
  _ ← print (Banner "BASIC STATISTICS");
  sessions ← eval (unique_sessions loaded);
  let logs := records_of loaded in
  _ ← print (TotalConversations (total_conversations logs));
  _ ← print (UniqueSessions sessions);
  _ ← print (Errors (errors logs) (error_rate logs));
  _ ← print_all (option_list (date_range logs));
  avg_question_length ← eval (average_length "question_length" logs);
  avg_response_length ← eval (average_length "response_length" logs);
  _ ← print (AverageQuestionLength avg_question_length);
  _ ← print (AverageResponseLength avg_response_length);
  _ ← print (Banner "DATA AVAILABILITY ANALYSIS");
  counts ← eval (data_availability_counts logs);
  _ ← print_all (availability_report counts);
  _ ← print (Banner "RECENT CONVERSATIONS (Last 5)");
  _ ← for_each recent_entry 1 (recent_view logs);
  _ ← error_analysis logs;
  _ ← print (Banner "EXPORT OPTIONS");
  export now logs.

(** *** The loader (lines 16-33) *)

(** The characters [str.strip()] removes, those for which [str.isspace]
    holds: below 256 they are the code points 9 to 13, 28 to 32, 133
    (next line) and 160 (no-break space). *)
Definition py_isspace (c : Ascii.ascii) : bool :=
  let n := Ascii.nat_of_ascii c in
  ((9 <=? n) && (n <=? 13) || (28 <=? n) && (n <=? 32)
   || (n =? 133) || (n =? 160))%nat.

Fixpoint lstrip (cs : list Ascii.ascii) : list Ascii.ascii :=
  match cs with
  | c :: cs' => if py_isspace c then lstrip cs' else cs
  | [] => []
  end.

Definition strip (s : string) : string :=
  String.string_of_list_ascii
    (rev (lstrip (rev (lstrip (String.list_ascii_of_string s))))).

(** One turn of the reading loop: [None] for a blank line and for a line
    on which [json.loads] raises [JSONDecodeError], which the loop skips;
    any other exception of [json.loads] is not caught. *)
Definition load_line (line : string) : res (option pyval) :=
  match strip line with
  | EmptyString => Ok None
  | s =>
      match json_loads s with
      | Loaded log_entry => Ok (Some log_entry)
      | DecodeError => Ok None
      | OtherError e => Raise e
      end
  end.

(** The reading loop (lines 21-29): the first line that raises ends it. *)
Fixpoint load (lines : list string) : res (list pyval) :=
  match lines with
  | [] => Ok []
  | line :: lines' =>
      entry ← load_line line;
      logs ← load lines';
      mret (match entry with
            | Some log_entry => log_entry :: logs
            | None => logs
            end)
  end.

(** [view_logs()]: [file] is [None] when the log file does not exist, and
    its lines otherwise; [now] is the clock's reading at export time. *)
Definition view_logs (now : datetime) (file : option (list string))
    : prog unit :=
  match file with
  | None => print NoLogFile
  | Some lines =>
      logs ← eval (load lines);
      match logs with
      | [] => print NoValidEntries
      | _ => report now logs
      end
  end.

Definition start : world := {| console := []; files := [] |}.

End WithLibrary.

(** ** A small library instance, for worked examples

    It covers a part of each library function, and agrees with Python on
    that part: timestamps of the one shape [YYYY-MM-DDTHH:MM:SS] (any
    separator in the place of [T]), read as naive instants; the format
    directives [%Y %m %d %H %M %S]; the JSON texts [null], [true], [false],
    [{}], [[]] and the integers, those of more than 4300 digits being
    refused with [ValueError] as CPython does from version 3.11 on; [repr]
    of values whose text has no control character other than newline,
    return and tab and whose finite floats are whole numbers below
    [10^16]; frames whose integers are inside the range of 64-bit signed
    integers, built and written without an exception.  Every example below
    stays inside that part. *)
Module Demo.

Record instant : Type := {
  year : nat; month : nat; day : nat;
  hour : nat; minute : nat; second : nat
}.

Definition digit (c : Ascii.ascii) : option nat :=
  let n := Ascii.nat_of_ascii c in
  if ((48 <=? n) && (n <=? 57))%nat then Some (n - 48) else None.

Fixpoint number_from (acc : nat) (cs : list Ascii.ascii) : option nat :=
  match cs with
  | [] => Some acc
  | c :: cs' => d ← digit c; number_from (10 * acc + d) cs'
  end.

Definition number (cs : list Ascii.ascii) : option nat :=
  match cs with
  | [] => None
  | _ => number_from 0 cs
  end.

Definition leap (y : nat) : bool :=
  ((y mod 4 =? 0) && negb (y mod 100 =? 0) || (y mod 400 =? 0))%nat.

Definition days_in (y m : nat) : nat :=
  match m with
  | 2 => if leap y then 29 else 28
  | 4 | 6 | 9 | 11 => 30
  | _ => 31
  end.

Definition is_char (c : Ascii.ascii) (x : Ascii.ascii) : bool :=
  (Ascii.nat_of_ascii c =? Ascii.nat_of_ascii x)%nat.

Definition read_instant (s : string) : option instant :=
  let cs := String.list_ascii_of_string s in
  if negb (length cs =? 19)%nat then None else
  y ← number (take 4 cs);
  mo ← number (take 2 (drop 5 cs));
  d ← number (take 2 (drop 8 cs));
  h ← number (take 2 (drop 11 cs));
  mi ← number (take 2 (drop 14 cs));
  se ← number (take 2 (drop 17 cs));
  if (forallb (is_char "-"%char) (take 1 (drop 4 cs))
      && forallb (is_char "-"%char) (take 1 (drop 7 cs))
      && forallb (is_char ":"%char) (take 1 (drop 13 cs))
      && forallb (is_char ":"%char) (take 1 (drop 16 cs))
      && (1 <=? y) && (1 <=? mo) && (mo <=? 12)
      && (1 <=? d) && (d <=? days_in y mo)
      && (h <? 24) && (mi <? 60) && (se <? 60))%nat
  then Some {| year := y; month := mo; day := d;
               hour := h; minute := mi; second := se |}
  else None.

Definition instant_key (t : instant) : list nat :=
  [year t; month t; day t; hour t; minute t; second t].

Fixpoint compare_keys (a b : list nat) : comparison :=
  match a, b with
  | x :: a', y :: b' =>
      match Nat.compare x y with
      | Eq => compare_keys a' b'
      | c => c
      end
  | [], [] => Eq
  | [], _ => Lt
  | _, [] => Gt
  end.

Definition decimal_digit (n : nat) : Ascii.ascii := Ascii.ascii_of_nat (48 + n mod 10).

Fixpoint padded (width : nat) (n : nat) : list Ascii.ascii :=
  match width with
  | 0 => []
  | S w => padded w (n / 10) ++ [decimal_digit n]
  end.

Fixpoint format_from (t : instant) (cs : list Ascii.ascii) : list Ascii.ascii :=
  match cs with
  | "%"%char :: d :: cs' =>
      (if is_char "Y"%char d then padded 4 (year t)
       else if is_char "m"%char d then padded 2 (month t)
       else if is_char "d"%char d then padded 2 (day t)
       else if is_char "H"%char d then padded 2 (hour t)
       else if is_char "M"%char d then padded 2 (minute t)
       else if is_char "S"%char d then padded 2 (second t)
       else ["%"%char; d]) ++ format_from t cs'
  | c :: cs' => c :: format_from t cs'
  | [] => []
  end.

Definition format_instant (f : string) (t : instant) : string :=
  String.string_of_list_ascii (format_from t (String.list_ascii_of_string f)).

Fixpoint decimal_from (fuel : nat) (n : N) (acc : list Ascii.ascii)
    : list Ascii.ascii :=
  match fuel with
  | 0 => acc
  | S fuel' =>
      let acc' := Ascii.ascii_of_N (48 + n mod 10) :: acc in
      if (n / 10 =? 0)%N then acc' else decimal_from fuel' (n / 10)%N acc'
  end.

(** The decimal numeral of an integer; the number of binary digits
    bounds the number of decimal ones. *)
Definition decimal (z : Z) : string :=
  let n := Z.abs_N z in
  let digits := decimal_from (S (N.to_nat (N.log2 n))) n [] in
  String.string_of_list_ascii (if (z <? 0)%Z then "-"%char :: digits else digits).

Definition read_integer (s : string) : option Z :=
  let cs := String.list_ascii_of_string s in
  let '(negative, body) :=
    match cs with
    | "-"%char :: cs' => (true, cs')
    | _ => (false, cs)
    end in
  match body with
  | "0"%char :: _ :: _ => None
  | _ => n ← number body;
         Some (if negative then (- Z.of_nat n)%Z else Z.of_nat n)
  end.

(** Whether a text is a JSON integer (digits after an optional sign, with
    no zero before another digit) of more than 4300 digits. *)
Definition too_long (s : string) : bool :=
  let cs := String.list_ascii_of_string s in
  let body := match cs with
              | "-"%char :: cs' => cs'
              | _ => cs
              end in
  forallb (fun c => match digit c with Some _ => true | None => false end) body
  && match body with
     | "0"%char :: _ :: _ => false
     | _ => true
     end
  && (4300 <? length body)%nat.

Definition read_json (s : string) : parsed :=
  if String.eqb s "null" then Loaded PNone
  else if String.eqb s "true" then Loaded (PBool true)
  else if String.eqb s "false" then Loaded (PBool false)
  else if String.eqb s "{}" then Loaded (PDict [])
  else if String.eqb s "[]" then Loaded (PList [])
  else if too_long s then OtherError ValueError
  else match read_integer s with
       | Some z => Loaded (PInt z)
       | None => DecodeError
       end.

Definition double_quote : Ascii.ascii := Ascii.ascii_of_nat 34.

Definition quoted (s : string) : string :=
  let cs := String.list_ascii_of_string s in
  let q := if existsb (is_char "'"%char) cs && negb (existsb (is_char double_quote) cs)
           then double_quote else "'"%char in
  let escape c :=
    if is_char q c || is_char "\"%char c then ["\"%char; c]
    else if is_char "010"%char c then ["\"%char; "n"%char]
    else if is_char "013"%char c then ["\"%char; "r"%char]
    else if is_char "009"%char c then ["\"%char; "t"%char]
    else [c] in
  String.string_of_list_ascii (q :: concat (map escape cs) ++ [q]).

Definition join (sep : string) (parts : list string) : string :=
  match parts with
  | [] => ""
  | p :: ps => foldl (fun acc x => acc +:+ sep +:+ x) p ps
  end.

Definition float_text (f : spec_float) : string :=
  match f with
  | S754_zero s => if s then "-0.0" else "0.0"
  | S754_infinity s => if s then "-inf" else "inf"
  | S754_nan => "nan"
  | S754_finite s m e =>
      (if s then "-" else "")
      +:+ decimal (if (0 <=? e)%Z then Z.pos m * 2 ^ e
                   else Z.pos m / 2 ^ (- e))
      +:+ ".0"
  end.

Fixpoint repr (v : pyval) : string :=
  match v with
  | PNone => "None"
  | PBool b => if b then "True" else "False"
  | PInt z => decimal z
  | PFloat f => float_text f
  | PStr s => quoted s
  | PList l => "[" +:+ join ", " (map repr l) +:+ "]"
  | PDict d =>
      "{" +:+ join ", " (map (fun kv => quoted (fst kv) +:+ ": " +:+ repr (snd kv)) d)
      +:+ "}"
  end.

(** How a column is stored.  A column in which every object is an
    integer, a float, [None] or a missing value, and which holds more than
    integers and more than [None], is a column of floats: an integer is
    converted and [None] becomes [nan].  Every other column keeps its
    objects: a column of integers, and a column with text, a boolean, a
    list or a mapping in it. *)
Definition number_or_missing (x : cell) : bool :=
  match x with
  | NaN | Obj PNone | Obj (PFloat _) => true
  | Obj (PInt z) => (Z.abs z <? 2 ^ 63)%Z
  | _ => false
  end.

Definition is_integer (x : cell) : bool :=
  match x with
  | Obj (PInt _) => true
  | _ => false
  end.

Definition is_none (x : cell) : bool :=
  match x with
  | Obj PNone => true
  | _ => false
  end.

Definition as_float (x : cell) : cell :=
  match x with
  | Obj (PInt z) => Obj (PFloat (binary_normalize 53 1024 z 0 false))
  | Obj PNone => NaN
  | _ => x
  end.

Definition store (col : list cell) : list cell :=
  if forallb number_or_missing col && negb (forallb is_integer col)
     && negb (forallb is_none col)
  then map as_float col
  else col.

(** The two laws of the class, for this way of storing. *)
Definition store_length (col : list cell) : length (store col) = length col.
Proof. unfold store. destruct (_ && _); [apply length_map | reflexivity]. Qed.

Definition store_mappings (col : list cell) (d : list (string * pyval))
    (Hin : In (Obj (PDict d)) col) : store col = col.
Proof.
  unfold store.
  assert (Hno : forallb number_or_missing col = false).
  { destruct (forallb number_or_missing col) eqn:Hall; [|reflexivity].
    rewrite forallb_forall in Hall. specialize (Hall _ Hin). discriminate. }
  rewrite Hno. reflexivity.
Qed.

Definition lib : PyLib := {|
  datetime := instant;
  fromisoformat := read_instant;
  dt_compare := fun a b => Some (compare_keys (instant_key a) (instant_key b));
  strftime := format_instant;
  json_loads := read_json;
  py_str := repr;
  frame_error := fun _ => None;
  store_column := store;
  csv_error := fun _ => None;
  store_column_length := store_length;
  store_column_mappings := store_mappings
|}.

(** The clock reading used in the examples. *)
Definition noon : @datetime lib :=
  {| year := 2024; month := 5; day := 17; hour := 12; minute := 0; second := 0 |}.

End Demo.

(** * Notions used to state the properties *)

(** The last [n] members of a sequence, in their original order. *)
Definition last_n {A : Type} (n : nat) (l : list A) : list A :=
  drop (length l - n) l.

(** A computation that only ever adds lines at the end of the console. *)
Definition appends {A : Type} (p : prog A) : Prop :=
  forall w, exists out, console (p w).1 = console w ++ out.

(** The console after [out] has been printed. *)
Definition printed (w : world) (out : list line) : world :=
  {| console := console w ++ out; files := files w |}.

(** The text shown for [s] under a budget of [budget] characters: its
    first characters, and the marker when some were cut. *)
Definition shown (budget : nat) (s : string) : string :=
  if (String.length s <=? budget)%nat then s
  else str_take budget s +:+ "...".

(** Whether the [data_availability] mapping of [log] mentions the source
    [name] with a true value ([flag = true]) or a false one
    ([flag = false]); a source the mapping does not mention does neither. *)
Definition marks (name : string) (flag : bool) (log : record) : bool :=
  match get_or "data_availability" PNone log with
  | PDict d =>
      match dict_get name d with
      | Some v => Bool.eqb (truthy v) flag
      | None => false
      end
  | _ => false
  end.

(** The number of records that mark [name] so. *)
Definition marked (name : string) (flag : bool) (logs : list record) : nat :=
  length (List.filter (marks name flag) logs).

(** The [data_availability] values on which the counting loop runs: a
    mapping, or anything false. *)
Definition availability_ok (log : record) : bool :=
  match get_or "data_availability" PNone log with
  | PDict _ => true
  | v => negb (truthy v)
  end.

(** The key of the counter that line 77 ([flag = true]) or line 79
    ([flag = false]) increments for the source [name]. *)
Definition counter_key (name : string) (flag : bool) : string :=
  name +:+ (if flag then "_available" else "_missing").

(** One item of one mapping counts for [name] when it carries that name
    and a value of the wanted truth. *)
Definition hit (name : string) (flag : bool) (item : string * pyval) : bool :=
  String.eqb item.1 name && Bool.eqb (truthy item.2) flag.

(** The value line 43 puts in the set for a record: its [session_id], and
    [None] for a record that has none. *)
Definition session_key (log : record) : pyval := get_or "session_id" PNone log.

(** The members of a set after the values [vs] were added to [s], when
    all of them hash. *)
Definition collect (s : list pyval) (vs : list pyval) : list pyval :=
  foldl (fun s v => if existsb (py_eq v) s then s else s ++ [v]) s vs.

(** No member equals an earlier one. *)
Definition pairwise_distinct (s : list pyval) : Prop :=
  forall i j x y, i < j -> s !! i = Some x -> s !! j = Some y ->
    py_eq y x = false.

(** [reps] names the distinct values among [vs]: each value equals one of
    them, each of them is one of the values, and no two of them are equal.
    Its length is the number of distinct values. *)
Definition representatives (vs reps : list pyval) : Prop :=
  (forall v, v ∈ vs -> exists r, r ∈ reps /\ py_eq v r = true)
  /\ (forall r, r ∈ reps -> r ∈ vs)
  /\ pairwise_distinct reps.

(** Whether no record has any field at all. *)
Definition no_fields (logs : list record) : bool :=
  forallb (fun log => match log with [] => true | _ :: _ => false end) logs.

(** The field values the report copes with.  A field may always be
    absent.  Text and lists slice and have a length; a length is an
    integer (or a boolean) inside the binary64 range. *)
Definition text_like (v : pyval) : bool :=
  match v with
  | PStr _ | PList _ => true
  | _ => false
  end.

Definition length_ok (v : pyval) : bool :=
  match v with
  | PBool _ => true
  | PInt z => fits_float z
  | _ => false
  end.

Definition field_ok (k : string) (ok : pyval -> bool) (log : record) : bool :=
  match dict_get k log with
  | Some v => ok v
  | None => true
  end.

Definition tolerated (log : record) : bool :=
  field_ok "session_id" hashable log
  && field_ok "timestamp" (fun v => negb (truthy v) || text_like v) log
  && field_ok "question_length" length_ok log
  && field_ok "response_length" length_ok log
  && availability_ok log
  && field_ok "user_question" text_like log
  && field_ok "ai_response" text_like log.

(** The outcome of a computation, whatever it printed or wrote. *)
Definition outcome {A : Type} (p : prog A) (w : world) : res A := (p w).2.

(** A computation that ends normally, from any state, exactly when [P]
    holds. *)
Definition ends_normally_iff {A : Type} (p : prog A) (P : Prop) : Prop :=
  forall w, (exists a, outcome p w = Ok a) <-> P.

(** A loaded value that passes line 43: a mapping whose session id
    hashes. *)
Definition session_ready (v : pyval) : bool :=
  match v with
  | PDict d => hashable (session_key d)
  | _ => false
  end.

(** A computation that leaves the written files as they are. *)
Definition keeps_files {A : Type} (p : prog A) : Prop :=
  forall w, files (p w).1 = files w.

(** A computation that writes nothing, which when it ends normally is
    because the table is [empty]; or ends normally having written the one
    file [name] with the [table] in it, the table not being empty and the
    writing having met no failure; or raises the [failure] of the writing,
    leaving the file [name] incomplete. *)
Definition writes_at_most {A : Type} (name : string) (table : frame)
    (empty : bool) (failure : option exn) (p : prog A) : Prop :=
  forall w,
    (files (p w).1 = files w
     /\ ((exists a, outcome p w = Ok a) -> empty = true))
    \/ ((exists a, outcome p w = Ok a) /\ empty = false /\ failure = None
        /\ files (p w).1 = files w ++ [(name, Table table)])
    \/ (exists e, failure = Some e /\ outcome p w = Raise e
        /\ files (p w).1 = files w ++ [(name, Incomplete)]).

(** The name of the exported file for the clock reading [now]. *)
Definition csv_name `{PyLib} (now : datetime) : string :=
  "conversation_logs_analysis_" +:+ strftime "%Y%m%d_%H%M%S" now +:+ ".csv".

(** The integer a length field adds to the sum: its value, [0] when the
    field is absent, a boolean as [0] or [1]. *)
Definition length_value (field : string) (log : record) : Z :=
  match get_or field (PInt 0) log with
  | PInt z => z
  | PBool b => Z.b2z b
  | _ => 0%Z
  end.

Definition length_total (field : string) (logs : list record) : Z :=
  foldr (fun log acc => (length_value field log + acc)%Z) 0%Z logs.

(** The source named by an availability line. *)
Definition line_source (l : line) : option string :=
  match l with
  | Availability file_name _ _ _ => Some file_name
  | _ => None
  end.

(** The value of a computation that ended normally. *)
Definition res_value {A : Type} (default : A) (r : res A) : A :=
  match r with
  | Ok a => a
  | Raise _ => default
  end.

(** The lines of a loop that prints [lines_of i x] for the members [x] of
    [xs], numbered from [i]. *)
Fixpoint numbered {A : Type} (lines_of : nat -> A -> list line) (i : nat)
    (xs : list A) : list line :=
  match xs with
  | [] => []
  | x :: xs' => lines_of i x ++ numbered lines_of (S i) xs'
  end.

(** What a normal run prints for one recent conversation, for one error
    record, in the export block, and in all. *)
Definition recent_lines `{PyLib} (i : nat) (log : record) : list line :=
  [RecentHeading i (res_value "" (formatted_time log));
   RecentQuestion
     (res_value "" (clipped 100 (get_or "user_question" (PStr "No question") log)));
   RecentResponse
     (res_value "" (clipped 100 (get_or "ai_response" (PStr "No response") log)))]
  ++ (if error_occurred log then [RecentErrorMark] else []).

Definition error_lines `{PyLib} (i : nat) (log : record) : list line :=
  [ErrorEntry i (res_value "" (formatted_time log))
     (res_value "" (clipped 80 (get_or "user_question" (PStr "No question") log)))].

Definition export_lines `{PyLib} (now : datetime) (logs : list record)
    : list line :=
  if frame_empty (DataFrame logs) then [NoDataToExport]
  else [Exported (csv_name now); FrameInfo;
        FrameShape (length (rows (export_frame (DataFrame logs))))
          (length (columns (export_frame (DataFrame logs))));
        FrameColumns (columns (export_frame (DataFrame logs)))].

Definition written `{PyLib} (now : datetime) (logs : list record)
    : list (string * file_content) :=
  if frame_empty (DataFrame logs) then []
  else [(csv_name now, Table (export_frame (DataFrame logs)))].

(** The lines up to the banner of the export block. *)
Definition body_lines `{PyLib} (logs : list record) : list line :=
  [Found (length logs); Banner "BASIC STATISTICS";
   TotalConversations (length logs);
   UniqueSessions (res_value 0 (unique_sessions (map PDict logs)));
   Errors (errors logs) (error_rate logs)]
  ++ option_list (date_range logs)
  ++ [AverageQuestionLength
        (res_value (Mean 0) (average_length "question_length" logs));
      AverageResponseLength
        (res_value (Mean 0) (average_length "response_length" logs));
      Banner "DATA AVAILABILITY ANALYSIS"]
  ++ availability_report (res_value ∅ (data_availability_counts logs))
  ++ [Banner "RECENT CONVERSATIONS (Last 5)"]
  ++ numbered recent_lines 1 (recent_view logs)
  ++ (if (0 <? errors logs)%nat
      then Banner "ERROR ANALYSIS" :: numbered error_lines 1 (error_logs logs)
      else [])
  ++ [Banner "EXPORT OPTIONS"].

Definition report_lines `{PyLib} (now : datetime) (logs : list record)
    : list line :=
  body_lines logs ++ export_lines now logs.

(** What the views need of a record they show: a timestamp that is false
    or can be sliced, and text that can be sliced and has a length. *)
Definition time_ok (log : record) : bool :=
  field_ok "timestamp" (fun v => negb (truthy v) || text_like v) log.

Definition recent_ok (log : record) : bool :=
  time_ok log
  && field_ok "user_question" text_like log
  && field_ok "ai_response" text_like log.

Definition listed_ok (log : record) : bool :=
  time_ok log && field_ok "user_question" text_like log.

(** What [sum] and the division need of the lengths.  As long as no float
    was met the sum is an integer, of any size; the first float converts
    it, which needs it inside the binary64 range, and from then on an
    integer is converted when it is added.  At the end an integer sum is
    divided exactly and the quotient rounded, which needs the quotient
    inside the range; a float sum is divided by the converted count. *)
Definition float_addable (v : pyval) : bool :=
  match v with
  | PBool _ | PFloat _ => true
  | PInt z => fits_float z
  | _ => false
  end.

Fixpoint summable_from (z : Z) (vs : list pyval) (count : nat) : bool :=
  match vs with
  | [] => (Z.abs z <? float_limit * Z.of_nat count)%Z
  | PBool b :: vs' => summable_from (z + Z.b2z b) vs' count
  | PInt n :: vs' => summable_from (z + n) vs' count
  | PFloat _ :: vs' =>
      fits_float z && forallb float_addable vs'
      && fits_float (Z.of_nat count)
  | _ => false
  end.

Definition averageable (field : string) (logs : list record) : bool :=
  (length logs =? 0)%nat
  || summable_from 0 (map (get_or field (PInt 0)) logs) (length logs).

(** The conditions under which lines 35 to 158 end normally: every loaded
    value is a mapping whose session id hashes; both lengths can be
    averaged; every [data_availability] is a mapping or false; the records
    of the recent view and the error records can be shown; the frame is
    built, and it is empty or written without a failure. *)
Definition runs_through `{PyLib} (loaded : list pyval) : Prop :=
  let logs := records_of loaded in
  forallb session_ready loaded = true
  /\ averageable "question_length" logs = true
  /\ averageable "response_length" logs = true
  /\ forallb availability_ok logs = true
  /\ forallb recent_ok (recent_view logs) = true
  /\ forallb listed_ok (error_logs logs) = true
  /\ frame_error logs = None
  /\ (frame_empty (DataFrame logs) = true
      \/ csv_error (export_frame (DataFrame logs)) = None).


(** The section titles, the entry numbers of the recent view and those of
    the error view, as they occur in what was printed. *)
Definition banners (out : list line) : list string :=
  omap (fun l => match l with Banner title => Some title | _ => None end) out.

Definition recent_numbers (out : list line) : list nat :=
  omap (fun l => match l with RecentHeading i _ => Some i | _ => None end) out.

Definition error_numbers (out : list line) : list nat :=
  omap (fun l => match l with ErrorEntry i _ _ => Some i | _ => None end) out.

(** The record of a mantissa being shifted to the right (the mantissa,
    the last bit shifted out, whether a bit shifted out before was set)
    stays between two bounds, and nothing but zeros was shifted out of a
    mantissa that meets the upper one. *)
Definition within (lo hi : Z) (mrs : shr_record) : Prop :=
  (0 <= lo <= shr_m mrs)%Z /\ (shr_m mrs <= hi)%Z
  /\ (shr_m mrs = hi -> shr_r mrs = false /\ shr_s mrs = false).

(** ** Worked examples *)

Module Examples.

Definition long_question : string :=
  "Which of the brands in the weekly report lost the most margin, and which products caused the largest part of that loss?".

Definition chatty : record :=
  [("session_id", PStr "s1");
   ("timestamp", PStr "2024-05-01T10:20:30");
   ("user_question", PStr long_question);
   ("error_occurred", PBool true)].

Definition bare : record := [("session_id", PStr "s1")].

Definition failed : record :=
  [("session_id", PStr "s1"); ("error_occurred", PBool true)].

Definition seven_logs : list record :=
  [bare; failed; bare; bare; failed; bare; bare].

Definition typed_wrong : record := [("user_question", PInt 5)].

Definition timed : list record :=
  [chatty; bare; [("timestamp", PStr "2023-11-30 08:05:00")];
   [("timestamp", PStr "2024-01-15T23:59:59")]].

Definition measured : list record :=
  [[("question_length", PInt 12); ("response_length", PInt 40)];
   [("response_length", PInt 20)];
   [("question_length", PBool true)]].

Definition odd_but_fine : record :=
  [("timestamp", PStr "yesterday"); ("question_length", PInt 12);
   ("error_occurred", PStr "yes"); ("ai_response", PStr "Hello.")].

Definition with_orders : record :=
  [("session_id", PStr "s2");
   ("data_availability",
    PDict [("order_data", PBool true); ("gm_report", PBool false)])].

(** A hundred records, seven of which had the order data. *)
Definition seven_in_hundred : list record :=
  repeat [("data_availability", PDict [("order_data", PBool true)])] 7
  ++ repeat [("data_availability", PDict [("order_data", PBool false)])] 93.

(** A line of 5000 digits. *)
Definition long_numeral : string :=
  String.string_of_list_ascii (repeat "7"%char 5000).

(** The line [{}] between two no-break spaces. *)
Definition padded_line : string :=
  String (Ascii.ascii_of_nat 160) ("{}" +:+ String (Ascii.ascii_of_nat 160) "").

(** Two records with an integer length, and one without a length. *)
Definition lengths_missing : list record :=
  [[("question_length", PInt 12)];
   [("question_length", PInt (2 ^ 53 + 1))];
   [("session_id", PStr "s1")]].

End Examples.

(** * Properties *)

(** ** Counts and rates *)

Lemma errors_filter (logs : list record) :
  errors logs = length (List.filter error_occurred logs).
Proof.
  induction logs as [|log logs IH]; simpl; [reflexivity|].
  destruct (error_occurred log); simpl; rewrite IH; reflexivity.
Qed.

Lemma filter_length_le {A : Type} (f : A -> bool) (l : list A) :
  length (List.filter f l) <= length l.
Proof.
  induction l as [|x l IH]; simpl; [lia|].
  destruct (f x); simpl; lia.
Qed.

Lemma errors_le_total (logs : list record) :
  errors logs <= total_conversations logs.
Proof. rewrite errors_filter. apply filter_length_le. Qed.


Lemma Qnat_pos (n : nat) : 0 < n -> (0 < Qnat n)%Q.
Proof. intros Hn. unfold Qnat, Qlt; simpl. lia. Qed.






(** Seven records, two of them flagged: two errors, a rate of 200/7
    (shown as 28.6), and an error view of two entries. *)
Example two_errors_in_seven :
  errors Examples.seven_logs = 2
  /\ (error_rate Examples.seven_logs == 200 # 7)%Q
  /\ error_logs Examples.seven_logs = [Examples.failed; Examples.failed].
Proof. repeat split. Qed.

(** ** The recent view *)

Lemma recent_logs_last (logs : list record) :
  recent_logs logs = last_n (min 5 (length logs)) logs.
Proof.
  unfold recent_logs, last_n.
  destruct (Nat.leb_spec 5 (length logs)) as [Hge|Hlt].
  - rewrite Nat.min_l by exact Hge. reflexivity.
  - rewrite Nat.min_r by lia. rewrite Nat.sub_diag. reflexivity.
Qed.

Lemma last_n_length {A : Type} (n : nat) (l : list A) :
  n <= length l -> length (last_n n l) = n.
Proof. intros Hn. unfold last_n. rewrite length_drop. lia. Qed.

(** C8.  The recent view has [min(5, total)] entries and lists the last
    [min(5, total)] records of the sequence in reverse order. *)
Theorem recent_view_shape (logs : list record) :
  length (recent_view logs) = min 5 (total_conversations logs)
  /\ recent_view logs
     = reverse (last_n (min 5 (total_conversations logs)) logs)
  /\ (forall i, i < min 5 (total_conversations logs) ->
        recent_view logs !! i = logs !! (total_conversations logs - 1 - i)).
Proof.
  unfold recent_view, total_conversations.
  rewrite recent_logs_last.
  assert (Hlen : length (last_n (min 5 (length logs)) logs)
                 = min 5 (length logs))
    by (apply last_n_length; lia).
  split; [|split].
  - rewrite length_reverse. exact Hlen.
  - reflexivity.
  - intros i Hi.
    rewrite reverse_lookup by (rewrite Hlen; exact Hi).
    rewrite Hlen. unfold last_n. rewrite lookup_drop.
    f_equal. lia.
Qed.

(** ** Running the printing code *)

Section Runs.
Context `{PyLib}.

Lemma appends_ret {A : Type} (a : A) : appends (mret a).
Proof. intros w. exists []. simpl. rewrite app_nil_r. reflexivity. Qed.

Lemma appends_eval {A : Type} (r : res A) : appends (eval r).
Proof. intros w. exists []. simpl. rewrite app_nil_r. reflexivity. Qed.

Lemma appends_print (l : line) : appends (print l).
Proof. intros w. exists [l]. reflexivity. Qed.

Lemma appends_print_all (ls : list line) : appends (print_all ls).
Proof. intros w. exists ls. reflexivity. Qed.

Lemma appends_bind {A B : Type} (p : prog A) (k : A -> prog B) :
  appends p -> (forall a, appends (k a)) -> appends (p ≫= k).
Proof.
  intros Hp Hk w. destruct (Hp w) as [out Hout].
  unfold mbind, prog_bind. destruct (p w) as [w' [a|e]]; simpl in *.
  - destruct (Hk a w') as [out' Hout']. exists (out ++ out').
    rewrite Hout', Hout, app_assoc. reflexivity.
  - exists out. exact Hout.
Qed.

Lemma appends_for_each {A : Type} (body : nat -> A -> prog unit) :
  (forall i x, appends (body i x)) ->
  forall xs i, appends (for_each body i xs).
Proof.
  intros Hbody xs. induction xs as [|x xs IH]; intros i; simpl.
  - apply appends_ret.
  - apply appends_bind; [apply Hbody | intros _; apply IH].
Qed.

Lemma appends_error_entry (i : nat) (log : record) :
  appends (error_entry i log).
Proof.
  unfold error_entry.
  apply appends_bind; [apply appends_eval | intros time].
  apply appends_bind; [apply appends_eval | intros q].
  apply appends_print.
Qed.

Lemma appends_recent_entry (i : nat) (log : record) :
  appends (recent_entry i log).
Proof.
  unfold recent_entry.
  repeat (apply appends_bind;
          [first [apply appends_eval | apply appends_print] | intros ?]).
  destruct (truthy _); [apply appends_print | apply appends_ret].
Qed.

(** ** The error view *)

Lemma error_logs_sublist (logs : list record) :
  sublist (error_logs logs) logs.
Proof.
  unfold error_logs. induction logs as [|log logs IH]; simpl.
  - constructor.
  - destruct (error_occurred log); constructor; exact IH.
Qed.

(** C9.  The error view holds exactly the records whose [error_occurred]
    is true, in their original order; it has [errors] entries; and the
    error-analysis block prints nothing unless [errors > 0], in which case
    it starts with its banner. *)
Theorem error_view_exact (logs : list record) :
  sublist (error_logs logs) logs
  /\ (forall log, log ∈ error_logs logs <->
        log ∈ logs /\ error_occurred log = true)
  /\ length (error_logs logs) = errors logs
  /\ (errors logs = 0 -> forall w, error_analysis logs w = (w, Ok tt))
  /\ (0 < errors logs -> forall w, exists rest,
        console (error_analysis logs w).1
        = console w ++ Banner "ERROR ANALYSIS" :: rest).
Proof.
  split; [apply error_logs_sublist|].
  split.
  { intros log. unfold error_logs.
    rewrite !list_elem_of_In, filter_In. reflexivity. }
  split; [symmetry; apply errors_filter|].
  split.
  - intros Hzero w. unfold error_analysis. rewrite Hzero. reflexivity.
  - intros Hpos w. unfold error_analysis.
    destruct (Nat.ltb_spec 0 (errors logs)) as [_|Hle]; [|lia].
    destruct (appends_for_each error_entry appends_error_entry
                (error_logs logs) 1
                {| console := console w ++ [Banner "ERROR ANALYSIS"];
                   files := files w |}) as [out Hout].
    exists out. unfold mbind, prog_bind, print at 1. simpl in *.
    rewrite Hout, <- app_assoc. reflexivity.
Qed.

(** ** Truncated display text *)

Lemma str_take_all (n : nat) (s : string) :
  String.length s <= n -> str_take n s = s.
Proof.
  revert n. induction s as [|c s IH]; intros [|n] Hn; simpl in *;
    try reflexivity; try lia.
  rewrite IH by lia. reflexivity.
Qed.

Lemma str_take_length (n : nat) (s : string) :
  String.length (str_take n s) = min n (String.length s).
Proof.
  revert n. induction s as [|c s IH]; intros [|n]; simpl; try reflexivity.
  rewrite IH. reflexivity.
Qed.





(** ** The date range *)

Lemma timestamps_spec (logs : list record) (ts : pyval) :
  ts ∈ timestamps logs <->
  truthy ts = true /\ exists log, log ∈ logs /\ get_or "timestamp" PNone log = ts.
Proof.
  unfold timestamps. rewrite list_elem_of_In, filter_In, <- list_elem_of_In.
  rewrite list_elem_of_fmap. split.
  - intros [[log [Hts Hlog]] Htruthy]. split; [exact Htruthy|].
    exists log. split; [exact Hlog | symmetry; exact Hts].
  - intros [Htruthy [log [Hlog Hts]]]. split; [|exact Htruthy].
    exists log. split; [symmetry; exact Hts | exact Hlog].
Qed.

Lemma parse_all_failure (tss : list pyval) (ts : pyval) :
  ts ∈ tss -> parse_timestamp ts = None -> parse_all tss = None.
Proof.
  induction tss as [|t tss IH]; intros Hin Hfail.
  - apply not_elem_of_nil in Hin. contradiction.
  - simpl. apply elem_of_cons in Hin as [->|Hin].
    + rewrite Hfail. reflexivity.
    + destruct (parse_timestamp t); [|reflexivity].
      rewrite (IH Hin Hfail). reflexivity.
Qed.

(** C2, as the code has it.  With no present timestamp the block prints
    no date-range line at all; with at least one, a single timestamp that
    fails to parse makes the whole range [Unknown]; in every case the block
    prints at most that one line and raises nothing. *)
Theorem date_range_cases (logs : list record) :
  (timestamps logs = [] -> date_range logs = None)
  /\ (forall ts, ts ∈ timestamps logs -> parse_timestamp ts = None ->
         date_range logs = Some DateRangeUnknown)
  /\ (forall w, print_all (option_list (date_range logs)) w
                = (printed w (option_list (date_range logs)), Ok tt))
  /\ (forall ts, ts ∈ timestamps logs <->
         truthy ts = true
         /\ exists log, log ∈ logs /\ get_or "timestamp" PNone log = ts).
Proof.
  split; [|split; [|split]].
  - intros Hnone. unfold date_range. rewrite Hnone. reflexivity.
  - intros ts Hin Hfail. unfold date_range.
    destruct (timestamps logs) as [|t tss].
    + apply not_elem_of_nil in Hin. contradiction.
    + rewrite (parse_all_failure _ _ Hin Hfail). reflexivity.
  - intros w. reflexivity.
  - apply timestamps_spec.
Qed.

End Runs.


(** A question of 119 characters, as the two views show it. *)
Example long_question_shown :
  String.length Examples.long_question = 119
  /\ shown 100 Examples.long_question
     = "Which of the brands in the weekly report lost the most margin, and which products caused the largest..."
  /\ shown 80 Examples.long_question
     = "Which of the brands in the weekly report lost the most margin, and which product...".
Proof. repeat split. Qed.

(** C2 as stated fails: a record without a timestamp leaves the report
    without any date-range line, not with [Unknown]. *)
Lemma date_range_absent_not_unknown :
  timestamps [Examples.bare] = []
  /\ @date_range Demo.lib [Examples.bare] <> Some DateRangeUnknown
  /\ console (@report Demo.lib Demo.noon [PDict Examples.bare] start).1
     = [Found 1; Banner "BASIC STATISTICS"; TotalConversations 1;
        UniqueSessions 1; Errors 0 0;
        AverageQuestionLength (Mean 0); AverageResponseLength (Mean 0);
        Banner "DATA AVAILABILITY ANALYSIS";
        Banner "RECENT CONVERSATIONS (Last 5)";
        RecentHeading 1 "Unknown"; RecentQuestion "No question";
        RecentResponse "No response"; Banner "EXPORT OPTIONS";
        Exported "conversation_logs_analysis_20240517_120000.csv";
        FrameInfo; FrameShape 1 1; FrameColumns ["session_id"]].
Proof.
  split; [reflexivity|]. split; [discriminate|]. vm_compute. reflexivity.
Qed.

(** ** Rates in binary64

    Rounding keeps a value between two numbers of the format that enclose
    it: a rate, the rounded product of 100 and a rounded quotient of at
    most 1, lies between 0 and 100, and is 100 when the part is the
    whole. *)

Lemma shr_1_within (lo hi : Z) (mrs : shr_record) :
  within (2 * lo) (2 * hi) mrs -> within lo hi (shr_1 mrs).
Proof.
  destruct mrs as [m r s]. unfold within; cbn [shr_m shr_r shr_s].
  intros (Hlo & Hhi & Hexact).
  destruct m as [|[p|p|]|p]; cbn [shr_1 shr_m shr_r shr_s]; try lia;
    (split; [lia|]; split; [lia|]; intros Heq;
     first [exfalso; lia
           | destruct Hexact as [-> ->]; [lia|]; split; reflexivity]).
Qed.

Lemma iter_pos_within (p : positive) :
  forall lo hi mrs,
    within (2 ^ Z.pos p * lo) (2 ^ Z.pos p * hi) mrs ->
    within lo hi (SpecFloat.iter_pos shr_1 p mrs).
Proof.
  induction p as [p IH|p IH|]; intros lo hi mrs Hw; cbn [iter_pos].
  - apply IH, IH, shr_1_within.
    replace (2 * (2 ^ Z.pos p * (2 ^ Z.pos p * lo)))%Z
      with (2 ^ Z.pos p~1 * lo)%Z;
      [replace (2 * (2 ^ Z.pos p * (2 ^ Z.pos p * hi)))%Z
         with (2 ^ Z.pos p~1 * hi)%Z; [exact Hw|]|];
      rewrite (Pos2Z.inj_xI p), Z.pow_add_r, Z.pow_mul_r by lia;
      change (2 ^ 2)%Z with 4%Z; rewrite Z.pow_1_r;
      replace 4%Z with (2 * 2)%Z by reflexivity;
      rewrite Z.pow_mul_l; ring.
  - apply IH, IH.
    replace (2 ^ Z.pos p * (2 ^ Z.pos p * lo))%Z with (2 ^ Z.pos p~0 * lo)%Z;
      [replace (2 ^ Z.pos p * (2 ^ Z.pos p * hi))%Z
         with (2 ^ Z.pos p~0 * hi)%Z; [exact Hw|]|];
      rewrite (Pos2Z.inj_xO p), Z.pow_mul_r by lia;
      replace (2 ^ 2)%Z with (2 * 2)%Z by reflexivity;
      rewrite Z.pow_mul_l; ring.
  - apply shr_1_within. exact Hw.
Qed.

Lemma digits2_size (p : positive) : digits2_pos p = Pos.size p.
Proof. induction p as [p IH|p IH|]; cbn; rewrite ?IH; reflexivity. Qed.

Lemma Zdigits2_bound (m k : Z) :
  (0 <= m < 2 ^ k)%Z -> (0 <= k)%Z -> (Zdigits2 m <= k)%Z.
Proof.
  intros [Hm Hlt] Hk. destruct m as [|p|p]; [cbn; lia| |lia].
  cbn [Zdigits2]. rewrite digits2_size.
  pose proof (Pos.size_le p) as Hle.
  apply Pos2Z.pos_le_pos in Hle. rewrite Pos2Z.inj_pow in Hle.
  assert (Hpow : (2 ^ Z.pos (Pos.size p) < 2 ^ (k + 1))%Z).
  { rewrite Z.pow_add_r, Z.pow_1_r by lia. lia. }
  apply Z.pow_lt_mono_r_iff in Hpow; lia.
Qed.

Lemma shr_record_of_loc_m (m : Z) (l : location) :
  shr_m (shr_record_of_loc m l) = m.
Proof. destruct l as [|[| |]]; reflexivity. Qed.

Lemma shr_fexp_within (lo hi m e : Z) (l : location) :
  (0 <= lo)%Z -> (hi < 2 ^ 53)%Z -> (e <= 0)%Z ->
  within (lo * 2 ^ (- e)) (hi * 2 ^ (- e)) (shr_record_of_loc m l) ->
  (snd (shr_fexp 53 1024 m e l) <= 0)%Z
  /\ within (lo * 2 ^ (- snd (shr_fexp 53 1024 m e l)))
       (hi * 2 ^ (- snd (shr_fexp 53 1024 m e l)))
       (fst (shr_fexp 53 1024 m e l)).
Proof.
  intros Hlo Hhi He Hw. unfold shr_fexp, shr.
  destruct (fexp 53 1024 (Zdigits2 m + e) - e)%Z as [|p|p] eqn:Hn;
    cbn [fst snd]; [split; assumption| |split; assumption].
  assert (Hm : (0 <= m < 2 ^ (53 - e))%Z).
  { destruct Hw as (Hl & Hu & _). rewrite shr_record_of_loc_m in Hl, Hu.
    assert (0 < 2 ^ (- e))%Z by (apply Z.pow_pos_nonneg; lia).
    split; [nia|].
    replace (53 - e)%Z with (53 + - e)%Z by lia.
    rewrite Z.pow_add_r by lia. nia. }
  pose proof (Zdigits2_bound m (53 - e) Hm ltac:(lia)) as Hd.
  unfold fexp, emin in Hn.
  assert (He' : (e + Z.pos p <= 0)%Z) by lia.
  split; [exact He'|].
  apply iter_pos_within.
  replace (2 ^ Z.pos p * (lo * 2 ^ (- (e + Z.pos p))))%Z with (lo * 2 ^ (- e))%Z;
    [replace (2 ^ Z.pos p * (hi * 2 ^ (- (e + Z.pos p))))%Z
       with (hi * 2 ^ (- e))%Z; [exact Hw|]|];
    replace (- e)%Z with (Z.pos p + - (e + Z.pos p))%Z at 1 by lia;
    rewrite Z.pow_add_r by lia; ring.
Qed.

Lemma round_within (lo hi : Z) (mrs : shr_record) :
  within lo hi mrs ->
  (lo <= round_nearest_even (shr_m mrs) (loc_of_shr_record mrs) <= hi)%Z.
Proof.
  destruct mrs as [m r s]. unfold within; cbn [shr_m shr_r shr_s].
  intros (Hlo & Hhi & Hexact).
  destruct (Z.eq_dec m hi) as [Heq|Hne].
  - destruct (Hexact Heq) as [-> ->]. cbn. lia.
  - destruct r, s; cbn [loc_of_shr_record round_nearest_even];
      try destruct (Z.even m); lia.
Qed.

(** Rounding a value that lies between two integers below [2^53] gives a
    number between them. *)
Lemma binary_round_aux_within (lo hi mx ex : Z) (lx : location) :
  (0 <= lo)%Z -> (hi < 2 ^ 53)%Z -> (ex <= 0)%Z ->
  within (lo * 2 ^ (- ex)) (hi * 2 ^ (- ex)) (shr_record_of_loc mx lx) ->
  match binary_round_aux 53 1024 false mx ex lx with
  | S754_zero s => s = false /\ lo = 0%Z
  | S754_finite s m e =>
      s = false /\ (e <= 0)%Z
      /\ (lo * 2 ^ (- e) <= Z.pos m <= hi * 2 ^ (- e))%Z
  | _ => False
  end.
Proof.
  intros Hlo Hhi Hex Hw. unfold binary_round_aux.
  pose proof (shr_fexp_within lo hi mx ex lx Hlo Hhi Hex Hw) as [He1 Hw1].
  destruct (shr_fexp 53 1024 mx ex lx) as [mrs1 e1]. cbn [fst snd] in He1, Hw1.
  pose proof (round_within _ _ _ Hw1) as Hround.
  set (m1 := round_nearest_even (shr_m mrs1) (loc_of_shr_record mrs1)) in *.
  assert (Hw2 : within (lo * 2 ^ (- e1)) (hi * 2 ^ (- e1))
                  (shr_record_of_loc m1 loc_Exact)).
  { unfold within; cbn [shr_record_of_loc shr_m shr_r shr_s].
    assert (0 < 2 ^ (- e1))%Z by (apply Z.pow_pos_nonneg; lia).
    split; [nia|]. split; [lia|]. intros _. split; reflexivity. }
  pose proof (shr_fexp_within lo hi m1 e1 loc_Exact Hlo Hhi He1 Hw2)
    as [He2 (Hl2 & Hu2 & _)].
  destruct (shr_fexp 53 1024 m1 e1 loc_Exact) as [mrs2 e2].
  cbn [fst snd] in He2, Hl2, Hu2.
  assert (Hpos : (0 < 2 ^ (- e2))%Z) by (apply Z.pow_pos_nonneg; lia).
  destruct (shr_m mrs2) as [|m|m].
  - split; [reflexivity | nia].
  - destruct (Z.leb_spec e2 (1024 - 53)); [|lia].
    split; [reflexivity|]. split; [exact He2 | lia].
  - lia.
Qed.

Lemma new_location_exact (t : Z) : new_location t 0 = loc_Exact.
Proof.
  unfold new_location, new_location_even, new_location_odd.
  destruct (Z.even t); reflexivity.
Qed.

(** The quotient of two positive integers, the first not above the second:
    between 0 and 1, and 1 when they are equal. *)
Lemma SFdiv_within (a t : positive) :
  (a <= t)%positive ->
  match SFdiv 53 1024 (S754_finite false a 0) (S754_finite false t 0) with
  | S754_zero s => s = false /\ a <> t
  | S754_finite s m e =>
      s = false /\ (e <= 0)%Z
      /\ ((if Pos.eqb a t then 1 else 0) * 2 ^ (- e) <= Z.pos m <= 2 ^ (- e))%Z
  | _ => False
  end.
Proof.
  intros Hat. cbn [SFdiv xorb]. unfold SFdiv_core_binary.
  set (e' := Z.min (fexp 53 1024 (Zdigits2 (Z.pos a) + 0 - (Zdigits2 (Z.pos t) + 0)))
               (0 - 0)).
  assert (He' : (e' <= 0)%Z) by (unfold e'; lia).
  set (m' := match (0 - 0 - e')%Z with
             | 0%Z => Z.pos a
             | Z.pos _ => Z.shiftl (Z.pos a) (0 - 0 - e')
             | Z.neg _ => 0%Z
             end).
  assert (Hm' : m' = (Z.pos a * 2 ^ (- e'))%Z).
  { unfold m'. replace (0 - 0 - e')%Z with (- e')%Z by lia.
    destruct (- e')%Z as [|p|p] eqn:Hs; [cbn; lia| |lia].
    rewrite Z.shiftl_mul_pow2 by lia. reflexivity. }
  pose proof (Z_div_mod m' (Z.pos t) ltac:(lia)) as Hdiv.
  destruct (Z.div_eucl m' (Z.pos t)) as [q r]. destruct Hdiv as [Hq Hr].
  assert (Hpow : (0 < 2 ^ (- e'))%Z) by (apply Z.pow_pos_nonneg; lia).
  set (lo := if Pos.eqb a t then 1%Z else 0%Z).
  assert (Hw : within (lo * 2 ^ (- e')) (1 * 2 ^ (- e'))
                 (shr_record_of_loc q (new_location (Z.pos t) r))).
  { assert (Hle : (q <= 2 ^ (- e'))%Z) by nia.
    assert (Hge : (lo * 2 ^ (- e') <= q)%Z).
    { unfold lo. destruct (Pos.eqb_spec a t) as [->|_]; nia. }
    assert (Hlo : (0 <= lo)%Z) by (unfold lo; destruct (Pos.eqb a t); lia).
    unfold within. rewrite shr_record_of_loc_m.
    split; [nia|]. split; [lia|]. intros Heq.
    assert (r = 0%Z) as -> by nia.
    rewrite new_location_exact. split; reflexivity. }
  pose proof (binary_round_aux_within lo 1 q e' (new_location (Z.pos t) r)
                ltac:(unfold lo; destruct (Pos.eqb a t); lia)
                ltac:(reflexivity) He' Hw) as Hround.
  destruct (binary_round_aux 53 1024 false q e' (new_location (Z.pos t) r))
    as [s|s| |s m e]; try contradiction.
  - destruct Hround as [-> Hzero]. split; [reflexivity|].
    unfold lo in Hzero. destruct (Pos.eqb_spec a t); [discriminate | assumption].
  - destruct Hround as (-> & He & Hm). split; [reflexivity|].
    split; [exact He|]. fold lo. lia.
Qed.

Lemma exact_int_pos (n : nat) :
  (0 < n)%nat -> exact_int n = S754_finite false (Pos.of_nat n) 0.
Proof. destruct n; [lia | reflexivity]. Qed.

(** The shape of a rate: never negative, never above 100, and 100 when the
    part is the whole. *)
Lemma float_percentage_shape (part whole : nat) :
  (part <= whole)%nat -> (0 < whole)%nat ->
  match float_percentage part whole with
  | S754_zero s => s = false /\ part <> whole
  | S754_finite s m e =>
      s = false /\ (e <= 0)%Z
      /\ ((if (part =? whole)%nat then 100 else 0) * 2 ^ (- e)
          <= Z.pos m <= 100 * 2 ^ (- e))%Z
  | _ => False
  end.
Proof.
  intros Hle Hpos. unfold float_percentage.
  destruct (Nat.ltb_spec 0 whole) as [_|]; [|lia].
  rewrite (exact_int_pos whole Hpos), (exact_int_pos 100) by lia.
  destruct part as [|part'].
  { cbn. split; [reflexivity | lia]. }
  rewrite (exact_int_pos (S part')) by lia.
  pose proof (SFdiv_within (Pos.of_nat (S part')) (Pos.of_nat whole)
                ltac:(lia)) as Hdiv.
  destruct (SFdiv 53 1024 _ _) as [s|s| |s m e]; try contradiction.
  - destruct Hdiv as [-> Hne]. cbn. split; [reflexivity|]. intros Heq.
    apply Hne. rewrite Heq. reflexivity.
  - destruct Hdiv as (-> & He & Hm). cbn [SFmul xorb].
    set (lo := if (S part' =? whole)%nat then 100%Z else 0%Z).
    assert (Hlo : lo = ((if Pos.eqb (Pos.of_nat (S part')) (Pos.of_nat whole)
                         then 1 else 0) * 100)%Z).
    { unfold lo. destruct (Nat.eqb_spec (S part') whole) as [->|Hne].
      - rewrite Pos.eqb_refl. reflexivity.
      - destruct (Pos.eqb_spec (Pos.of_nat (S part')) (Pos.of_nat whole))
          as [Heq|_]; [|reflexivity].
        apply Nat2Pos.inj in Heq; lia. }
    assert (Hpow : (0 < 2 ^ (- e))%Z) by (apply Z.pow_pos_nonneg; lia).
    assert (Hw : within (lo * 2 ^ (- (e + 0))) (100 * 2 ^ (- (e + 0)))
                   (shr_record_of_loc (Z.pos (m * Pos.of_nat 100)) loc_Exact)).
    { rewrite Z.add_0_r. unfold within; cbn [shr_record_of_loc shr_m shr_r shr_s].
      rewrite Hlo. change (Pos.of_nat 100) with 100%positive.
      rewrite Pos2Z.inj_mul.
      split; [destruct (Pos.eqb _ _); nia|]. split; [nia|].
      intros _. split; reflexivity. }
    pose proof (binary_round_aux_within lo 100 _ (e + 0) loc_Exact
                  ltac:(unfold lo; destruct (_ =? _)%nat; lia)
                  ltac:(reflexivity) ltac:(lia) Hw) as Hround.
    destruct (binary_round_aux 53 1024 false _ (e + 0) loc_Exact)
      as [s|s| |s m2 e2]; try contradiction.
    + destruct Hround as [-> Hzero]. split; [reflexivity|].
      unfold lo in Hzero. destruct (Nat.eqb_spec (S part') whole);
        [discriminate | assumption].
    + exact Hround.
Qed.

Lemma float_value_finite (m : positive) (e : Z) (lo hi : Z) :
  (e <= 0)%Z -> (lo * 2 ^ (- e) <= Z.pos m <= hi * 2 ^ (- e))%Z ->
  (inject_Z lo <= float_value (S754_finite false m e) <= inject_Z hi)%Q.
Proof.
  intros He Hm. cbn [float_value cond_Zopp]. rewrite !Qred_correct.
  destruct (Z.leb_spec 0 e) as [Hge|Hlt].
  - assert (e = 0%Z) as -> by lia. cbn in Hm.
    rewrite Z.pow_0_r, Z.mul_1_r. unfold Qle; cbn. lia.
  - assert (Hpow : (0 < 2 ^ (- e))%Z) by (apply Z.pow_pos_nonneg; lia).
    unfold Qle; cbn [Qnum Qden inject_Z]. rewrite Z2Pos.id by exact Hpow. lia.
Qed.

(** A value in lowest terms that equals an integer is that integer. *)
Lemma Qred_integer (q : Q) (z : Z) : (q == inject_Z z)%Q -> Qred q = inject_Z z.
Proof.
  intros Heq. rewrite (Qred_complete _ _ Heq).
  unfold Qred, inject_Z.
  pose proof (Z.ggcd_gcd z 1) as Hgcd.
  pose proof (Z.ggcd_correct_divisors z 1) as Hdiv.
  destruct (Z.ggcd z 1) as [g [aa bb]]. cbn [fst snd] in *.
  rewrite Z.gcd_1_r in Hgcd. subst g. destruct Hdiv as [Hz Hone].
  rewrite Z.mul_1_l in Hz, Hone. subst aa bb. reflexivity.
Qed.

Lemma float_percentage_bounds (part whole : nat) :
  (part <= whole)%nat ->
  (0 <= float_value (float_percentage part whole) <= 100)%Q.
Proof.
  intros Hle. destruct (Nat.eq_dec whole 0) as [->|Hne].
  { cbn. split; discriminate. }
  pose proof (float_percentage_shape part whole Hle ltac:(lia)) as Hshape.
  destruct (float_percentage part whole) as [s|s| |s m e]; try contradiction.
  - cbn. split; discriminate.
  - destruct Hshape as (-> & He & Hm).
    assert (Hpow : (0 < 2 ^ (- e))%Z) by (apply Z.pow_pos_nonneg; lia).
    apply (float_value_finite m e 0 100 He).
    destruct (_ =? _)%nat; lia.
Qed.

Lemma float_percentage_whole (whole : nat) :
  (0 < whole)%nat -> float_value (float_percentage whole whole) = 100%Q.
Proof.
  intros Hpos.
  pose proof (float_percentage_shape whole whole (Nat.le_refl _) Hpos) as Hshape.
  rewrite Nat.eqb_refl in Hshape.
  destruct (float_percentage whole whole) as [s|s| |s m e]; try contradiction.
  - destruct Hshape as [_ Hne]. contradiction Hne. reflexivity.
  - destruct Hshape as (-> & He & Hm).
    assert (Heq : (float_value (S754_finite false m e) == inject_Z 100)%Q)
      by (apply Qle_antisym; apply (float_value_finite m e 100 100 He Hm)).
    cbn [float_value] in Heq |- *. rewrite Qred_correct in Heq.
    apply (Qred_integer _ 100 Heq).
Qed.

Lemma float_percentage_none (whole : nat) :
  float_percentage 0 whole = S754_zero false.
Proof. destruct whole; reflexivity. Qed.

(** The binary64 number computed for the error rate at line 45 obeys the
    bounds of the exact rate, and is zero for an empty sequence. *)
Lemma error_rate_binary64 (logs : list record) :
  (0 <= float_value (float_percentage (errors logs)
                       (total_conversations logs)) <= 100)%Q
  /\ (total_conversations logs = 0 ->
      float_percentage (errors logs) (total_conversations logs)
      = S754_zero false).
Proof.
  split.
  - apply float_percentage_bounds, errors_le_total.
  - intros ->. reflexivity.
Qed.

(** ** The availability table *)

Lemma list_ascii_append (s t : string) :
  String.list_ascii_of_string (s +:+ t)
  = String.list_ascii_of_string s ++ String.list_ascii_of_string t.
Proof.
  induction s as [|c s IH]; [reflexivity|].
  change (c :: String.list_ascii_of_string (s +:+ t)
          = c :: (String.list_ascii_of_string s
                  ++ String.list_ascii_of_string t)).
  f_equal. exact IH.
Qed.

Lemma append_cancel_r (s s' t : string) : s +:+ t = s' +:+ t -> s = s'.
Proof.
  intros Heq. apply (f_equal String.list_ascii_of_string) in Heq.
  rewrite !list_ascii_append in Heq. apply app_inv_tail in Heq.
  rewrite <- (String.string_of_list_ascii_of_string s),
          <- (String.string_of_list_ascii_of_string s').
  f_equal. exact Heq.
Qed.

Lemma suffixes_differ (s s' : string) : s +:+ "_available" <> s' +:+ "_missing".
Proof.
  intros Heq. apply (f_equal String.list_ascii_of_string) in Heq.
  rewrite !list_ascii_append in Heq.
  apply (f_equal (@last Ascii.ascii)) in Heq.
  change (String.list_ascii_of_string "_available")
    with (String.list_ascii_of_string "_availabl" ++ ["e"%char]) in Heq.
  change (String.list_ascii_of_string "_missing")
    with (String.list_ascii_of_string "_missin" ++ ["g"%char]) in Heq.
  rewrite !app_assoc, !last_snoc in Heq. discriminate.
Qed.

Lemma counter_key_inj (name name' : string) (flag flag' : bool) :
  counter_key name flag = counter_key name' flag' ->
  name = name' /\ flag = flag'.
Proof.
  unfold counter_key. destruct flag, flag'; intros Heq.
  - split; [eapply append_cancel_r; exact Heq | reflexivity].
  - exfalso. exact (suffixes_differ _ _ Heq).
  - exfalso. exact (suffixes_differ _ _ (eq_sym Heq)).
  - split; [eapply append_cancel_r; exact Heq | reflexivity].
Qed.

Lemma counter_get_incr (key key' : string) (counts : gmap string nat) :
  counter_get key (counter_incr key' counts)
  = if decide (key' = key) then S (counter_get key counts)
    else counter_get key counts.
Proof.
  unfold counter_get, counter_incr. rewrite lookup_insert.
  destruct (decide (key' = key)) as [->|]; reflexivity.
Qed.

Lemma tally_item_get (name : string) (flag : bool) (counts : gmap string nat)
    (item : string * pyval) :
  counter_get (counter_key name flag) (tally_item counts item)
  = counter_get (counter_key name flag) counts
    + (if hit name flag item then 1 else 0).
Proof.
  destruct item as [k v]. unfold tally_item, hit; simpl.
  change (k +:+ "_available") with (counter_key k true).
  change (k +:+ "_missing") with (counter_key k false).
  destruct (truthy v) eqn:Hv; rewrite counter_get_incr;
    (destruct (decide _) as [Hkey|Hkey];
     [apply counter_key_inj in Hkey as [-> <-];
      rewrite String.eqb_refl; simpl; lia
     |destruct (String.eqb_spec k name) as [->|Hne]; simpl; [|lia];
      destruct flag; simpl; try lia; contradiction Hkey; reflexivity]).
Qed.

Lemma tally_items_get (name : string) (flag : bool)
    (items : list (string * pyval)) (counts : gmap string nat) :
  counter_get (counter_key name flag) (foldl tally_item counts items)
  = counter_get (counter_key name flag) counts
    + length (List.filter (hit name flag) items).
Proof.
  revert counts. induction items as [|item items IH]; intros counts; simpl.
  - lia.
  - rewrite IH, tally_item_get.
    destruct (hit name flag item); simpl; lia.
Qed.

Lemma first_occurrences_In (k : string) (ks : list string) :
  In k (first_occurrences ks) <-> In k ks.
Proof.
  induction ks as [|k' ks IH]; simpl; [reflexivity|].
  rewrite filter_In, IH.
  destruct (String.eqb_spec k k') as [->|Hne]; simpl.
  - split; intros _; left; reflexivity.
  - split.
    + intros [Heq|[Hin _]]; [left; exact Heq | right; exact Hin].
    + intros [Heq|Hin]; [left; exact Heq | right; split; [exact Hin|reflexivity]].
Qed.

Lemma first_occurrences_NoDup (ks : list string) :
  List.NoDup (first_occurrences ks).
Proof.
  induction ks as [|k ks IH]; simpl; constructor.
  - rewrite filter_In. intros [_ Hne].
    rewrite String.eqb_refl in Hne. discriminate.
  - apply List.NoDup_filter, IH.
Qed.

Lemma dict_get_In (k : string) (d : record) :
  In k (map fst d) <-> dict_get k d <> None.
Proof.
  induction d as [|[k' v] d IH]; simpl.
  - split; [contradiction | intros Hne; apply Hne; reflexivity].
  - destruct (String.eqb_spec k k') as [->|Hne].
    + split; [discriminate | intros _; left; reflexivity].
    + rewrite <- IH. split.
      * intros [Heq|Hin]; [congruence | exact Hin].
      * intros Hin. right. exact Hin.
Qed.

(** Among the items of keys that occur once, at most one carries [name]. *)
Lemma hits_of_keys (name : string) (flag : bool) (value : string -> pyval)
    (keys : list string) :
  List.NoDup keys ->
  length (List.filter (hit name flag) (map (fun k => (k, value k)) keys))
  = if existsb (String.eqb name) keys && Bool.eqb (truthy (value name)) flag
    then 1 else 0.
Proof.
  induction keys as [|k keys IH]; intros Hnodup; [reflexivity|].
  apply List.NoDup_cons_iff in Hnodup as [Hfresh Hnodup].
  specialize (IH Hnodup). simpl. unfold hit at 1; simpl.
  rewrite (String.eqb_sym name k).
  destruct (String.eqb_spec k name) as [->|Hne]; simpl.
  - assert (Hno : existsb (String.eqb name) keys = false).
    { destruct (existsb (String.eqb name) keys) eqn:Hex; [|reflexivity].
      apply existsb_exists in Hex as [k' [Hin Heq]].
      apply String.eqb_eq in Heq as <-. contradiction. }
    rewrite Hno in IH; simpl in IH.
    destruct (Bool.eqb (truthy (value name)) flag); simpl; rewrite IH;
      reflexivity.
  - exact IH.
Qed.

Lemma hits_of_items (name : string) (flag : bool) (d : record) :
  length (List.filter (hit name flag) (dict_items d))
  = match dict_get name d with
    | Some v => if Bool.eqb (truthy v) flag then 1 else 0
    | None => 0
    end.
Proof.
  unfold dict_items.
  rewrite hits_of_keys by apply first_occurrences_NoDup.
  unfold get_or. destruct (dict_get name d) as [v|] eqn:Hget.
  - assert (Hex : existsb (String.eqb name) (dict_keys d) = true).
    { apply existsb_exists. exists name. split; [|apply String.eqb_refl].
      apply first_occurrences_In, dict_get_In. congruence. }
    rewrite Hex. reflexivity.
  - assert (Hex : existsb (String.eqb name) (dict_keys d) = false).
    { destruct (existsb _ _) eqn:Hex; [|reflexivity].
      apply existsb_exists in Hex as [k' [Hin Heq]].
      apply String.eqb_eq in Heq as <-.
      apply first_occurrences_In, dict_get_In in Hin. contradiction. }
    rewrite Hex. reflexivity.
Qed.

Lemma tally_log_get (name : string) (flag : bool) (counts : gmap string nat)
    (log : record) :
  availability_ok log = true ->
  exists counts',
    tally_log counts log = Ok counts'
    /\ counter_get (counter_key name flag) counts'
       = counter_get (counter_key name flag) counts
         + (if marks name flag log then 1 else 0).
Proof.
  unfold availability_ok, tally_log, marks.
  destruct (get_or "data_availability" PNone log) as [| | | | | |d] eqn:Hda;
    intros Hok;
    try (apply negb_true_iff in Hok; rewrite Hok;
         exists counts; split; [reflexivity | lia]).
  destruct (truthy (PDict d)) eqn:Htruthy.
  - eexists. split; [reflexivity|].
    rewrite tally_items_get, hits_of_items.
    destruct (dict_get name d); [destruct (Bool.eqb _ _)|]; reflexivity.
  - exists counts. split; [reflexivity|].
    destruct d; [simpl; lia | discriminate].
Qed.

Lemma tally_from_get (name : string) (flag : bool) (logs : list record)
    (counts : gmap string nat) :
  forallb availability_ok logs = true ->
  exists counts',
    tally_from counts logs = Ok counts'
    /\ counter_get (counter_key name flag) counts'
       = counter_get (counter_key name flag) counts + marked name flag logs.
Proof.
  revert counts. induction logs as [|log logs IH]; intros counts Hok.
  - exists counts. split; [reflexivity | unfold marked; simpl; lia].
  - simpl in Hok. apply andb_true_iff in Hok as [Hlog Hlogs].
    destruct (tally_log_get name flag counts log Hlog) as [c1 [Hc1 Hget1]].
    destruct (IH c1 Hlogs) as [c2 [Hc2 Hget2]].
    exists c2. split.
    + simpl. rewrite Hc1. exact Hc2.
    + rewrite Hget2, Hget1. unfold marked; simpl.
      destruct (marks name flag log); simpl; lia.
Qed.

Lemma marks_absent (name : string) (flag : bool) (log : record) :
  (forall d, get_or "data_availability" PNone log = PDict d ->
             dict_get name d = None) ->
  marks name flag log = false.
Proof.
  intros Habsent. unfold marks.
  destruct (get_or "data_availability" PNone log) as [| | | | | |d];
    try reflexivity.
  rewrite (Habsent d eq_refl). reflexivity.
Qed.

Lemma availability_line_cases (counts : gmap string nat) (name : string)
    (a m : nat) :
  counter_get (counter_key name true) counts = a ->
  counter_get (counter_key name false) counts = m ->
  availability_line counts name
  = if (0 <? a + m)%nat
    then [Availability name a (a + m) (availability_rate a (a + m))]
    else [].
Proof.
  intros Ha Hm. unfold availability_line.
  change (name +:+ "_available") with (counter_key name true).
  change (name +:+ "_missing") with (counter_key name false).
  rewrite Ha, Hm. reflexivity.
Qed.

(** What the counters hold after the loop, and the line of each source. *)
Lemma counted_lines (logs : list record) :
  forallb availability_ok logs = true ->
  exists counts,
    data_availability_counts logs = Ok counts
    /\ forall name,
         availability_line counts name
         = if (0 <? marked name true logs + marked name false logs)%nat
           then [Availability name (marked name true logs)
                   (marked name true logs + marked name false logs)
                   (availability_rate (marked name true logs)
                      (marked name true logs + marked name false logs))]
           else [].
Proof.
  intros Hok. unfold data_availability_counts.
  destruct (tally_from_get "" true logs ∅ Hok) as [counts [Hcounts _]].
  exists counts. split; [exact Hcounts|].
  intros name. apply availability_line_cases.
  - destruct (tally_from_get name true logs ∅ Hok) as [c [Hc Hget]].
    rewrite Hcounts in Hc. injection Hc as <-. exact Hget.
  - destruct (tally_from_get name false logs ∅ Hok) as [c [Hc Hget]].
    rewrite Hcounts in Hc. injection Hc as <-. exact Hget.
Qed.

(** C6, as the code has it.  When every [data_availability] value is a
    mapping (or false), the counting loop ends normally and the report
    holds, in this order, the lines of the seven sources [metadata_cache],
    [order_data], [asin_report], [brand_report], [gm_report],
    [underper_report] and [brand_map].  For every source name, with [a]
    the number of records marking it available and [m] the number marking
    it missing: the source has no line when [a + m = 0]; otherwise its one
    line shows [a] out of [a + m], and its rate is the binary64 number
    obtained by dividing [a] by [a + m] and multiplying by [100], each
    operation rounding to nearest; it is given by its exact value, lies
    between 0 and 100, is 100 when [m = 0] and is 0 when [a = 0].  A record whose mapping does not
    mention the source adds to neither count. *)
Theorem availability_table (logs : list record) :
  forallb availability_ok logs = true ->
  exists counts,
    data_availability_counts logs = Ok counts
    /\ availability_report counts
       = concat (map (availability_line counts)
                   ["metadata_cache"; "order_data"; "asin_report";
                    "brand_report"; "gm_report"; "underper_report";
                    "brand_map"])
    /\ (forall name,
          let a := marked name true logs in
          let m := marked name false logs in
          let rate :=
            SFmul 53 1024 (SFdiv 53 1024 (exact_int a) (exact_int (a + m)))
              (exact_int 100) in
          (a + m = 0 -> availability_line counts name = [])
          /\ (0 < a + m ->
                availability_line counts name
                = [Availability name a (a + m) (float_value rate)]
                /\ (0 <= float_value rate <= 100)%Q
                /\ (m = 0 -> float_value rate = 100%Q)
                /\ (a = 0 -> rate = S754_zero false)))
    /\ (forall l, l ∈ availability_report counts <->
          exists name,
            name ∈ ["metadata_cache"; "order_data"; "asin_report";
                    "brand_report"; "gm_report"; "underper_report";
                    "brand_map"]
            /\ 0 < marked name true logs + marked name false logs
            /\ l = Availability name (marked name true logs)
                     (marked name true logs + marked name false logs)
                     (availability_rate (marked name true logs)
                        (marked name true logs + marked name false logs)))
    /\ (forall name flag log,
          (forall d, get_or "data_availability" PNone log = PDict d ->
                     dict_get name d = None) ->
          marks name flag log = false).
Proof.
  intros Hok. destruct (counted_lines logs Hok) as [counts [Hcounts Hline]].
  exists counts. split; [exact Hcounts|]. split; [reflexivity|].
  split; [|split].
  - intros name. cbv zeta. rewrite Hline. split.
    + intros Hzero. rewrite Hzero. reflexivity.
    + intros Hpos.
      destruct (Nat.ltb_spec 0 (marked name true logs + marked name false logs))
        as [_|Hle]; [|lia].
      assert (Hrate : float_percentage (marked name true logs)
                        (marked name true logs + marked name false logs)
                      = SFmul 53 1024
                          (SFdiv 53 1024 (exact_int (marked name true logs))
                             (exact_int (marked name true logs
                                         + marked name false logs)))
                          (exact_int 100)).
      { unfold float_percentage.
        destruct (Nat.ltb_spec 0 (marked name true logs
                                  + marked name false logs));
          [reflexivity | lia]. }
      rewrite <- Hrate. split; [reflexivity|]. split; [|split].
      * apply float_percentage_bounds. lia.
      * intros Hm. rewrite Hm, Nat.add_0_r in Hpos |- *.
        apply float_percentage_whole, Hpos.
      * intros Ha. rewrite Ha. apply float_percentage_none.
  - intros l. unfold availability_report.
    change data_sources
      with ["metadata_cache"; "order_data"; "asin_report"; "brand_report";
            "gm_report"; "underper_report"; "brand_map"].
    rewrite list_elem_of_In, in_concat. split.
    + intros [ls [Hls Hl]]. apply in_map_iff in Hls as [name [<- Hname]].
      rewrite Hline in Hl. exists name.
      split; [apply list_elem_of_In; exact Hname|].
      destruct (Nat.ltb_spec 0 (marked name true logs + marked name false logs))
        as [Hpos|Hzero]; [|contradiction].
      split; [exact Hpos|]. destruct Hl as [<-|[]]. reflexivity.
    + intros [name [Hname [Hpos ->]]].
      exists (availability_line counts name). split.
      * apply in_map. apply list_elem_of_In. exact Hname.
      * rewrite Hline.
        destruct (Nat.ltb_spec 0 (marked name true logs + marked name false logs));
          [|lia].
        left. reflexivity.
  - apply marks_absent.
Qed.

Lemma availability_table_witness :
  exists counts,
    data_availability_counts [Examples.with_orders; Examples.bare] = Ok counts
    /\ availability_report counts
       = [Availability "order_data" 1 1 100; Availability "gm_report" 0 1 0].
Proof.
  destruct (availability_table [Examples.with_orders; Examples.bare] eq_refl)
    as [counts [Hcounts [Hreport [Hline _]]]].
  exists counts. split; [exact Hcounts|]. rewrite Hreport. cbn [map concat].
  rewrite (proj1 (Hline "metadata_cache") eq_refl).
  rewrite (proj1 (proj2 (Hline "order_data") (Nat.lt_0_succ 0))).
  rewrite (proj1 (Hline "asin_report") eq_refl).
  rewrite (proj1 (Hline "brand_report") eq_refl).
  rewrite (proj1 (proj2 (Hline "gm_report") (Nat.lt_0_succ 0))).
  rewrite (proj1 (Hline "underper_report") eq_refl).
  rewrite (proj1 (Hline "brand_map") eq_refl).
  reflexivity.
Defined.

(** C6 as stated fails: with seven records of a hundred marking a source
    available, the rate of its line is the binary64 number
    [7881299347898369 / 2^50], which the program shows as 7.0 but which is
    not [7 / 100 * 100]. *)
Lemma rate_not_exact :
  marked "order_data" true Examples.seven_in_hundred = 7
  /\ marked "order_data" false Examples.seven_in_hundred = 93
  /\ availability_report
       (res_value ∅ (data_availability_counts Examples.seven_in_hundred))
     = [Availability "order_data" 7 100 (7881299347898369 # 2 ^ 50)]
  /\ float_percentage 7 100 = S754_finite false 7881299347898369 (-50)
  /\ ~ (7881299347898369 # 2 ^ 50 == Qnat 7 / Qnat 100 * 100)%Q.
Proof.
  split; [reflexivity|]. split; [reflexivity|].
  split; [vm_compute; reflexivity|]. split; [vm_compute; reflexivity|].
  intros Heq. vm_compute in Heq. discriminate Heq.
Qed.

(** ** Distinct sessions *)

Lemma nv_eqb_refl (x : numval) : nv_eqb x x = true.
Proof.
  destruct x as [n e|s|]; simpl; [apply Z.eqb_refl | |reflexivity].
  destruct s; reflexivity.
Qed.

Lemma nv_eqb_sym (x y : numval) : nv_eqb x y = nv_eqb y x.
Proof.
  destruct x as [n1 e1|s1|], y as [n2 e2|s2|]; simpl; try reflexivity.
  - rewrite (Z.min_comm e2 e1). apply Z.eqb_sym.
  - destruct s1, s2; reflexivity.
Qed.

Lemma py_eq_refl (v : pyval) : hashable v = true -> py_eq v v = true.
Proof.
  destruct v as [|b|z|f|s|l|d]; simpl; intros Hh; try discriminate;
    try reflexivity; try apply Z.eqb_refl.
  - destruct f as [s|s| |s m e]; simpl; try reflexivity.
    + destruct s; reflexivity.
    + apply Z.eqb_refl.
  - apply String.eqb_refl.
Qed.

Lemma py_eq_sym (x y : pyval) : py_eq x y = py_eq y x.
Proof.
  unfold py_eq.
  destruct x as [|b1|z1|f1|s1|l1|d1], y as [|b2|z2|f2|s2|l2|d2];
    try reflexivity; try apply String.eqb_sym;
    try (destruct (num_of _), (num_of _); try reflexivity; apply nv_eqb_sym).
Qed.

Lemma session_set_collect (logs : list record) (s : list pyval) :
  forallb (fun log => hashable (session_key log)) logs = true ->
  session_set s (map PDict logs) = Ok (collect s (map session_key logs)).
Proof.
  revert s. induction logs as [|log logs IH]; intros s Hh; [reflexivity|].
  simpl in Hh. apply andb_true_iff in Hh as [Hlog Hlogs].
  simpl. unfold set_add. fold (session_key log). rewrite Hlog. simpl.
  apply IH, Hlogs.
Qed.

Lemma collect_length (vs s : list pyval) :
  length (collect s vs) <= length s + length vs.
Proof.
  revert s. induction vs as [|v vs IH]; intros s; simpl; [lia|].
  etransitivity; [apply IH|].
  destruct (existsb (py_eq v) s); rewrite ?length_app; simpl; lia.
Qed.

Lemma collect_keeps (vs s : list pyval) (r : pyval) :
  r ∈ s -> r ∈ collect s vs.
Proof.
  revert s. induction vs as [|v vs IH]; intros s Hr; simpl; [exact Hr|].
  apply IH. destruct (existsb (py_eq v) s); [exact Hr|].
  apply elem_of_app. left. exact Hr.
Qed.

Lemma collect_covers (vs s : list pyval) (v : pyval) :
  forallb hashable vs = true ->
  v ∈ vs -> exists r, r ∈ collect s vs /\ py_eq v r = true.
Proof.
  revert s. induction vs as [|v' vs IH]; intros s Hh Hv.
  - apply not_elem_of_nil in Hv. contradiction.
  - simpl in Hh. apply andb_true_iff in Hh as [Hv' Hvs].
    apply elem_of_cons in Hv as [->|Hv]; [|apply IH; assumption]. simpl.
    destruct (existsb (py_eq v') s) eqn:Hex.
    + apply existsb_exists in Hex as [r [Hr Heq]]. exists r.
      split; [|exact Heq]. apply collect_keeps, list_elem_of_In, Hr.
    + exists v'. split; [|apply py_eq_refl, Hv'].
      apply collect_keeps, elem_of_app. right.
      apply list_elem_of_singleton. reflexivity.
Qed.

Lemma collect_from (vs s : list pyval) (r : pyval) :
  r ∈ collect s vs -> r ∈ s \/ r ∈ vs.
Proof.
  revert s. induction vs as [|v vs IH]; intros s Hr; simpl in Hr.
  - left. exact Hr.
  - destruct (IH _ Hr) as [Hs|Hvs].
    + destruct (existsb (py_eq v) s); [left; exact Hs|].
      apply elem_of_app in Hs as [Hs|Hv]; [left; exact Hs|].
      apply list_elem_of_singleton in Hv as ->. right. left.
    + right. right. exact Hvs.
Qed.

Lemma pairwise_distinct_snoc (s : list pyval) (v : pyval) :
  pairwise_distinct s -> existsb (py_eq v) s = false ->
  pairwise_distinct (s ++ [v]).
Proof.
  intros Hs Hv i j x y Hij Hx Hy.
  destruct (Nat.lt_ge_cases j (length s)) as [Hj|Hj].
  - rewrite lookup_app_l in Hx by lia. rewrite lookup_app_l in Hy by lia.
    exact (Hs i j x y Hij Hx Hy).
  - apply lookup_lt_Some in Hy as Hbound.
    rewrite length_app in Hbound; simpl in Hbound.
    assert (j = length s) as -> by lia.
    rewrite lookup_app_l in Hx by lia.
    rewrite lookup_app_r, Nat.sub_diag in Hy by lia. injection Hy as <-.
    destruct (py_eq v x) eqn:Heq; [|reflexivity].
    assert (Hex : existsb (py_eq v) s = true).
    { apply existsb_exists. exists x. split; [|exact Heq].
      apply list_elem_of_In. eapply list_elem_of_lookup_2. exact Hx. }
    congruence.
Qed.

Lemma collect_distinct (vs s : list pyval) :
  pairwise_distinct s -> pairwise_distinct (collect s vs).
Proof.
  revert s. induction vs as [|v vs IH]; intros s Hs; simpl; [exact Hs|].
  apply IH. destruct (existsb (py_eq v) s) eqn:Hex; [exact Hs|].
  apply pairwise_distinct_snoc; assumption.
Qed.

Lemma nv_fin_shift (n1 e1 n2 e2 m : Z) :
  (m <= e1)%Z -> (m <= e2)%Z ->
  (n1 * 2 ^ (e1 - Z.min e1 e2) =? n2 * 2 ^ (e2 - Z.min e1 e2))%Z
  = (n1 * 2 ^ (e1 - m) =? n2 * 2 ^ (e2 - m))%Z.
Proof.
  intros H1 H2.
  set (e := Z.min e1 e2).
  assert (He : (m <= e)%Z) by (unfold e; lia).
  replace (e1 - m)%Z with ((e1 - e) + (e - m))%Z by lia.
  replace (e2 - m)%Z with ((e2 - e) + (e - m))%Z by lia.
  rewrite !Z.pow_add_r by (unfold e; lia).
  assert (Hpos : (0 < 2 ^ (e - m))%Z) by (apply Z.pow_pos_nonneg; lia).
  destruct (Z.eqb_spec (n1 * 2 ^ (e1 - e)) (n2 * 2 ^ (e2 - e))) as [Heq|Hne].
  - symmetry. apply Z.eqb_eq. rewrite !Z.mul_assoc, Heq. reflexivity.
  - symmetry. apply Z.eqb_neq. intros Heq. apply Hne.
    rewrite !Z.mul_assoc in Heq. apply Z.mul_cancel_r in Heq; [exact Heq | lia].
Qed.

Lemma nv_eqb_trans (x y z : numval) :
  nv_eqb x y = true -> nv_eqb y z = true -> nv_eqb x z = true.
Proof.
  destruct x as [n1 e1|s1|], y as [n2 e2|s2|], z as [n3 e3|s3|];
    simpl; try discriminate; try reflexivity.
  - set (m := Z.min e1 (Z.min e2 e3)).
    rewrite (nv_fin_shift n1 e1 n2 e2 m), (nv_fin_shift n2 e2 n3 e3 m),
            (nv_fin_shift n1 e1 n3 e3 m) by (unfold m; lia).
    rewrite !Z.eqb_eq. congruence.
  - destruct s1, s2, s3; simpl; congruence.
Qed.

Lemma py_eq_numeric (x y : pyval) (a b : numval) :
  num_of x = Some a -> num_of y = Some b -> py_eq x y = nv_eqb a b.
Proof.
  intros Ha Hb. unfold py_eq. rewrite Ha, Hb.
  destruct x; try discriminate Ha; destruct y; try discriminate Hb; reflexivity.
Qed.

Lemma py_eq_cases (x y : pyval) :
  py_eq x y = true ->
  (x = PNone /\ y = PNone)
  \/ (exists s, x = PStr s /\ y = PStr s)
  \/ (exists a b, num_of x = Some a /\ num_of y = Some b /\ nv_eqb a b = true).
Proof.
  unfold py_eq. intros Heq.
  destruct (num_of x) as [a|] eqn:Ha, (num_of y) as [b|] eqn:Hb.
  - right. right. exists a, b. repeat split.
    destruct x; try discriminate Ha; destruct y; try discriminate Hb; exact Heq.
  - destruct x; try discriminate Ha; destruct y; try discriminate Heq;
      discriminate Hb.
  - destruct y; try discriminate Hb; destruct x; try discriminate Heq;
      discriminate Ha.
  - destruct x; try discriminate Heq; destruct y; try discriminate Heq.
    + left. split; reflexivity.
    + right. left. apply String.eqb_eq in Heq as ->. eexists. split; reflexivity.
Qed.

Lemma py_eq_trans (x y z : pyval) :
  py_eq x y = true -> py_eq y z = true -> py_eq x z = true.
Proof.
  intros Hxy Hyz.
  destruct (py_eq_cases x y Hxy) as [[-> ->]|[[s [-> ->]]|[a [b [Ha [Hb Hab]]]]]];
    [exact Hyz | exact Hyz |].
  destruct (py_eq_cases y z Hyz) as [[-> ->]|[[s [-> ->]]|[b' [c [Hb' [Hc Hbc]]]]]];
    try discriminate Hb.
  rewrite Hb in Hb'. injection Hb' as <-.
  rewrite (py_eq_numeric x z a c Ha Hc). eapply nv_eqb_trans; eassumption.
Qed.

Lemma pairwise_distinct_cons (r : pyval) (l : list pyval) :
  pairwise_distinct (r :: l) ->
  (forall x, x ∈ l -> py_eq x r = false) /\ pairwise_distinct l.
Proof.
  intros Hd. split.
  - intros x Hx. apply list_elem_of_lookup in Hx as [j Hj].
    apply (Hd 0 (S j) r x); [lia | reflexivity | exact Hj].
  - intros i j x y Hij Hx Hy.
    apply (Hd (S i) (S j) x y); [lia | exact Hx | exact Hy].
Qed.

(** Pairwise distinct values that all have an equal partner in [l'] are
    no more than the members of [l']. *)
Lemma distinct_fit (l l' : list pyval) :
  pairwise_distinct l ->
  (forall r, r ∈ l -> exists r', r' ∈ l' /\ py_eq r r' = true) ->
  length l <= length l'.
Proof.
  revert l'. induction l as [|r l IH]; intros l' Hd Hpartner; [simpl; lia|].
  apply pairwise_distinct_cons in Hd as [Hhead Htail].
  destruct (Hpartner r) as [r' [Hr' Hrr']]; [left|].
  apply list_elem_of_split in Hr' as [before [after ->]].
  rewrite length_app; simpl.
  assert (Hfit : length l <= length (before ++ after)).
  { apply IH; [exact Htail|]. intros x Hx.
    destruct (Hpartner x) as [x' [Hx' Hxx']]; [right; exact Hx|].
    exists x'. split; [|exact Hxx'].
    apply elem_of_app in Hx' as [Hx'|Hx']; [apply elem_of_app; left; exact Hx'|].
    apply elem_of_cons in Hx' as [->|Hx']; [|apply elem_of_app; right; exact Hx'].
    exfalso. specialize (Hhead x Hx).
    rewrite py_eq_sym in Hrr'.
    rewrite (py_eq_trans x r' r Hxx' Hrr') in Hhead. discriminate. }
  rewrite length_app in Hfit. lia.
Qed.

Lemma representatives_length (vs reps reps' : list pyval) :
  representatives vs reps -> representatives vs reps' ->
  length reps = length reps'.
Proof.
  intros (Hcover & Hfrom & Hd) (Hcover' & Hfrom' & Hd').
  apply Nat.le_antisymm; apply distinct_fit; auto.
Qed.

(** C7.  When every session id hashes, [unique_sessions] is the number of
    distinct keys, where the key of a record is its [session_id], and the
    one value [None] for every record that has none: it is the length of a
    list that names the distinct keys, every such list has that length,
    and it is at most [total]. *)
Theorem unique_sessions_distinct (logs : list record) :
  forallb (fun log => hashable (session_key log)) logs = true ->
  exists reps,
    unique_sessions (map PDict logs) = Ok (length reps)
    /\ representatives (map session_key logs) reps
    /\ (forall reps', representatives (map session_key logs) reps' ->
          length reps' = length reps)
    /\ length reps <= total_conversations logs
    /\ (forall log, dict_get "session_id" log = None ->
          session_key log = PNone).
Proof.
  intros Hh. exists (collect [] (map session_key logs)).
  assert (Hreps : representatives (map session_key logs)
                    (collect [] (map session_key logs))).
  { split; [|split].
    - intros v Hv. apply collect_covers; [|exact Hv].
      rewrite forallb_forall in Hh |- *. intros k Hk.
      apply in_map_iff in Hk as [log [<- Hlog]]. apply Hh, Hlog.
    - intros r Hr. apply collect_from in Hr as [Hr|Hr]; [|exact Hr].
      apply not_elem_of_nil in Hr. contradiction.
    - apply collect_distinct. intros i j x y _ Hx.
      rewrite lookup_nil in Hx. discriminate. }
  split.
  { unfold unique_sessions. rewrite (session_set_collect logs [] Hh).
    reflexivity. }
  split; [exact Hreps|]. split.
  { intros reps' Hreps'. apply (representatives_length _ _ _ Hreps' Hreps). }
  split.
  { etransitivity; [apply collect_length|].
    rewrite length_map. unfold total_conversations. simpl. lia. }
  intros log Habsent. unfold session_key, get_or. rewrite Habsent.
  reflexivity.
Qed.

Lemma unique_sessions_distinct_witness :
  exists reps : list pyval,
    unique_sessions (map PDict [Examples.bare; []; Examples.with_orders; []])
    = Ok (length reps)
    /\ length reps <= 4.
Proof.
  destruct (unique_sessions_distinct
              [Examples.bare; []; Examples.with_orders; []] eq_refl)
    as [reps [Hcount [_ [_ [Hle _]]]]].
  exists reps. split; [exact Hcount | exact Hle].
Defined.

(** Two records without a session id count once, together. *)
Example shared_missing_session :
  unique_sessions (map PDict [Examples.bare; []; Examples.with_orders; []])
  = Ok 3.
Proof. reflexivity. Qed.

(** ** The export *)

Section Exporting.
Context `{PyLib}.

Lemma first_occurrences_nil (ks : list string) :
  first_occurrences ks = [] <-> ks = [].
Proof. destruct ks; simpl; split; intros Heq; congruence. Qed.

Lemma columns_nil (logs : list record) :
  columns (DataFrame logs) = [] <-> no_fields logs = true.
Proof.
  unfold DataFrame, no_fields; simpl. rewrite first_occurrences_nil.
  induction logs as [|log logs IH]; simpl; [split; reflexivity|].
  rewrite andb_true_iff, <- IH. split.
  - intros Happ. apply app_eq_nil in Happ as [Hlog Hlogs].
    apply first_occurrences_nil in Hlog.
    destruct log; [split; [reflexivity | exact Hlogs] | discriminate].
  - intros [Hlog Hlogs]. destruct log; [|discriminate].
    simpl. exact Hlogs.
Qed.

Lemma frame_rows_length (logs : list record) :
  length (rows (DataFrame logs)) = length logs.
Proof. cbn [rows DataFrame]. rewrite length_map, length_seq. reflexivity. Qed.

Lemma frame_empty_spec (logs : list record) :
  logs <> [] -> frame_empty (DataFrame logs) = no_fields logs.
Proof.
  intros Hne. unfold frame_empty.
  assert (Hrows : (length (rows (DataFrame logs)) =? 0)%nat = false).
  { rewrite frame_rows_length. destruct logs; [contradiction | reflexivity]. }
  rewrite Hrows. cbn [orb].
  destruct (no_fields logs) eqn:Hnf.
  - apply columns_nil in Hnf. rewrite Hnf. reflexivity.
  - destruct (columns (DataFrame logs)) eqn:Hcols; [|reflexivity].
    apply columns_nil in Hcols. congruence.
Qed.

Lemma export_frame_columns (df : frame) :
  columns (export_frame df) = columns df.
Proof. unfold export_frame. destruct (existsb _ _); reflexivity. Qed.

Lemma export_frame_rows (df : frame) :
  length (rows (export_frame df)) = length (rows df).
Proof.
  unfold export_frame. destruct (existsb _ _); [|reflexivity].
  simpl. apply length_map.
Qed.

(** The export block, case by case. *)
Lemma export_run (now : datetime) (logs : list record) (w : world) :
  export now logs w
  = match frame_error logs with
    | Some e => (w, Raise e)
    | None =>
        if frame_empty (DataFrame logs)
        then (printed w [NoDataToExport], Ok tt)
        else
          match csv_error (export_frame (DataFrame logs)) with
          | None =>
              ({| console := console w
                    ++ [Exported (csv_name now); FrameInfo;
                        FrameShape
                          (length (rows (export_frame (DataFrame logs))))
                          (length (columns (export_frame (DataFrame logs))));
                        FrameColumns (columns (export_frame (DataFrame logs)))];
                  files := files w
                    ++ [(csv_name now, Table (export_frame (DataFrame logs)))] |},
               Ok tt)
          | Some e =>
              ({| console := console w;
                  files := files w ++ [(csv_name now, Incomplete)] |},
               Raise e)
          end
    end.
Proof.
  unfold export. destruct (frame_error logs) as [e|]; [reflexivity|].
  unfold mbind at 1, prog_bind at 1, eval at 1.
  destruct (frame_empty (DataFrame logs)); [reflexivity|].
  cbn [negb]. unfold mbind at 1, prog_bind at 1, to_csv.
  fold (csv_name now).
  destruct (csv_error (export_frame (DataFrame logs))); [reflexivity|].
  unfold mbind, prog_bind, print; cbn [console files].
  rewrite <- !app_assoc. reflexivity.
Qed.

(** C3, as the code has it.  With at least one record loaded, a run that
    reaches the export block and whose frame is built prints "no data to
    export" and writes nothing exactly when no record has any field (the
    frame then has rows and no column); otherwise it writes the table under
    the name made from the clock reading and prints that name, the shape
    and the columns, unless the writing fails, in which case the exception
    ends the run, the file is left incomplete and nothing more is printed.
    A frame that cannot be built ends the run before anything is printed
    or written by the block. *)
Theorem export_cases (now : datetime) (logs : list record) (w : world) :
  logs <> [] ->
  (forall e, frame_error logs = Some e -> export now logs w = (w, Raise e))
  /\ (frame_error logs = None ->
      (no_fields logs = true ->
         export now logs w = (printed w [NoDataToExport], Ok tt))
      /\ (no_fields logs = false ->
            (csv_error (export_frame (DataFrame logs)) = None ->
               export now logs w
               = ({| console := console w
                       ++ [Exported (csv_name now); FrameInfo;
                           FrameShape (length logs)
                             (length (columns (DataFrame logs)));
                           FrameColumns (columns (DataFrame logs))];
                     files := files w
                       ++ [(csv_name now,
                            Table (export_frame (DataFrame logs)))] |},
                  Ok tt))
            /\ (forall e,
                  csv_error (export_frame (DataFrame logs)) = Some e ->
                  export now logs w
                  = ({| console := console w;
                        files := files w ++ [(csv_name now, Incomplete)] |},
                     Raise e)))).
Proof.
  intros Hne. rewrite export_run, (frame_empty_spec logs Hne). split.
  - intros e ->. reflexivity.
  - intros ->. split.
    + intros ->. reflexivity.
    + intros ->. split.
      * intros ->.
        rewrite export_frame_columns, export_frame_rows, frame_rows_length.
        reflexivity.
      * intros e ->. reflexivity.
Qed.

(** ** The cells of the table *)

Lemma find_stringified (f : cell -> cell) (column : string)
    (value : string -> cell) (cols : list string) :
  In column cols ->
  List.find (fun nx : string * cell => String.eqb nx.1 column)
    (zip cols
       (zip_with (fun name x => if String.eqb name column then f x else x)
          cols (map value cols)))
  = Some (column, f (value column)).
Proof.
  induction cols as [|c cols IH]; intros Hin; [contradiction|].
  simpl. destruct (String.eqb_spec c column) as [->|Hne]; [reflexivity|].
  destruct Hin as [Heq|Hin]; [contradiction|]. apply IH, Hin.
Qed.

Lemma find_column (column : string) (value : string -> cell)
    (cols : list string) :
  In column cols ->
  List.find (fun nx : string * cell => String.eqb nx.1 column)
    (zip cols (map value cols))
  = Some (column, value column).
Proof.
  induction cols as [|c cols IH]; intros Hin; [contradiction|].
  simpl. destruct (String.eqb_spec c column) as [->|Hne]; [reflexivity|].
  destruct Hin as [Heq|Hin]; [contradiction|]. apply IH, Hin.
Qed.

Lemma column_present (logs : list record) (log : record) (column : string) :
  log ∈ logs -> dict_get column log <> None ->
  In column (columns (DataFrame logs)).
Proof.
  intros Hlog Hget. simpl. apply first_occurrences_In, in_concat.
  exists (dict_keys log). split.
  - apply in_map, list_elem_of_In, Hlog.
  - apply first_occurrences_In, dict_get_In, Hget.
Qed.

Lemma frame_row (logs : list record) (i : nat) :
  i < length logs ->
  rows (DataFrame logs) !! i
  = Some (map (fun column => default NaN (frame_column logs column !! i))
            (columns (DataFrame logs))).
Proof.
  intros Hi. cbn [rows columns DataFrame].
  rewrite list_lookup_fmap, lookup_seq_lt by exact Hi. reflexivity.
Qed.

(** A cell of the frame is the cell the library stored in its column. *)
Lemma frame_cell_at (logs : list record) (i : nat) (column : string) :
  i < length logs -> In column (columns (DataFrame logs)) ->
  exists x,
    frame_column logs column !! i = Some x
    /\ cell_at (DataFrame logs) i column = Some x.
Proof.
  intros Hi Hcol.
  assert (Hx : exists x, frame_column logs column !! i = Some x).
  { apply lookup_lt_is_Some. unfold frame_column.
    rewrite store_column_length, length_map. exact Hi. }
  destruct Hx as [x Hx]. exists x. split; [exact Hx|].
  unfold cell_at. rewrite (frame_row logs i Hi).
  cbn [mbind option_bind].
  rewrite (find_column column
             (fun column => default NaN (frame_column logs column !! i))
             _ Hcol).
  rewrite Hx. reflexivity.
Qed.

(** A column in which some record holds a mapping keeps the objects of
    the records. *)
Lemma mapping_column (logs : list record) (carrier : record)
    (column : string) (d : list (string * pyval)) :
  carrier ∈ logs -> dict_get column carrier = Some (PDict d) ->
  frame_column logs column = map (fun log => frame_cell log column) logs.
Proof.
  intros Hcarrier Hget. unfold frame_column.
  apply (store_column_mappings _ d).
  apply in_map_iff. exists carrier. split.
  - unfold frame_cell. rewrite Hget. reflexivity.
  - apply list_elem_of_In, Hcarrier.
Qed.

(** What the exported table holds under [data_availability], when some
    record carries a mapping there: the text of the record's value when it
    is true, the text of the empty mapping when it is false, and the text
    of [nan] when the record lacks the field. *)
Lemma data_availability_cell (logs : list record) (i : nat)
    (log carrier : record) (d : list (string * pyval)) :
  logs !! i = Some log ->
  carrier ∈ logs -> dict_get "data_availability" carrier = Some (PDict d) ->
  cell_at (export_frame (DataFrame logs)) i "data_availability"
  = Some (Text match dict_get "data_availability" log with
               | Some v => if truthy v then py_str v else "{}"
               | None => "nan"
               end).
Proof.
  intros Hi Hcarrier Hget.
  assert (Hcol : In "data_availability" (columns (DataFrame logs))).
  { apply (column_present logs carrier); [exact Hcarrier|]. congruence. }
  assert (Hex : existsb (String.eqb "data_availability")
                  (columns (DataFrame logs)) = true).
  { apply existsb_exists. eexists. split; [exact Hcol|].
    apply String.eqb_refl. }
  assert (Hlt : i < length logs) by (eapply lookup_lt_Some; exact Hi).
  unfold export_frame. rewrite Hex. unfold cell_at, apply_column.
  cbn [rows columns]. rewrite list_lookup_fmap, (frame_row logs i Hlt).
  cbn [fmap option_fmap option_map mbind option_bind].
  rewrite find_stringified by exact Hcol.
  cbn [fmap option_fmap option_map snd].
  rewrite (mapping_column logs carrier _ d Hcarrier Hget).
  rewrite list_lookup_fmap, Hi. cbn [fmap option_fmap option_map default].
  unfold stringify, frame_cell.
  destruct (dict_get "data_availability" log) as [v|]; reflexivity.
Qed.

End Exporting.

Lemma export_cases_witness :
  @export Demo.lib Demo.noon [[]] start
  = (printed start [NoDataToExport], Ok tt)
  /\ @export Demo.lib Demo.noon [Examples.bare] start
     = ({| console :=
             [Exported "conversation_logs_analysis_20240517_120000.csv";
              FrameInfo; FrameShape 1 1; FrameColumns ["session_id"]];
           files :=
             [("conversation_logs_analysis_20240517_120000.csv",
               Table {| columns := ["session_id"];
                        rows := [[Obj (PStr "s1")]] |})] |},
        Ok tt).
Proof.
  split.
  - exact (proj1 (proj2 (@export_cases Demo.lib Demo.noon [[]] start
                           (fun E => eq_ind [[]] (fun l => match l with
                                                           | [] => False
                                                           | _ => True
                                                           end) I [] E))
                    eq_refl)
             eq_refl).
  - exact (proj1 (proj2 (proj2 (@export_cases Demo.lib Demo.noon
                                  [Examples.bare] start
                                  (fun E => eq_ind [Examples.bare]
                                              (fun l => match l with
                                                        | [] => False
                                                        | _ => True
                                                        end) I [] E))
                           eq_refl)
                    eq_refl)
             eq_refl).
Defined.

(** C3 as stated fails: the one line [{}] is a valid record, the run does
    not stop early, and the export still reports that there is no data. *)
Lemma empty_record_skips_export :
  @load Demo.lib ["{}"] = Ok [PDict []]
  /\ @view_logs Demo.lib Demo.noon (Some ["{}"]) start
     = ({| console :=
             [Found 1; Banner "BASIC STATISTICS"; TotalConversations 1;
              UniqueSessions 1; Errors 0 0;
              AverageQuestionLength (Mean 0); AverageResponseLength (Mean 0);
              Banner "DATA AVAILABILITY ANALYSIS";
              Banner "RECENT CONVERSATIONS (Last 5)";
              RecentHeading 1 "Unknown"; RecentQuestion "No question";
              RecentResponse "No response"; Banner "EXPORT OPTIONS";
              NoDataToExport];
           files := [] |}, Ok tt).
Proof. split; vm_compute; reflexivity. Qed.

(** C4 at a failing input: the second record has no [data_availability],
    the first one has; the second row's cell is the text of [nan], where
    the documented behaviour is the text of the empty mapping. *)
Lemma absent_availability_cell :
  dict_get "data_availability" Examples.bare = None
  /\ cell_at (@export_frame Demo.lib
                (@DataFrame Demo.lib [Examples.with_orders; Examples.bare]))
       1 "data_availability"
     = Some (Text "nan")
  /\ cell_at (@export_frame Demo.lib
                (@DataFrame Demo.lib [Examples.with_orders; Examples.bare]))
       0 "data_availability"
     = Some (Text "{'order_data': True, 'gm_report': False}").
Proof. repeat split; vm_compute; reflexivity. Qed.

(** An integer column in which a record lacks the key is stored as
    floats: [12] is exported as [12.0], and [2^53 + 1], which is no
    binary64 number, as [2^53]. *)
Example integer_column_as_floats :
  map (fun i => cell_at (@DataFrame Demo.lib Examples.lengths_missing) i
                  "question_length") [0; 1; 2]
  = [Some (Obj (PFloat (S754_finite false (3 * 2 ^ 51) (-49))));
     Some (Obj (PFloat (S754_finite false (2 ^ 52) 1)));
     Some NaN]
  /\ @py_str Demo.lib (PFloat (S754_finite false (3 * 2 ^ 51) (-49))) = "12.0".
Proof. split; vm_compute; reflexivity. Qed.

(** ** Runs that end normally *)

Lemma float_limit_large : (2 <= float_limit)%Z.
Proof. apply Z.leb_le. vm_compute. reflexivity. Qed.

Lemma py_sum_from_ints (vs : list pyval) (acc : Z) :
  forallb length_ok vs = true ->
  exists z,
    py_sum_from (SumInt acc) vs = Ok (SumInt z)
    /\ (Z.abs z <= Z.abs acc + Z.of_nat (length vs) * (float_limit - 1))%Z.
Proof.
  pose proof float_limit_large as Hlarge.
  revert acc. induction vs as [|v vs IH]; intros acc Hok.
  - exists acc. split; [reflexivity|]. cbn [length]. lia.
  - cbn [forallb] in Hok. apply andb_true_iff in Hok as [Hv Hvs].
    assert (Hstep : exists acc',
               py_add (SumInt acc) v = Ok (SumInt acc')
               /\ (Z.abs acc' <= Z.abs acc + (float_limit - 1))%Z).
    { destruct v as [|b|n| | | |]; try discriminate Hv.
      - exists (acc + Z.b2z b)%Z. split; [reflexivity|].
        destruct b; cbn [Z.b2z]; lia.
      - exists (acc + n)%Z. split; [reflexivity|].
        cbn [length_ok] in Hv. unfold fits_float in Hv.
        apply Z.ltb_lt in Hv. lia. }
    destruct Hstep as [acc' [Hadd Hbound]].
    destruct (IH acc' Hvs) as [z [Hsum Hz]].
    exists z. split.
    + cbn [py_sum_from]. rewrite Hadd. exact Hsum.
    + cbn [length]. rewrite Nat2Z.inj_succ, Z.mul_succ_l. lia.
Qed.

Lemma average_length_ok (field : string) (logs : list record) :
  forallb (field_ok field length_ok) logs = true ->
  exists a, average_length field logs = Ok a.
Proof.
  intros Hok. unfold average_length, total_conversations.
  destruct (Nat.ltb_spec 0 (length logs)) as [Hpos|_]; [|eexists; reflexivity].
  assert (Hvs : forallb length_ok (map (get_or field (PInt 0)) logs) = true).
  { rewrite forallb_forall in Hok |- *. intros v Hv.
    apply in_map_iff in Hv as [log [<- Hlog]].
    specialize (Hok log Hlog). unfold field_ok in Hok. unfold get_or.
    destruct (dict_get field log); [exact Hok|].
    pose proof float_limit_large.
    unfold length_ok, fits_float. apply Z.ltb_lt. cbn [Z.abs]. lia. }
  destruct (py_sum_from_ints _ 0 Hvs) as [z [Hsum Hz]].
  unfold py_sum. rewrite Hsum. cbn [mbind res_bind].
  unfold py_truediv. rewrite length_map in Hz.
  pose proof float_limit_large.
  destruct (Z.ltb_spec (Z.abs z) (float_limit * Z.of_nat (length logs)))
    as [_|Hge]; [eexists; reflexivity|].
  exfalso. cbn [Z.abs] in Hz. nia.
Qed.

Lemma records_of_mappings (logs : list record) :
  records_of (map PDict logs) = logs.
Proof.
  unfold records_of. induction logs as [|log logs IH]; [reflexivity|].
  change (log :: omap (fun v => match v with PDict d => Some d | _ => None end)
                   (map PDict logs) = log :: logs).
  f_equal. exact IH.
Qed.

Lemma tolerated_fields (log : record) :
  tolerated log = true ->
  field_ok "session_id" hashable log = true
  /\ field_ok "timestamp" (fun v => negb (truthy v) || text_like v) log = true
  /\ field_ok "question_length" length_ok log = true
  /\ field_ok "response_length" length_ok log = true
  /\ availability_ok log = true
  /\ field_ok "user_question" text_like log = true
  /\ field_ok "ai_response" text_like log = true.
Proof.
  unfold tolerated. rewrite !andb_true_iff. tauto.
Qed.

Lemma forallb_weaken {A : Type} (f g : A -> bool) (l : list A) :
  (forall x, f x = true -> g x = true) ->
  forallb f l = true -> forallb g l = true.
Proof.
  intros Hfg. rewrite !forallb_forall. intros Hf x Hx. apply Hfg, Hf, Hx.
Qed.

Lemma session_set_ready (loaded : list pyval) (s : list pyval) :
  (exists s', session_set s loaded = Ok s')
  <-> forallb session_ready loaded = true.
Proof.
  revert s. induction loaded as [|v loaded IH]; intros s.
  - split; [reflexivity | intros _; eexists; reflexivity].
  - cbn [session_set forallb]. rewrite andb_true_iff.
    destruct v as [| | | | | |d]; cbn [py_get session_ready mbind res_bind];
      try (split; [intros [s' Hs']; discriminate Hs' | intros [Hd _]; discriminate Hd]).
    unfold set_add. fold (session_key d).
    destruct (hashable (session_key d)); cbn [mbind res_bind].
    + rewrite IH. tauto.
    + split; [intros [s' Hs']; discriminate Hs' | intros [Hd _]; discriminate Hd].
Qed.

Lemma unique_sessions_ready (loaded : list pyval) :
  (exists n, unique_sessions loaded = Ok n)
  <-> forallb session_ready loaded = true.
Proof.
  rewrite <- (session_set_ready loaded []). unfold unique_sessions. split.
  - intros [n Hn]. destruct (session_set [] loaded) as [s'|e];
      [eexists; reflexivity | discriminate Hn].
  - intros [s' ->]. eexists. reflexivity.
Qed.

(** *** When the averages can be computed *)

Lemma py_sum_from_float (vs : list pyval) :
  (forallb float_addable vs = true -> py_sum_from SumFloat vs = Ok SumFloat)
  /\ (forallb float_addable vs = false ->
      exists e, py_sum_from SumFloat vs = Raise e).
Proof.
  induction vs as [|v vs [IHok IHbad]]; [split; [reflexivity | discriminate]|].
  cbn [forallb py_sum_from]. split.
  - intros Hall. apply andb_true_iff in Hall as [Hv Hvs].
    destruct v as [|b|n|f| | |]; try discriminate Hv; cbn [py_add];
      cbn [float_addable] in Hv; rewrite ?Hv; cbn [mbind res_bind];
      apply IHok, Hvs.
  - intros Hall. apply andb_false_iff in Hall as [Hv|Hvs].
    + destruct v as [|b|n|f| | |]; try discriminate Hv; cbn [py_add];
        try (eexists; reflexivity).
      cbn [float_addable] in Hv. rewrite Hv. eexists. reflexivity.
    + destruct (py_add SumFloat v) as [acc|e] eqn:Hadd;
        [|eexists; reflexivity].
      assert (acc = SumFloat) as ->.
      { destruct v as [|b|n|f| | |]; cbn [py_add] in Hadd;
          try discriminate Hadd; try (injection Hadd as <-; reflexivity).
        destruct (fits_float n); [injection Hadd as <-; reflexivity
                                 | discriminate Hadd]. }
      cbn [mbind res_bind]. apply IHbad, Hvs.
Qed.

Lemma summable_from_spec (vs : list pyval) (count : nat) (z : Z) :
  (exists a, (acc ← py_sum_from (SumInt z) vs; py_truediv acc count) = Ok a)
  <-> summable_from z vs count = true.
Proof.
  revert z. induction vs as [|v vs IH]; intros z.
  - cbn [py_sum_from mbind res_bind summable_from py_truediv].
    destruct (Z.abs z <? float_limit * Z.of_nat count)%Z.
    + split; [reflexivity | intros _; eexists; reflexivity].
    + split; [intros [a Ha]; discriminate Ha | discriminate].
  - cbn [py_sum_from summable_from].
    destruct v as [|b|n|f|s|l|d]; cbn [py_add mbind res_bind];
      try (split; [intros [a Ha]; discriminate Ha | discriminate]);
      try apply IH.
    destruct (fits_float z); cbn [mbind res_bind andb];
      [|split; [intros [a Ha]; discriminate Ha | discriminate]].
    destruct (py_sum_from_float vs) as [Hok Hbad].
    destruct (forallb float_addable vs) eqn:Hall; cbn [andb].
    + rewrite (Hok eq_refl). cbn [mbind res_bind py_truediv].
      destruct (fits_float (Z.of_nat count)).
      * split; [reflexivity | intros _; eexists; reflexivity].
      * split; [intros [a Ha]; discriminate Ha | discriminate].
    + destruct (Hbad eq_refl) as [e ->]. cbn [mbind res_bind].
      split; [intros [a Ha]; discriminate Ha | discriminate].
Qed.

Lemma average_length_averageable (field : string) (logs : list record) :
  (exists a, average_length field logs = Ok a)
  <-> averageable field logs = true.
Proof.
  unfold average_length, averageable, py_sum, total_conversations.
  destruct logs as [|log logs].
  - split; [reflexivity | intros _; eexists; reflexivity].
  - change (0 <? length (log :: logs))%nat with true.
    change (length (log :: logs) =? 0)%nat with false.
    cbn [orb]. apply summable_from_spec.
Qed.

(** *** When the counting loop ends normally *)

Lemma tally_log_ok (counts : gmap string nat) (log : record) :
  (exists counts', tally_log counts log = Ok counts')
  <-> availability_ok log = true.
Proof.
  unfold tally_log, availability_ok.
  destruct (get_or "data_availability" PNone log) as [|b|z|f|s|l|d];
    destruct (truthy _); cbn [negb];
    split; first [reflexivity | discriminate
                 | intros [c Hc]; discriminate Hc
                 | intros _; eexists; reflexivity].
Qed.

Lemma tally_from_ok (logs : list record) (counts : gmap string nat) :
  (exists counts', tally_from counts logs = Ok counts')
  <-> forallb availability_ok logs = true.
Proof.
  revert counts. induction logs as [|log logs IH]; intros counts.
  - split; [reflexivity | intros _; eexists; reflexivity].
  - cbn [tally_from forallb]. rewrite andb_true_iff, <- (tally_log_ok counts).
    destruct (tally_log counts log) as [c|e]; cbn [mbind res_bind].
    + rewrite IH. split; [intros Hok; split; [eexists; reflexivity | exact Hok]
                         | intros [_ Hok]; exact Hok].
    + split; [intros [c Hc]; discriminate Hc
             | intros [[c Hc] _]; discriminate Hc].
Qed.

Section NormalRuns.
Context `{PyLib}.

Lemma ends_ret {A : Type} (a : A) : ends_normally_iff (mret a) True.
Proof. intros w. split; [trivial | intros _; exists a; reflexivity]. Qed.

Lemma ends_print (l : line) : ends_normally_iff (print l) True.
Proof. intros w. split; [trivial | intros _; exists tt; reflexivity]. Qed.

Lemma ends_print_all (ls : list line) : ends_normally_iff (print_all ls) True.
Proof. intros w. split; [trivial | intros _; exists tt; reflexivity]. Qed.

Lemma ends_eval {A : Type} (r : res A) :
  ends_normally_iff (eval r) (exists a, r = Ok a).
Proof. intros w. reflexivity. Qed.

Lemma ends_bind {A B : Type} (p : prog A) (k : A -> prog B) (P Q : Prop) :
  ends_normally_iff p P -> (forall a, ends_normally_iff (k a) Q) ->
  ends_normally_iff (p ≫= k) (P /\ Q).
Proof.
  intros Hp Hk w. specialize (Hp w). unfold outcome in *.
  unfold mbind, prog_bind. destruct (p w) as [w' [a|e]]; cbn [snd] in *.
  - rewrite (Hk a w'). split; [intros HQ; split; [apply Hp; eexists; reflexivity
                                               | exact HQ]
                            | intros [_ HQ]; exact HQ].
  - split; [intros [b Hb]; discriminate Hb|].
    intros [HP _]. apply Hp in HP as [a Ha]. discriminate Ha.
Qed.

Lemma ends_weaken {A : Type} (p : prog A) (P P' : Prop) :
  ends_normally_iff p P -> (P <-> P') -> ends_normally_iff p P'.
Proof. intros Hp Hiff w. rewrite (Hp w). exact Hiff. Qed.

Lemma ends_for_each {A : Type} (body : nat -> A -> prog unit)
    (ok : A -> bool) (xs : list A) :
  (forall i x, ends_normally_iff (body i x) (ok x = true)) ->
  forall i, ends_normally_iff (for_each body i xs) (forallb ok xs = true).
Proof.
  intros Hbody. induction xs as [|x xs IH]; intros i; cbn [for_each forallb].
  - eapply ends_weaken; [apply ends_ret | tauto].
  - eapply ends_weaken;
      [apply ends_bind; [apply Hbody | intros _; apply IH]|].
    rewrite andb_true_iff. reflexivity.
Qed.

Lemma py_slice_ok (n : nat) (v : pyval) :
  text_like v = true -> exists shown, py_slice n v = Ok shown.
Proof. destruct v; try discriminate; intros _; eexists; reflexivity. Qed.

Lemma clipped_ok (budget : nat) (v : pyval) :
  text_like v = true -> exists text, clipped budget v = Ok text.
Proof. destruct v; try discriminate; intros _; eexists; reflexivity. Qed.

Lemma clipped_text_like (budget : nat) (v : pyval) :
  (exists text, clipped budget v = Ok text) <-> text_like v = true.
Proof.
  split; [|apply clipped_ok].
  destruct v; try reflexivity; intros [text Htext]; discriminate Htext.
Qed.

Lemma formatted_time_ok (log : record) :
  field_ok "timestamp" (fun v => negb (truthy v) || text_like v) log = true ->
  exists time, formatted_time log = Ok time.
Proof.
  unfold field_ok, formatted_time, get_or.
  destruct (dict_get "timestamp" log) as [v|]; intros Hok.
  - destruct (parse_timestamp v); [eexists; reflexivity|].
    destruct (truthy v); [|eexists; reflexivity].
    cbn [negb orb] in Hok.
    destruct (py_slice_ok 19 v Hok) as [shown ->]. eexists. reflexivity.
  - destruct (parse_timestamp (PStr "Unknown")); eexists; reflexivity.
Qed.

Lemma formatted_time_time_ok (log : record) :
  (exists time, formatted_time log = Ok time) <-> time_ok log = true.
Proof.
  split; [|apply formatted_time_ok].
  unfold time_ok, field_ok, formatted_time, get_or.
  destruct (dict_get "timestamp" log) as [v|]; [|reflexivity].
  destruct v as [|b|z|f|s|l|d]; cbn [parse_timestamp text_like orb];
    try (rewrite orb_true_r; reflexivity);
    destruct (truthy _); cbn [negb orb py_slice mbind res_bind];
    try reflexivity; intros [time Htime]; discriminate Htime.
Qed.

Lemma field_text_like (k : string) (default : string) (log : record) :
  field_ok k text_like log = true ->
  text_like (get_or k (PStr default) log) = true.
Proof.
  unfold field_ok, get_or. destruct (dict_get k log); [auto | reflexivity].
Qed.

Lemma text_like_field (k : string) (default : string) (log : record) :
  text_like (get_or k (PStr default) log) = field_ok k text_like log.
Proof. unfold field_ok, get_or. destruct (dict_get k log); reflexivity. Qed.

Lemma ends_recent_entry (i : nat) (log : record) :
  ends_normally_iff (recent_entry i log) (recent_ok log = true).
Proof.
  eapply ends_weaken.
  - unfold recent_entry.
    apply ends_bind; [apply ends_eval | intros time].
    apply ends_bind; [apply ends_print | intros _].
    apply ends_bind; [apply ends_eval | intros q].
    apply ends_bind; [apply ends_print | intros _].
    apply ends_bind; [apply ends_eval | intros a].
    apply ends_bind; [apply ends_print | intros _].
    instantiate (1 := True).
    destruct (truthy _); [apply ends_print | apply ends_ret].
  - rewrite formatted_time_time_ok, !clipped_text_like.
    rewrite (text_like_field "user_question"), (text_like_field "ai_response").
    unfold recent_ok. rewrite !andb_true_iff. tauto.
Qed.

Lemma ends_error_entry (i : nat) (log : record) :
  ends_normally_iff (error_entry i log) (listed_ok log = true).
Proof.
  eapply ends_weaken.
  - unfold error_entry.
    apply ends_bind; [apply ends_eval | intros time].
    apply ends_bind; [apply ends_eval | intros q].
    apply ends_print.
  - rewrite formatted_time_time_ok, clipped_text_like.
    rewrite (text_like_field "user_question").
    unfold listed_ok. rewrite andb_true_iff. tauto.
Qed.

Lemma ends_error_analysis (logs : list record) :
  ends_normally_iff (error_analysis logs)
    (forallb listed_ok (error_logs logs) = true).
Proof.
  unfold error_analysis.
  destruct (Nat.ltb_spec 0 (errors logs)) as [Hpos|Hzero].
  - eapply ends_weaken.
    + apply ends_bind; [apply ends_print | intros _].
      apply ends_for_each, ends_error_entry.
    + tauto.
  - assert (Hnone : error_logs logs = []).
    { apply length_zero_iff_nil. unfold error_logs.
      rewrite <- errors_filter. lia. }
    rewrite Hnone. eapply ends_weaken; [apply ends_ret|].
    split; reflexivity.
Qed.

Lemma ends_export (now : datetime) (logs : list record) :
  ends_normally_iff (export now logs)
    (frame_error logs = None
     /\ (frame_empty (DataFrame logs) = true
         \/ csv_error (export_frame (DataFrame logs)) = None)).
Proof.
  intros w. unfold outcome. rewrite export_run.
  destruct (frame_error logs) as [e|]; cbn [snd].
  { split; [intros [a Ha]; discriminate Ha | intros [He _]; discriminate He]. }
  destruct (frame_empty (DataFrame logs)); cbn [snd].
  { split; [intros _; split; [reflexivity | left; reflexivity]
           | intros _; eexists; reflexivity]. }
  destruct (csv_error (export_frame (DataFrame logs))) as [e|]; cbn [snd].
  - split; [intros [a Ha]; discriminate Ha|].
    intros [_ [Hempty|Hcsv]]; discriminate.
  - split; [intros _; split; [reflexivity | right; reflexivity]
           | intros _; eexists; reflexivity].
Qed.

Lemma ends_report (now : datetime) (loaded : list pyval) :
  ends_normally_iff (report now loaded) (runs_through loaded).
Proof.
  eapply ends_weaken.
  - unfold report.
    apply ends_bind; [apply ends_print | intros _].
    apply ends_bind; [apply ends_print | intros _].
    apply ends_bind; [apply ends_eval | intros sessions].
    cbv zeta.
    apply ends_bind; [apply ends_print | intros _].
    apply ends_bind; [apply ends_print | intros _].
    apply ends_bind; [apply ends_print | intros _].
    apply ends_bind; [apply ends_print_all | intros _].
    apply ends_bind; [apply ends_eval | intros avg_question_length].
    apply ends_bind; [apply ends_eval | intros avg_response_length].
    apply ends_bind; [apply ends_print | intros _].
    apply ends_bind; [apply ends_print | intros _].
    apply ends_bind; [apply ends_print | intros _].
    apply ends_bind; [apply ends_eval | intros counts].
    apply ends_bind; [apply ends_print_all | intros _].
    apply ends_bind; [apply ends_print | intros _].
    apply ends_bind;
      [apply (ends_for_each recent_entry recent_ok), ends_recent_entry
      | intros _].
    apply ends_bind; [apply ends_error_analysis | intros _].
    apply ends_bind; [apply ends_print | intros _].
    apply ends_export.
  - rewrite unique_sessions_ready, !average_length_averageable.
    unfold data_availability_counts. rewrite tally_from_ok.
    unfold runs_through. cbv zeta. tauto.
Qed.

(** The records with fields of a usable shape meet the conditions on the
    records. *)
Lemma tolerated_records (logs : list record) :
  forallb tolerated logs = true ->
  forallb session_ready (map PDict logs) = true
  /\ averageable "question_length" logs = true
  /\ averageable "response_length" logs = true
  /\ forallb availability_ok logs = true
  /\ forallb recent_ok logs = true
  /\ forallb listed_ok logs = true.
Proof.
  intros Hok.
  assert (Hall : forall log, In log logs -> tolerated log = true)
    by (apply forallb_forall; exact Hok).
  split; [|split; [|split; [|split; [|split]]]].
  - apply forallb_forall. intros v Hv.
    apply in_map_iff in Hv as [log [<- Hlog]].
    apply Hall, tolerated_fields in Hlog as (Hsid & _).
    unfold field_ok in Hsid. unfold session_ready, session_key, get_or.
    destruct (dict_get "session_id" log); [exact Hsid | reflexivity].
  - apply average_length_averageable, average_length_ok. revert Hok.
    apply forallb_weaken. intros log Hlog.
    apply tolerated_fields in Hlog. tauto.
  - apply average_length_averageable, average_length_ok. revert Hok.
    apply forallb_weaken. intros log Hlog.
    apply tolerated_fields in Hlog. tauto.
  - revert Hok. apply forallb_weaken. intros log Hlog.
    apply tolerated_fields in Hlog. tauto.
  - revert Hok. apply forallb_weaken. intros log Hlog.
    apply tolerated_fields in Hlog as (_ & Hts & _ & _ & _ & Hq & Ha).
    unfold recent_ok, time_ok. rewrite Hts, Hq, Ha. reflexivity.
  - revert Hok. apply forallb_weaken. intros log Hlog.
    apply tolerated_fields in Hlog as (_ & Hts & _ & _ & _ & Hq & _).
    unfold listed_ok, time_ok. rewrite Hts, Hq. reflexivity.
Qed.

Lemma recent_view_members (logs : list record) (log : record) :
  In log (recent_view logs) -> In log logs.
Proof.
  intros Hlog. apply list_elem_of_In in Hlog. apply list_elem_of_In.
  unfold recent_view in Hlog. rewrite elem_of_reverse in Hlog.
  unfold recent_logs in Hlog.
  destruct (5 <=? length logs)%nat; [|exact Hlog].
  apply list_elem_of_lookup in Hlog as [j Hj].
  rewrite lookup_drop in Hj. eapply list_elem_of_lookup_2. exact Hj.
Qed.

Lemma forallb_members {A : Type} (f : A -> bool) (l l' : list A) :
  (forall x, In x l' -> In x l) ->
  forallb f l = true -> forallb f l' = true.
Proof.
  intros Hsub. rewrite !forallb_forall. intros Hf x Hx. apply Hf, Hsub, Hx.
Qed.

(** C1, as the code has it.  The stages after the loader end normally
    exactly when: every loaded value is a mapping whose session id, if
    any, hashes; the question lengths and the response lengths can be
    summed and divided ([averageable]); every [data_availability] is a
    mapping or false; every record of the recent view has a timestamp that
    is false or can be sliced, and a question and a response that can be
    sliced and have a length; every error record has such a timestamp and
    such a question; the frame is built; and the frame is empty or written
    without a failure.  With records loaded, a run is these stages.  The
    conditions on the records hold when every record has fields of a
    usable shape ([tolerated]): then the run ends normally as soon as the
    export meets no failure.  A record with no field at all has a usable
    shape, and so has a timestamp that is any text, parsable or not. *)
Theorem tolerated_run (now : datetime) (loaded : list pyval) (w : world) :
  (outcome (report now loaded) w = Ok tt <-> runs_through loaded)
  /\ (forall lines v rest,
        load lines = Ok (v :: rest) ->
        view_logs now (Some lines) w = report now (v :: rest) w)
  /\ (forall logs,
        forallb tolerated logs = true ->
        frame_error logs = None ->
        frame_empty (DataFrame logs) = true
        \/ csv_error (export_frame (DataFrame logs)) = None ->
        runs_through (map PDict logs))
  /\ tolerated [] = true
  /\ (forall text, tolerated [("timestamp", PStr text)] = true).
Proof.
  split; [|split; [|split; [|split]]].
  - rewrite <- (ends_report now loaded w). split.
    + intros Hok. exists tt. exact Hok.
    + intros [[] Hok]. exact Hok.
  - intros lines v rest Hload. unfold view_logs. rewrite Hload. reflexivity.
  - intros logs Hok Hframe Hcsv.
    destruct (tolerated_records logs Hok)
      as (Hready & Hq & Hr & Hda & Hrecent & Hlisted).
    unfold runs_through. rewrite records_of_mappings. cbv zeta.
    repeat split; try assumption.
    + revert Hrecent. apply forallb_members, recent_view_members.
    + revert Hlisted. apply forallb_members. intros log Hlog.
      unfold error_logs in Hlog. apply filter_In in Hlog. tauto.
  - reflexivity.
  - intros text. destruct text; reflexivity.
Qed.

End NormalRuns.

(** A run that ends normally although some fields have another type than
    the documented one: the question of the first record is a number, but
    the record is not among the last five and is no error record; a length
    is a float, a session id a number, a timestamp cannot be parsed and an
    error flag is text. *)
Lemma tolerated_run_witness :
  outcome
    (@report Demo.lib Demo.noon
       (map PDict
          [Examples.typed_wrong; Examples.chatty; [];
           [("question_length", PFloat (S754_finite false 5 (-1)));
            ("session_id", PInt 7)];
           Examples.odd_but_fine; Examples.with_orders]))
    start
  = Ok tt.
Proof.
  exact (proj2 (proj1 (@tolerated_run Demo.lib Demo.noon
                         (map PDict
                            [Examples.typed_wrong; Examples.chatty; [];
                             [("question_length",
                               PFloat (S754_finite false 5 (-1)));
                              ("session_id", PInt 7)];
                             Examples.odd_but_fine; Examples.with_orders])
                         start))
           (conj eq_refl
              (conj eq_refl
                 (conj eq_refl
                    (conj eq_refl
                       (conj eq_refl
                          (conj eq_refl
                             (conj eq_refl (or_intror eq_refl))))))))).
Defined.

(** C1 as stated fails: a line the loader accepts need not be a mapping,
    and a field of another type stops the run inside the recent view. *)
Lemma wrong_types_abort :
  @load Demo.lib ["5"] = Ok [PInt 5]
  /\ @view_logs Demo.lib Demo.noon (Some ["5"]) start
     = ({| console := [Found 1; Banner "BASIC STATISTICS"]; files := [] |},
        Raise AttributeError)
  /\ (@report Demo.lib Demo.noon [PDict Examples.typed_wrong] start).2
     = Raise TypeError
  /\ (@report Demo.lib Demo.noon [PDict [("timestamp", PInt 5)]] start).2
     = Raise TypeError
  /\ (@report Demo.lib Demo.noon [PDict [("session_id", PList [])]] start).2
     = Raise TypeError
  /\ (@report Demo.lib Demo.noon [PDict [("question_length", PStr "12")]]
        start).2
     = Raise TypeError
  /\ (@report Demo.lib Demo.noon
        [PDict [("data_availability", PStr "all")]] start).2
     = Raise AttributeError.
Proof. repeat split; vm_compute; reflexivity. Qed.

(** * Further properties of the program *)

(** ** Line 43 as a gate *)

Lemma ready_records (loaded : list pyval) :
  forallb session_ready loaded = true ->
  map PDict (records_of loaded) = loaded.
Proof.
  unfold records_of. induction loaded as [|v loaded IH]; [reflexivity|].
  cbn [forallb]. rewrite andb_true_iff. intros [Hv Hrest].
  destruct v as [| | | | | |d]; try discriminate Hv.
  change (PDict d :: map PDict
            (omap (fun v => match v with PDict d => Some d | _ => None end)
               loaded)
          = PDict d :: loaded).
  f_equal. apply IH, Hrest.
Qed.

(** X1.  Line 43 ends normally exactly when every loaded value is a
    mapping whose session id hashes; so a run that gets past it has only
    mappings to work on, and taking their items loses nothing. *)
Theorem sessions_gate (loaded : list pyval) :
  ((exists n, unique_sessions loaded = Ok n)
   <-> forallb session_ready loaded = true)
  /\ (forall n, unique_sessions loaded = Ok n ->
        map PDict (records_of loaded) = loaded
        /\ length (records_of loaded) = length loaded).
Proof.
  assert (Hiff : (exists n, unique_sessions loaded = Ok n)
                 <-> forallb session_ready loaded = true).
  { rewrite <- (session_set_ready loaded []). unfold unique_sessions. split.
    - intros [n Hn]. destruct (session_set [] loaded) as [s'|e];
        [eexists; reflexivity | discriminate Hn].
    - intros [s' ->]. eexists. reflexivity. }
  split; [exact Hiff|].
  intros n Hn.
  assert (Hready : forallb session_ready loaded = true)
    by (apply Hiff; exists n; exact Hn).
  pose proof (ready_records loaded Hready) as Hmap.
  split; [exact Hmap|].
  rewrite <- Hmap at 2. rewrite length_map. reflexivity.
Qed.

(** ** The loader *)

Lemma lstrip_blank (cs : list Ascii.ascii) :
  forallb py_isspace cs = true -> lstrip cs = [].
Proof.
  induction cs as [|c cs IH]; [reflexivity|].
  cbn [forallb lstrip]. rewrite andb_true_iff. intros [-> Hcs].
  apply IH, Hcs.
Qed.

Lemma strip_blank (line : string) :
  forallb py_isspace (String.list_ascii_of_string line) = true ->
  strip line = "".
Proof.
  intros Hblank. unfold strip. rewrite (lstrip_blank _ Hblank). reflexivity.
Qed.

Section Loading.
Context `{PyLib}.

Lemma load_cons (line : string) (lines : list string) :
  load (line :: lines)
  = (entry ← load_line line;
     logs ← load lines;
     mret (match entry with
           | Some log_entry => log_entry :: logs
           | None => logs
           end)).
Proof. reflexivity. Qed.

Lemma load_app (l1 l2 : list string) :
  load (l1 ++ l2) = (a ← load l1; b ← load l2; mret (a ++ b)).
Proof.
  induction l1 as [|line l1 IH].
  - cbn [app load mbind res_bind]. destruct (load l2); reflexivity.
  - rewrite <- app_comm_cons, !load_cons, IH.
    destruct (load_line line) as [entry|e]; cbn [mbind res_bind];
      [|reflexivity].
    destruct (load l1) as [a|e]; cbn [mbind res_bind]; [|reflexivity].
    destruct (load l2) as [b|e]; cbn [mbind res_bind mret res_ret];
      [|reflexivity].
    destruct entry; reflexivity.
Qed.

Lemma load_members (lines : list string) (loaded : list pyval) :
  load lines = Ok loaded ->
  length loaded <= length lines
  /\ forall v, v ∈ loaded <->
       exists line, line ∈ lines /\ load_line line = Ok (Some v).
Proof.
  revert loaded. induction lines as [|line lines IH]; intros loaded Hload.
  - injection Hload as <-. split; [reflexivity|]. intros v. split.
    + intros Hv. apply not_elem_of_nil in Hv. contradiction.
    + intros [l [Hl _]]. apply not_elem_of_nil in Hl. contradiction.
  - rewrite load_cons in Hload.
    destruct (load_line line) as [entry|e] eqn:Hline; [|discriminate Hload].
    destruct (load lines) as [rest|e]; [|discriminate Hload].
    cbn [mbind res_bind mret res_ret] in Hload. injection Hload as <-.
    destruct (IH rest eq_refl) as [Hlen Hmem].
    destruct entry as [v0|]; cbn [length].
    + split; [lia|]. intros v. rewrite elem_of_cons, Hmem. split.
      * intros [->|[l [Hl Hv]]].
        -- exists line. split; [left | exact Hline].
        -- exists l. split; [right; exact Hl | exact Hv].
      * intros [l [Hl Hv]]. apply elem_of_cons in Hl as [->|Hl].
        -- left. congruence.
        -- right. exists l. split; assumption.
    + split; [lia|]. intros v. rewrite Hmem. split.
      * intros [l [Hl Hv]]. exists l. split; [right; exact Hl | exact Hv].
      * intros [l [Hl Hv]]. apply elem_of_cons in Hl as [->|Hl].
        -- congruence.
        -- exists l. split; assumption.
Qed.

Lemma load_all (lines : list string) :
  (exists loaded, load lines = Ok loaded)
  <-> forall line, line ∈ lines -> exists entry, load_line line = Ok entry.
Proof.
  induction lines as [|line lines IH].
  - split; [|intros _; eexists; reflexivity].
    intros _ l Hl. apply not_elem_of_nil in Hl. contradiction.
  - rewrite load_cons. split.
    + intros [loaded Hload] l Hl.
      destruct (load_line line) as [entry|e] eqn:Hline; [|discriminate Hload].
      destruct (load lines) as [rest|e] eqn:Hrest; [|discriminate Hload].
      apply elem_of_cons in Hl as [->|Hl]; [eexists; exact Hline|].
      apply (proj1 IH); [eexists; reflexivity | exact Hl].
    + intros Hall. destruct (Hall line) as [entry ->]; [left|].
      destruct (proj2 IH) as [rest ->].
      * intros l Hl. apply Hall. right. exact Hl.
      * eexists. reflexivity.
Qed.

(** X2.  The loader skips a line of whitespace without parsing it, and a
    line on which the parser raises the decoding error; any other
    exception of the parser leaves the loader, and the first line that
    raises ends the loading.  Dropping a skipped line from the file changes
    nothing; loading two files one after the other is loading the first,
    then the second.  What is loaded is the values of the lines that
    parse, never more values than lines. *)
Theorem loader_skips :
  (forall line,
     forallb py_isspace (String.list_ascii_of_string line) = true ->
     load_line line = Ok None)
  /\ (forall line,
        strip line <> "" ->
        load_line line
        = match json_loads (strip line) with
          | Loaded v => Ok (Some v)
          | DecodeError => Ok None
          | OtherError e => Raise e
          end)
  /\ (forall l1 skipped l2, load_line skipped = Ok None ->
        load (l1 ++ skipped :: l2) = load (l1 ++ l2))
  /\ (forall l1 l2,
        load (l1 ++ l2) = (a ← load l1; b ← load l2; mret (a ++ b)))
  /\ (forall l1 loaded line l2 e,
        load l1 = Ok loaded -> load_line line = Raise e ->
        load (l1 ++ line :: l2) = Raise e)
  /\ (forall lines,
        (exists loaded, load lines = Ok loaded)
        <-> forall line, line ∈ lines ->
              exists entry, load_line line = Ok entry)
  /\ (forall lines loaded, load lines = Ok loaded ->
        length loaded <= length lines
        /\ forall v, v ∈ loaded <->
             exists line, line ∈ lines /\ load_line line = Ok (Some v)).
Proof.
  split; [|split; [|split; [|split; [|split; [|split]]]]].
  - intros line Hblank. unfold load_line.
    rewrite (strip_blank line Hblank). reflexivity.
  - intros line Hne. unfold load_line.
    destruct (strip line); [contradiction Hne | ]; reflexivity.
  - intros l1 skipped l2 Hskip.
    rewrite !load_app, load_cons, Hskip. cbn [mbind res_bind].
    destruct (load l1); cbn [mbind res_bind]; [|reflexivity].
    destruct (load l2); reflexivity.
  - apply load_app.
  - intros l1 loaded line l2 e Hl1 Hline.
    rewrite load_app, Hl1, load_cons, Hline. reflexivity.
  - apply load_all.
  - apply load_members.
Qed.

End Loading.

(** The line [{}] between two no-break spaces loads as a record; a line
    of 5000 digits, which the parser refuses with [ValueError], stops the
    run before anything is printed. *)
Example loader_examples :
  strip Examples.padded_line = "{}"
  /\ @load Demo.lib [Examples.padded_line] = Ok [PDict []]
  /\ @view_logs Demo.lib Demo.noon (Some ["{}"; Examples.long_numeral]) start
     = (start, Raise ValueError).
Proof. repeat split; vm_compute; reflexivity. Qed.

(** ** What a run prints first and what it writes *)

Lemma keeps_files_ret {A : Type} (a : A) : keeps_files (mret a).
Proof. intros w. reflexivity. Qed.

Lemma keeps_files_eval {A : Type} (r : res A) : keeps_files (eval r).
Proof. intros w. reflexivity. Qed.

Lemma keeps_files_print (l : line) : keeps_files (print l).
Proof. intros w. reflexivity. Qed.

Lemma keeps_files_print_all (ls : list line) : keeps_files (print_all ls).
Proof. intros w. reflexivity. Qed.

Lemma keeps_files_bind {A B : Type} (p : prog A) (k : A -> prog B) :
  keeps_files p -> (forall a, keeps_files (k a)) -> keeps_files (p ≫= k).
Proof.
  intros Hp Hk w. specialize (Hp w). unfold mbind, prog_bind.
  destruct (p w) as [w1 [a|e]]; simpl in *; [|exact Hp].
  rewrite (Hk a w1). exact Hp.
Qed.

Lemma keeps_files_for_each {A : Type} (body : nat -> A -> prog unit) :
  (forall i x, keeps_files (body i x)) ->
  forall xs i, keeps_files (for_each body i xs).
Proof.
  intros Hbody xs. induction xs as [|x xs IH]; intros i; cbn [for_each].
  - apply keeps_files_ret.
  - apply keeps_files_bind; [apply Hbody | intros _; apply IH].
Qed.

Lemma writes_at_most_bind {A B : Type} (name : string) (table : frame)
    (empty : bool) (failure : option exn) (p : prog A) (k : A -> prog B) :
  keeps_files p ->
  (forall a, writes_at_most name table empty failure (k a)) ->
  writes_at_most name table empty failure (p ≫= k).
Proof.
  intros Hp Hk w. specialize (Hp w). unfold outcome, mbind, prog_bind.
  destruct (p w) as [w1 [a|e]]; cbn [fst snd] in *.
  - destruct (Hk a w1)
      as [[Hsame Hempty]|[(Hok & Hfull & Hnone & Hmore)
                         |(e & He & Hraise & Hmore)]].
    + left. split; [rewrite Hsame; exact Hp | exact Hempty].
    + right. left. split; [exact Hok|]. split; [exact Hfull|].
      split; [exact Hnone|]. rewrite Hmore, Hp. reflexivity.
    + right. right. exists e. split; [exact He|]. split; [exact Hraise|].
      rewrite Hmore, Hp. reflexivity.
  - left. split; [exact Hp|]. intros [b Hb]. discriminate Hb.
Qed.

Section Effects.
Context `{PyLib}.

Lemma keeps_files_recent_entry (i : nat) (log : record) :
  keeps_files (recent_entry i log).
Proof.
  unfold recent_entry.
  repeat (apply keeps_files_bind;
          [first [apply keeps_files_eval | apply keeps_files_print] | intros ?]).
  destruct (truthy _); [apply keeps_files_print | apply keeps_files_ret].
Qed.

Lemma keeps_files_error_entry (i : nat) (log : record) :
  keeps_files (error_entry i log).
Proof.
  unfold error_entry.
  repeat (apply keeps_files_bind; [apply keeps_files_eval | intros ?]).
  apply keeps_files_print.
Qed.

Lemma keeps_files_error_analysis (logs : list record) :
  keeps_files (error_analysis logs).
Proof.
  unfold error_analysis. destruct (0 <? errors logs)%nat;
    [|apply keeps_files_ret].
  apply keeps_files_bind; [apply keeps_files_print | intros _].
  apply keeps_files_for_each, keeps_files_error_entry.
Qed.

Lemma appends_error_analysis (logs : list record) :
  appends (error_analysis logs).
Proof.
  unfold error_analysis. destruct (0 <? errors logs)%nat;
    [|apply appends_ret].
  apply appends_bind; [apply appends_print | intros _].
  apply appends_for_each, appends_error_entry.
Qed.

Lemma appends_export (now : datetime) (logs : list record) :
  appends (export now logs).
Proof.
  intros w. rewrite export_run.
  destruct (frame_error logs); [exists []; cbn; rewrite app_nil_r; reflexivity|].
  destruct (frame_empty (DataFrame logs)); [eexists; reflexivity|].
  destruct (csv_error _); [exists []; cbn; rewrite app_nil_r|eexists];
    reflexivity.
Qed.

Lemma writes_at_most_export (now : datetime) (logs : list record) :
  writes_at_most (csv_name now) (export_frame (DataFrame logs))
    (frame_empty (DataFrame logs))
    (csv_error (export_frame (DataFrame logs))) (export now logs).
Proof.
  intros w. unfold outcome. rewrite export_run.
  destruct (frame_error logs).
  { left. split; [reflexivity|]. intros [a Ha]. discriminate Ha. }
  destruct (frame_empty (DataFrame logs)).
  { left. split; reflexivity. }
  destruct (csv_error (export_frame (DataFrame logs))) as [e|].
  - right. right. exists e. repeat split.
  - right. left. repeat split. eexists. reflexivity.
Qed.

Lemma appends_report_tail (now : datetime) (loaded : list pyval) :
  appends
    (sessions ← eval (unique_sessions loaded);
     let logs := records_of loaded in
     _ ← print (TotalConversations (total_conversations logs));
     _ ← print (UniqueSessions sessions);
     _ ← print (Errors (errors logs) (error_rate logs));
     _ ← print_all (option_list (date_range logs));
     avg_question_length ← eval (average_length "question_length" logs);
     avg_response_length ← eval (average_length "response_length" logs);
     _ ← print (AverageQuestionLength avg_question_length);
     _ ← print (AverageResponseLength avg_response_length);
     _ ← print (Banner "DATA AVAILABILITY ANALYSIS");
     counts ← eval (data_availability_counts logs);
     _ ← print_all (availability_report counts);
     _ ← print (Banner "RECENT CONVERSATIONS (Last 5)");
     _ ← for_each recent_entry 1 (recent_view logs);
     _ ← error_analysis logs;
     _ ← print (Banner "EXPORT OPTIONS");
     export now logs).
Proof.
  repeat first
    [ apply appends_export
    | apply appends_bind;
      [first [apply appends_eval | apply appends_print
             | apply appends_print_all
             | apply appends_for_each, appends_recent_entry
             | apply appends_error_analysis]
      | intros ?] ].
Qed.

(** X3.  A run only adds to the console.  Without a log file it prints
    the one message that there is none.  With a log file, an exception of
    the loader ends the run before anything is printed; when no value was
    loaded, the run prints the one message that nothing was valid; in
    these cases it writes nothing, and in the two with a message it ends
    normally.  Otherwise the first two things it prints are the number of
    loaded values and the statistics banner, whether or not the run ends
    normally afterwards. *)
Theorem run_opening (now : datetime) (file : option (list string))
    (w : world) :
  (exists out, console (view_logs now file w).1 = console w ++ out)
  /\ match file with
     | None => view_logs now file w = (printed w [NoLogFile], Ok tt)
     | Some lines =>
         match load lines with
         | Raise e => view_logs now file w = (w, Raise e)
         | Ok [] => view_logs now file w = (printed w [NoValidEntries], Ok tt)
         | Ok (v :: loaded) =>
             exists rest,
               console (view_logs now file w).1
               = console w ++ Found (S (length loaded))
                   :: Banner "BASIC STATISTICS" :: rest
         end
     end.
Proof.
  assert (Hopen : forall loaded : list pyval, exists rest,
            console (report now loaded w).1
            = console w ++ Found (length loaded)
                :: Banner "BASIC STATISTICS" :: rest).
  { intros loaded.
    destruct (appends_report_tail now loaded
                (printed w [Found (length loaded); Banner "BASIC STATISTICS"]))
      as [rest Hrest].
    exists rest. unfold report. unfold mbind at 1 2, prog_bind at 1 2.
    unfold print at 1 2. cbn [console files].
    unfold printed in Hrest. cbn [console files] in Hrest.
    rewrite <- app_assoc in Hrest |- *. cbn [app] in Hrest |- *.
    exact Hrest. }
  destruct file as [lines|]; cbn [view_logs].
  - destruct (load lines) as [[|v loaded]|e] eqn:Hload;
      unfold mbind, prog_bind, eval.
    + split; [exists [NoValidEntries]|]; reflexivity.
    + destruct (Hopen (v :: loaded)) as [rest Hrest]. split.
      * eexists. exact Hrest.
      * exists rest. exact Hrest.
    + split; [exists []; cbn; rewrite app_nil_r|]; reflexivity.
  - split; [exists [NoLogFile]|]; reflexivity.
Qed.

Lemma writes_at_most_report (now : datetime) (loaded : list pyval) :
  writes_at_most (csv_name now)
    (export_frame (DataFrame (records_of loaded)))
    (frame_empty (DataFrame (records_of loaded)))
    (csv_error (export_frame (DataFrame (records_of loaded))))
    (report now loaded).
Proof.
  unfold report.
  repeat first
    [ apply writes_at_most_export
    | apply writes_at_most_bind;
      [first [apply keeps_files_eval | apply keeps_files_print
             | apply keeps_files_print_all
             | apply keeps_files_for_each, keeps_files_recent_entry
             | apply keeps_files_error_analysis]
      | intros ?] ].
Qed.

(** X4.  A run writes at most one file, in the export block, named after
    the clock reading.  Either it writes nothing, and if it ends normally
    the frame was empty; or it ends normally and the file holds the export
    frame of the loaded records, written without a failure; or the writing
    fails, the run ends with that exception and the file is left
    incomplete.  So a run that raises has written nothing unless the
    exception is that of the writing, and a run that stops in the loader
    or for want of a log file has written nothing. *)
Theorem at_most_one_file (now : datetime) (loaded : list pyval) :
  let table := export_frame (DataFrame (records_of loaded)) in
  writes_at_most (csv_name now) table
    (frame_empty (DataFrame (records_of loaded))) (csv_error table)
    (report now loaded)
  /\ (forall w,
        outcome (report now loaded) w = Ok tt ->
        files (report now loaded w).1
        = files w ++ written now (records_of loaded))
  /\ (forall w e,
        outcome (report now loaded) w = Raise e ->
        csv_error table <> Some e ->
        files (report now loaded w).1 = files w)
  /\ (forall lines,
        load lines = Ok loaded ->
        writes_at_most (csv_name now) table
          (frame_empty (DataFrame (records_of loaded))
           || (length loaded =? 0)%nat)
          (csv_error table) (view_logs now (Some lines)))
  /\ (forall lines w e,
        load lines = Raise e ->
        view_logs now (Some lines) w = (w, Raise e))
  /\ (forall w, files (view_logs now None w).1 = files w).
Proof.
  cbv zeta. pose proof (writes_at_most_report now loaded) as Hreport.
  split; [exact Hreport|]. split; [|split; [|split; [|split]]].
  - intros w Hok. unfold written.
    destruct (Hreport w)
      as [[Hsame Hempty]|[(_ & Hfull & _ & Hmore)|(e & _ & Hraise & _)]].
    + rewrite (Hempty (ex_intro _ tt Hok)), app_nil_r. exact Hsame.
    + rewrite Hfull. exact Hmore.
    + congruence.
  - intros w e Hraise Hne.
    destruct (Hreport w)
      as [[Hsame _]|[([a Hok] & _)|(e' & He' & Hraise' & _)]].
    + exact Hsame.
    + congruence.
    + assert (e' = e) as -> by congruence. contradiction.
  - intros lines Hload w. unfold outcome, view_logs. rewrite Hload.
    unfold mbind at 1 2 3 4 5, prog_bind at 1 2 3 4 5, eval.
    destruct loaded as [|v rest].
    { left. split; [reflexivity|]. intros _. apply orb_true_r. }
    cbn [length Nat.eqb]. rewrite orb_false_r. apply Hreport.
  - intros lines w e Hload. unfold view_logs. rewrite Hload. reflexivity.
  - intros w. reflexivity.
Qed.

End Effects.

(** ** Average lengths *)

Lemma py_sum_from_total (vs : list pyval) (acc : Z) :
  forallb length_ok vs = true ->
  py_sum_from (SumInt acc) vs
  = Ok (SumInt (acc + foldr (fun v t =>
                               (match v with
                                | PInt z => z
                                | PBool b => Z.b2z b
                                | _ => 0
                                end + t)%Z) 0%Z vs)).
Proof.
  revert acc. induction vs as [|v vs IH]; intros acc Hok.
  - cbn [py_sum_from foldr]. rewrite Z.add_0_r. reflexivity.
  - cbn [forallb] in Hok. apply andb_true_iff in Hok as [Hv Hvs].
    cbn [py_sum_from foldr].
    destruct v as [|b|n| | | |]; try discriminate Hv;
      cbn [py_add mbind res_bind]; rewrite (IH _ Hvs), Z.add_assoc;
      reflexivity.
Qed.

Lemma length_total_values (field : string) (logs : list record) :
  foldr (fun v t =>
           (match v with
            | PInt z => z
            | PBool b => Z.b2z b
            | _ => 0
            end + t)%Z) 0%Z (map (get_or field (PInt 0)) logs)
  = length_total field logs.
Proof.
  induction logs as [|log logs IH]; [reflexivity|].
  cbn [map foldr length_total]. fold (length_total field logs).
  rewrite IH. reflexivity.
Qed.

Lemma lengths_ok (field : string) (logs : list record) :
  forallb (field_ok field length_ok) logs = true ->
  forallb length_ok (map (get_or field (PInt 0)) logs) = true.
Proof.
  intros Hok. rewrite forallb_forall in Hok |- *. intros v Hv.
  apply in_map_iff in Hv as [log [<- Hlog]].
  specialize (Hok log Hlog). unfold field_ok in Hok. unfold get_or.
  destruct (dict_get field log); [exact Hok|].
  pose proof float_limit_large.
  unfold length_ok, fits_float. apply Z.ltb_lt. cbn [Z.abs]. lia.
Qed.

Lemma length_total_nonneg (field : string) (logs : list record) :
  (forall log, In log logs -> (0 <= length_value field log)%Z) ->
  (0 <= length_total field logs)%Z.
Proof.
  induction logs as [|log logs IH]; intros Hnn; cbn [length_total foldr];
    [lia|].
  fold (length_total field logs).
  pose proof (Hnn log (or_introl eq_refl)).
  assert (0 <= length_total field logs)%Z
    by (apply IH; intros l Hl; apply Hnn; right; exact Hl).
  lia.
Qed.

(** X5.  When every length that is present is an integer (or a boolean)
    inside the binary64 range, the average of a field over a non-empty
    sequence is the sum of its values divided by the number of records,
    where a record without the field counts as [0] and still counts in the
    divisor; with no negative length the average is not negative. *)
Theorem average_is_mean (field : string) (logs : list record) :
  forallb (field_ok field length_ok) logs = true ->
  logs <> [] ->
  average_length field logs
  = Ok (Mean (inject_Z (length_total field logs) / Qnat (length logs)))
  /\ (forall log, dict_get field log = None -> length_value field log = 0%Z)
  /\ ((forall log, In log logs -> (0 <= length_value field log)%Z) ->
      (0 <= inject_Z (length_total field logs) / Qnat (length logs))%Q).
Proof.
  intros Hok Hne.
  assert (Hpos : 0 < length logs) by (destruct logs; [contradiction | simpl; lia]).
  split; [|split].
  - unfold average_length, total_conversations.
    destruct (Nat.ltb_spec 0 (length logs)) as [_|Hle]; [|lia].
    pose proof (lengths_ok field logs Hok) as Hvs.
    destruct (py_sum_from_ints _ 0 Hvs) as [z [Hsum Hz]].
    unfold py_sum. rewrite Hsum. cbn [mbind res_bind].
    rewrite (py_sum_from_total _ 0 Hvs), length_total_values in Hsum.
    injection Hsum as <-. rewrite Z.add_0_l in Hz |- *.
    unfold py_truediv. rewrite length_map in Hz.
    pose proof float_limit_large.
    destruct (Z.ltb_spec (Z.abs (length_total field logs))
                (float_limit * Z.of_nat (length logs))) as [_|Hge];
      [reflexivity|].
    exfalso. cbn [Z.abs] in Hz. nia.
  - intros log Habsent. unfold length_value, get_or. rewrite Habsent.
    reflexivity.
  - intros Hnn. apply Qle_shift_div_l; [apply Qnat_pos, Hpos|].
    rewrite Qmult_0_l. unfold Qle; simpl.
    pose proof (length_total_nonneg field logs Hnn). lia.
Qed.

Lemma average_is_mean_witness :
  average_length "response_length" Examples.measured
  = Ok (Mean (inject_Z 60 / Qnat 3)).
Proof.
  exact (proj1 (average_is_mean "response_length" Examples.measured eq_refl
                  (fun E => eq_ind Examples.measured
                              (fun l => match l with
                                        | [] => False
                                        | _ => True
                                        end) I [] E))).
Defined.

Lemma py_sum_from_bad (vs : list pyval) (bad : pyval) (acc : running_sum) :
  In bad vs -> num_of bad = None ->
  exists e, py_sum_from acc vs = Raise e.
Proof.
  revert acc. induction vs as [|v vs IH]; intros acc Hin Hbad; [contradiction|].
  cbn [py_sum_from]. destruct Hin as [->|Hin].
  - exists TypeError.
    destruct acc, bad as [| | |f| | |]; try discriminate Hbad;
      try reflexivity; destruct f; discriminate Hbad.
  - destruct (py_add acc v) as [acc'|e]; cbn [mbind res_bind].
    + apply IH; assumption.
    + exists e. reflexivity.
Qed.

(** X6.  A length that is present but is not a number (text, a list, a
    mapping, or JSON [null], which unlike an absent field does not read as
    [0]) makes the average raise: the run stops at the averages. *)
Theorem average_needs_numbers (field : string) (logs : list record)
    (log : record) (v : pyval) :
  In log logs -> dict_get field log = Some v -> num_of v = None ->
  exists e, average_length field logs = Raise e.
Proof.
  intros Hlog Hget Hbad. unfold average_length, total_conversations.
  destruct (Nat.ltb_spec 0 (length logs)) as [_|Hle];
    [|destruct logs; [contradiction | simpl in Hle; lia]].
  destruct (py_sum_from_bad (map (get_or field (PInt 0)) logs) v (SumInt 0))
    as [e He]; [|exact Hbad|].
  - apply in_map_iff. exists log. split; [|exact Hlog].
    unfold get_or. rewrite Hget. reflexivity.
  - exists e. unfold py_sum. rewrite He. reflexivity.
Qed.

Lemma average_needs_numbers_witness :
  exists e,
    average_length "question_length" [Examples.bare; [("question_length", PNone)]]
    = Raise e.
Proof.
  exact (average_needs_numbers "question_length"
           [Examples.bare; [("question_length", PNone)]]
           [("question_length", PNone)] PNone
           (or_intror (or_introl eq_refl)) eq_refl eq_refl).
Defined.

(** ** The time shown for an entry *)

Section EntryTime.
Context `{PyLib}.

(** X7.  The time shown for an entry: the formatted instant when the
    timestamp is text that parses; for text that does not parse, its first
    19 characters (so never more than 19, and the whole text when it is
    that short), or [Unknown] when the text is empty; [Unknown] for any
    other false value, such as JSON [null]; and a [TypeError] that leaves
    the handler for a number or boolean that is true. *)
Theorem formatted_time_cases (log : record) :
  (forall s dt, dict_get "timestamp" log = Some (PStr s) ->
     fromisoformat s = Some dt ->
     formatted_time log = Ok (strftime "%Y-%m-%d %H:%M:%S" dt))
  /\ (forall s, dict_get "timestamp" log = Some (PStr s) ->
        fromisoformat s = None ->
        formatted_time log
        = Ok (if String.eqb s "" then "Unknown" else str_take 19 s)
        /\ String.length (str_take 19 s) <= 19
        /\ (String.length s <= 19 -> str_take 19 s = s))
  /\ (forall v, dict_get "timestamp" log = Some v ->
        truthy v = false -> (forall s, v <> PStr s) ->
        formatted_time log = Ok "Unknown")
  /\ (forall v, dict_get "timestamp" log = Some v ->
        truthy v = true -> num_of v <> None ->
        formatted_time log = Raise TypeError)
  /\ (dict_get "timestamp" log = None -> fromisoformat "Unknown" = None ->
      formatted_time log = Ok "Unknown").
Proof.
  unfold formatted_time, get_or. split; [|split; [|split; [|split]]].
  - intros s dt -> Hparse. cbn [parse_timestamp]. rewrite Hparse. reflexivity.
  - intros s -> Hparse. cbn [parse_timestamp]. rewrite Hparse.
    split; [|split].
    + destruct s; reflexivity.
    + rewrite str_take_length. lia.
    + apply str_take_all.
  - intros v -> Hfalse Hnot.
    destruct v as [| | | |s| |]; cbn [parse_timestamp]; rewrite ?Hfalse;
      try reflexivity.
    contradiction (Hnot s). reflexivity.
  - intros v -> Htrue Hnum.
    destruct v as [| | | |s| |]; try (contradiction Hnum; reflexivity);
      cbn [parse_timestamp]; rewrite Htrue; reflexivity.
  - intros -> Hparse. cbn [parse_timestamp]. rewrite Hparse. reflexivity.
Qed.

(** ** The earliest and the latest instant *)

Lemma extremum_from_spec (want : comparison) (rest : list datetime)
    (best : datetime) (seen : list datetime) :
  (forall a b, dt_compare a b <> None) ->
  (forall a, dt_compare a a <> Some want) ->
  (forall a b c, dt_compare a b = Some want -> dt_compare b c = Some want ->
                 dt_compare a c = Some want) ->
  In best seen ->
  (forall d, In d seen -> dt_compare d best <> Some want) ->
  exists m,
    extremum_from want best rest = Some m
    /\ In m (seen ++ rest)
    /\ (forall d, In d (seen ++ rest) -> dt_compare d m <> Some want).
Proof.
  intros Htotal Hirrefl Htrans. revert best seen.
  induction rest as [|d rest IH]; intros best seen Hbest Hseen.
  - exists best. rewrite app_nil_r. split; [reflexivity|]. split; assumption.
  - cbn [extremum_from].
    destruct (dt_compare d best) as [c|] eqn:Hc; [|contradiction (Htotal d best)].
    assert (Hstep : exists m,
              extremum_from want (if decide (c = want) then d else best) rest
              = Some m
              /\ In m ((seen ++ [d]) ++ rest)
              /\ (forall x, In x ((seen ++ [d]) ++ rest) ->
                    dt_compare x m <> Some want)).
    { apply IH.
      - destruct (decide (c = want)); apply in_or_app;
          [right; left; reflexivity | left; exact Hbest].
      - intros x Hx. apply in_app_or in Hx as [Hx|[<-|[]]].
        + destruct (decide (c = want)) as [->|Hne]; [|apply Hseen, Hx].
          intros Hxd. apply (Hseen x Hx). eapply Htrans; eassumption.
        + destruct (decide (c = want)) as [->|Hne]; [apply Hirrefl|].
          congruence. }
    rewrite <- app_assoc in Hstep. exact Hstep.
Qed.

Lemma py_extremum_spec (want : comparison) (dates : list datetime) :
  (forall a b, dt_compare a b <> None) ->
  (forall a, dt_compare a a <> Some want) ->
  (forall a b c, dt_compare a b = Some want -> dt_compare b c = Some want ->
                 dt_compare a c = Some want) ->
  dates <> [] ->
  exists m,
    py_extremum want dates = Some m
    /\ In m dates
    /\ (forall d, In d dates -> dt_compare d m <> Some want).
Proof.
  intros Htotal Hirrefl Htrans Hne.
  destruct dates as [|d rest]; [contradiction|].
  apply (extremum_from_spec want rest d [d] Htotal Hirrefl Htrans).
  - left. reflexivity.
  - intros x [<-|[]]. apply Hirrefl.
Qed.

(** X8.  When every present timestamp parses and instants compare as a
    strict order (any two compare, none is before itself, before and after
    are transitive), the date range shows an earliest and a latest of the
    parsed instants: both are among them, none is before the first and
    none is after the second. *)
Theorem date_range_extremes (logs : list record) (dates : list datetime) :
  (forall a b, dt_compare a b <> None) ->
  (forall a, dt_compare a a = Some Eq) ->
  (forall want a b c, dt_compare a b = Some want ->
     dt_compare b c = Some want -> dt_compare a c = Some want) ->
  timestamps logs <> [] ->
  parse_all (timestamps logs) = Some dates ->
  exists lo hi,
    date_range logs
    = Some (DateRange (strftime "%Y-%m-%d %H:%M" lo +:+ " to "
                       +:+ strftime "%Y-%m-%d %H:%M" hi))
    /\ In lo dates /\ In hi dates
    /\ (forall d, In d dates -> dt_compare d lo <> Some Lt)
    /\ (forall d, In d dates -> dt_compare d hi <> Some Gt).
Proof.
  intros Htotal Hrefl Htrans Hpresent Hparse.
  assert (Hdates : dates <> []).
  { intros ->. destruct (timestamps logs) as [|ts tss]; [contradiction|].
    cbn [parse_all] in Hparse. destruct (parse_timestamp ts); [|discriminate].
    destruct (parse_all tss); discriminate. }
  assert (Hirrefl : forall want, want <> Eq ->
            forall a, dt_compare a a <> Some want).
  { intros want Hwant a. rewrite Hrefl. congruence. }
  destruct (py_extremum_spec Lt dates Htotal (Hirrefl Lt ltac:(discriminate))
              (Htrans Lt) Hdates) as [lo [Hlo [Hlo_in Hlo_min]]].
  destruct (py_extremum_spec Gt dates Htotal (Hirrefl Gt ltac:(discriminate))
              (Htrans Gt) Hdates) as [hi [Hhi [Hhi_in Hhi_max]]].
  exists lo, hi. split; [|repeat split; assumption].
  unfold date_range. destruct (timestamps logs) as [|ts tss]; [contradiction|].
  rewrite Hparse. unfold date_range_text. rewrite Hlo, Hhi. reflexivity.
Qed.

End EntryTime.

Lemma compare_keys_refl (a : list nat) : Demo.compare_keys a a = Eq.
Proof.
  induction a as [|x a IH]; [reflexivity|].
  cbn [Demo.compare_keys]. rewrite Nat.compare_refl. exact IH.
Qed.

Lemma compare_keys_trans (want : comparison) (a b c : list nat) :
  Demo.compare_keys a b = want -> Demo.compare_keys b c = want ->
  Demo.compare_keys a c = want.
Proof.
  revert b c. induction a as [|x a IH]; intros [|y b] [|z c];
    cbn [Demo.compare_keys]; try congruence.
  destruct (Nat.compare_spec x y), (Nat.compare_spec y z),
           (Nat.compare_spec x z);
    subst; try lia; try congruence.
  apply IH.
Qed.

Lemma date_range_extremes_witness :
  exists lo hi,
    @date_range Demo.lib Examples.timed
    = Some (DateRange (Demo.format_instant "%Y-%m-%d %H:%M" lo +:+ " to "
                       +:+ Demo.format_instant "%Y-%m-%d %H:%M" hi))
    /\ In lo [Demo.Build_instant 2024 5 1 10 20 30;
              Demo.Build_instant 2023 11 30 8 5 0;
              Demo.Build_instant 2024 1 15 23 59 59]
    /\ In hi [Demo.Build_instant 2024 5 1 10 20 30;
              Demo.Build_instant 2023 11 30 8 5 0;
              Demo.Build_instant 2024 1 15 23 59 59].
Proof.
  destruct (@date_range_extremes Demo.lib Examples.timed
              [Demo.Build_instant 2024 5 1 10 20 30;
               Demo.Build_instant 2023 11 30 8 5 0;
               Demo.Build_instant 2024 1 15 23 59 59]
              (fun a b E => eq_ind (Some (Demo.compare_keys
                                           (Demo.instant_key a)
                                           (Demo.instant_key b)))
                              (fun o => match o with
                                        | Some _ => True
                                        | None => False
                                        end) I None E)
              (fun a => f_equal Some (compare_keys_refl (Demo.instant_key a)))
              (fun want a b c Hab Hbc =>
                 f_equal Some
                   (compare_keys_trans want _ _ _
                      (f_equal (fun o => match o with
                                         | Some x => x
                                         | None => want
                                         end) Hab)
                      (f_equal (fun o => match o with
                                         | Some x => x
                                         | None => want
                                         end) Hbc)))
              (fun E => eq_ind (@timestamps Examples.timed)
                          (fun l => match l with
                                    | [] => False
                                    | _ => True
                                    end) I [] E)
              eq_refl)
    as [lo [hi [Hrange [Hlo [Hhi _]]]]].
  exists lo, hi. split; [exact Hrange|]. split; assumption.
Defined.

Example date_range_of_timed :
  @date_range Demo.lib Examples.timed
  = Some (DateRange "2023-11-30 08:05 to 2024-05-01 10:20").
Proof. vm_compute. reflexivity. Qed.

(** ** The shape of the exported table *)

Section Table.
Context `{PyLib}.

Lemma zip_with_stringify_length (column : string) (cols : list string)
    (row : list cell) :
  length row = length cols ->
  length (zip_with (fun name x =>
                      if String.eqb name column then stringify x else x)
            cols row)
  = length cols.
Proof. intros Hlen. rewrite length_zip_with. lia. Qed.

Lemma frame_rows_width (logs : list record) :
  Forall (fun row => length row = length (columns (DataFrame logs)))
    (rows (DataFrame logs)).
Proof.
  apply Forall_forall. intros row Hrow. cbn [rows columns DataFrame] in *.
  apply list_elem_of_fmap in Hrow as [i [-> _]]. apply length_map.
Qed.

(** X9.  The exported table has one row per record, in order; every row
    has one cell per column; no column name occurs twice; and the columns
    are exactly the keys that occur in some record. *)
Theorem export_table_shape (logs : list record) :
  length (rows (export_frame (DataFrame logs))) = length logs
  /\ Forall (fun row =>
               length row = length (columns (export_frame (DataFrame logs))))
       (rows (export_frame (DataFrame logs)))
  /\ List.NoDup (columns (export_frame (DataFrame logs)))
  /\ (forall column,
        In column (columns (export_frame (DataFrame logs)))
        <-> exists log, In log logs /\ dict_get column log <> None).
Proof.
  rewrite export_frame_columns, export_frame_rows.
  split; [|split; [|split]].
  - apply frame_rows_length.
  - pose proof (frame_rows_width logs) as Hwidth.
    unfold export_frame. destruct (existsb _ _); [|exact Hwidth].
    cbn [rows columns apply_column].
    rewrite Forall_forall in Hwidth |- *. intros row Hrow.
    apply list_elem_of_fmap in Hrow as [row0 [-> Hrow0]].
    apply zip_with_stringify_length, Hwidth, Hrow0.
  - cbn [columns DataFrame]. apply first_occurrences_NoDup.
  - intros column. cbn [columns DataFrame].
    rewrite first_occurrences_In, in_concat. split.
    + intros [keys [Hkeys Hcol]].
      apply in_map_iff in Hkeys as [log [<- Hlog]].
      exists log. split; [exact Hlog|].
      apply dict_get_In, first_occurrences_In, Hcol.
    + intros [log [Hlog Hget]]. exists (dict_keys log). split.
      * apply in_map, Hlog.
      * apply first_occurrences_In, dict_get_In, Hget.
Qed.

Lemma find_zip_with (g : string -> cell -> cell) (column : string)
    (cols : list string) (row : list cell) :
  snd <$> List.find (fun nx : string * cell => String.eqb nx.1 column)
            (zip cols (zip_with g cols row))
  = g column <$> (snd <$> List.find
                            (fun nx : string * cell => String.eqb nx.1 column)
                            (zip cols row)).
Proof.
  revert row. induction cols as [|c cols IH]; intros [|x row];
    try reflexivity.
  cbn [zip_with List.find fst].
  change (zip_with pair cols (zip_with g cols row))
    with (zip cols (zip_with g cols row)).
  change (zip_with pair cols row) with (zip cols row).
  destruct (String.eqb_spec c column) as [->|Hne]; [reflexivity | apply IH].
Qed.

Lemma find_absent (column : string) (cols : list string) (row : list cell) :
  ~ In column cols ->
  List.find (fun nx : string * cell => String.eqb nx.1 column) (zip cols row)
  = None.
Proof.
  revert row. induction cols as [|c cols IH]; intros [|x row] Hno;
    try reflexivity.
  cbn [zip_with List.find fst].
  change (zip_with pair cols row) with (zip cols row).
  destruct (String.eqb_spec c column) as [->|Hne].
  - contradiction Hno. left. reflexivity.
  - apply IH. intros Hin. apply Hno. right. exact Hin.
Qed.

(** What the export does to a cell of any frame: it turns the cells under
    [data_availability] into text and keeps the others. *)
Lemma export_cell (df : frame) (i : nat) (column : string) :
  cell_at (export_frame df) i column
  = (if String.eqb column "data_availability" then stringify else id)
    <$> cell_at df i column.
Proof.
  unfold export_frame, cell_at.
  destruct (existsb (String.eqb "data_availability") (columns df)) eqn:Hex.
  - cbn [rows columns apply_column]. rewrite list_lookup_fmap.
    destruct (rows df !! i) as [row|]; [|reflexivity].
    cbn [fmap option_fmap option_map mbind option_bind].
    rewrite (find_zip_with
               (fun name x => if String.eqb name "data_availability"
                              then stringify x else x)).
    destruct (String.eqb column "data_availability");
      destruct (List.find _ _); reflexivity.
  - destruct (String.eqb_spec column "data_availability") as [->|_].
    + destruct (rows df !! i) as [row|]; [|reflexivity].
      cbn [mbind option_bind].
      rewrite find_absent; [reflexivity|].
      intros Hin.
      assert (Hyes : existsb (String.eqb "data_availability") (columns df)
                     = true).
      { apply existsb_exists. eexists. split; [exact Hin|].
        apply String.eqb_refl. }
      congruence.
    + destruct (rows df !! i) as [row|]; [|reflexivity].
      cbn [mbind option_bind]. destruct (List.find _ _); reflexivity.
Qed.

(** X10.  The export changes no cell of the frame outside the column
    [data_availability], whatever the frame, and leaves a frame without
    that column as it is.  A cell of the frame of the records is the cell
    the library stored for the record under the column; in a column in
    which some record holds a mapping it is the record's own value, and
    [nan] for a record that lacks the key. *)
Theorem export_keeps_other_columns (logs : list record) :
  (forall (df : frame) i column,
     column <> "data_availability" ->
     cell_at (export_frame df) i column = cell_at df i column)
  /\ (forall df : frame,
        ~ In "data_availability" (columns df) -> export_frame df = df)
  /\ (forall i column,
        i < length logs -> In column (columns (DataFrame logs)) ->
        exists x,
          frame_column logs column !! i = Some x
          /\ cell_at (DataFrame logs) i column = Some x)
  /\ (forall i log carrier column d,
        logs !! i = Some log ->
        carrier ∈ logs -> dict_get column carrier = Some (PDict d) ->
        column <> "data_availability" ->
        cell_at (export_frame (DataFrame logs)) i column
        = Some (frame_cell log column))
  /\ ((forall log, In log logs -> dict_get "data_availability" log = None) ->
      export_frame (DataFrame logs) = DataFrame logs).
Proof.
  assert (Hkeep : forall df : frame,
            ~ In "data_availability" (columns df) -> export_frame df = df).
  { intros df Hno. unfold export_frame.
    destruct (existsb _ _) eqn:Hex; [|reflexivity].
    exfalso. apply existsb_exists in Hex as [c [Hc Heq]].
    apply String.eqb_eq in Heq as <-. contradiction. }
  split; [|split; [exact Hkeep|split; [|split]]].
  - intros df i column Hne. rewrite export_cell.
    destruct (String.eqb_spec column "data_availability");
      [contradiction|].
    destruct (cell_at df i column); reflexivity.
  - intros i column Hi Hcol. apply frame_cell_at; assumption.
  - intros i log carrier column d Hi Hcarrier Hget Hne.
    rewrite export_cell.
    destruct (String.eqb_spec column "data_availability");
      [contradiction|].
    assert (Hlt : i < length logs) by (eapply lookup_lt_Some; exact Hi).
    assert (Hcol : In column (columns (DataFrame logs))).
    { apply (column_present logs carrier); [exact Hcarrier | congruence]. }
    destruct (frame_cell_at logs i column Hlt Hcol) as [x [Hx ->]].
    rewrite (mapping_column logs carrier column d Hcarrier Hget) in Hx.
    rewrite list_lookup_fmap, Hi in Hx. injection Hx as <-. reflexivity.
  - intros Habsent. apply Hkeep. intros Hc.
    cbn [columns DataFrame] in Hc.
    apply first_occurrences_In, in_concat in Hc as [keys [Hkeys Hc]].
    apply in_map_iff in Hkeys as [log [<- Hlog]].
    apply first_occurrences_In, dict_get_In in Hc.
    apply Hc, Habsent, Hlog.
Qed.

End Table.

(** ** More on rates and on the availability table *)




Lemma availability_line_shape (counts : gmap string nat) (name : string)
    (l : line) :
  In l (availability_line counts name) ->
  exists a t,
    l = Availability name a t (availability_rate a t) /\ 0 < t /\ a <= t.
Proof.
  unfold availability_line.
  destruct (Nat.ltb_spec 0 (counter_get (name +:+ "_available") counts
                            + counter_get (name +:+ "_missing") counts))
    as [Hpos|_]; [|contradiction].
  intros [<-|[]]. eexists _, _. split; [reflexivity|]. split; [exact Hpos | lia].
Qed.

Lemma availability_lines_ordered (counts : gmap string nat)
    (names : list string) :
  sublist (omap line_source (concat (map (availability_line counts) names)))
    names.
Proof.
  induction names as [|name names IH]; [constructor|].
  cbn [map concat]. rewrite omap_app. unfold availability_line at 1.
  destruct (0 <? _)%nat; cbn [omap list_omap line_source app].
  - apply sublist_skip, IH.
  - apply sublist_cons, IH.
Qed.

(** X12.  Whatever was counted, the availability block prints at most one
    line per source and at most seven, in the fixed order of the seven
    sources; each line names one of them and shows a count of available
    turns that does not exceed the positive total it is shown against, with
    a rate between 0 and 100. *)
Theorem availability_report_order (counts : gmap string nat) :
  sublist (omap line_source (availability_report counts)) data_sources
  /\ length (availability_report counts) <= 7
  /\ (forall l, In l (availability_report counts) ->
        exists name a t rate,
          l = Availability name a t rate /\ In name data_sources
          /\ 0 < t /\ a <= t /\ (0 <= rate <= 100)%Q).
Proof.
  split; [apply availability_lines_ordered|]. split.
  - unfold availability_report, data_sources, availability_line.
    cbn [map concat].
    repeat (destruct (0 <? _)%nat); cbn [app length]; lia.
  - intros l Hl. unfold availability_report in Hl.
    apply in_concat in Hl as [ls [Hls Hl]].
    apply in_map_iff in Hls as [name [<- Hname]].
    apply availability_line_shape in Hl as [a [t [-> [Hpos Hle]]]].
    exists name, a, t, (availability_rate a t).
    split; [reflexivity|]. split; [exact Hname|].
    split; [exact Hpos|]. split; [exact Hle|].
    apply float_percentage_bounds, Hle.
Qed.

Lemma marks_exclusive (name : string) (log : record) :
  marks name true log = true -> marks name false log = false.
Proof.
  unfold marks. destruct (get_or "data_availability" PNone log); try discriminate.
  destruct (dict_get name d) as [v|]; [|discriminate].
  destruct (truthy v); [reflexivity | discriminate].
Qed.

Lemma marked_within (name : string) (logs : list record) :
  marked name true logs + marked name false logs <= length logs.
Proof.
  unfold marked. induction logs as [|log logs IH]; [reflexivity|].
  cbn [List.filter].
  destruct (marks name true log) eqn:Ht.
  - rewrite (marks_exclusive name log Ht). cbn [length]. lia.
  - destruct (marks name false log); cbn [length]; lia.
Qed.

(** X13.  When every [data_availability] value is a mapping (or false),
    a record counts at most once for a source, as available or as missing:
    the total shown for a source never exceeds the number of records. *)
Theorem availability_within_records (logs : list record) :
  forallb availability_ok logs = true ->
  exists counts,
    data_availability_counts logs = Ok counts
    /\ (forall name,
          counter_get (name +:+ "_available") counts
          + counter_get (name +:+ "_missing") counts
          <= length logs)
    /\ (forall name a t rate,
          In (Availability name a t rate) (availability_report counts) ->
          t <= length logs).
Proof.
  intros Hok. unfold data_availability_counts.
  destruct (tally_from_get "" true logs ∅ Hok) as [counts [Hcounts _]].
  assert (Hsum : forall name,
            counter_get (name +:+ "_available") counts
            + counter_get (name +:+ "_missing") counts
            <= length logs).
  { intros name.
    destruct (tally_from_get name true logs ∅ Hok) as [c1 [Hc1 Hget1]].
    destruct (tally_from_get name false logs ∅ Hok) as [c2 [Hc2 Hget2]].
    rewrite Hcounts in Hc1, Hc2. injection Hc1 as <-. injection Hc2 as <-.
    change (name +:+ "_available") with (counter_key name true).
    change (name +:+ "_missing") with (counter_key name false).
    rewrite Hget1, Hget2. pose proof (marked_within name logs).
    unfold counter_get. rewrite !lookup_empty. cbn [default]. lia. }
  exists counts. split; [exact Hcounts|]. split; [exact Hsum|].
  intros name a t rate Hl. unfold availability_report in Hl.
  apply in_concat in Hl as [ls [Hls Hl]].
  apply in_map_iff in Hls as [name' [<- _]].
  unfold availability_line in Hl.
  destruct (0 <? _)%nat; [|contradiction].
  destruct Hl as [Heq|[]]. injection Heq as <- <- <- _.
  apply Hsum.
Qed.

Lemma availability_within_records_witness :
  exists counts,
    data_availability_counts [Examples.with_orders; Examples.bare] = Ok counts
    /\ counter_get "gm_report_available" counts
       + counter_get "gm_report_missing" counts <= 2.
Proof.
  destruct (availability_within_records
              [Examples.with_orders; Examples.bare] eq_refl)
    as [counts [Hcounts [Hsum _]]].
  exists counts. split; [exact Hcounts | exact (Hsum "gm_report")].
Defined.

(** ** The whole report of a normal run *)

Lemma printed_printed (w : world) (a b : list line) :
  printed (printed w a) b = printed w (a ++ b).
Proof. unfold printed; cbn [console files]. rewrite app_assoc. reflexivity. Qed.

Lemma bind_print {B : Type} (l : line) (k : unit -> prog B) (w : world) :
  (print l ≫= k) w = k tt (printed w [l]).
Proof. reflexivity. Qed.

Lemma bind_print_all {B : Type} (ls : list line) (k : unit -> prog B)
    (w : world) :
  (print_all ls ≫= k) w = k tt (printed w ls).
Proof. reflexivity. Qed.

Lemma bind_eval {A B : Type} (a : A) (k : A -> prog B) (w : world) :
  (eval (Ok a) ≫= k) w = k a w.
Proof. reflexivity. Qed.

Lemma for_each_lines {A : Type} (body : nat -> A -> prog unit)
    (lines_of : nat -> A -> list line) (xs : list A) :
  (forall i x w, In x xs -> body i x w = (printed w (lines_of i x), Ok tt)) ->
  forall i w,
    for_each body i xs w = (printed w (numbered lines_of i xs), Ok tt).
Proof.
  induction xs as [|x xs IH]; intros Hbody i w; cbn [for_each numbered].
  - unfold printed. rewrite app_nil_r. destruct w; reflexivity.
  - unfold mbind, prog_bind.
    rewrite (Hbody i x w (or_introl eq_refl)).
    rewrite IH by (intros j y w' Hy; apply Hbody; right; exact Hy).
    rewrite printed_printed. reflexivity.
Qed.

Section Layout.
Context `{PyLib}.

Lemma recent_entry_lines (i : nat) (log : record) (w : world) :
  tolerated log = true ->
  recent_entry i log w = (printed w (recent_lines i log), Ok tt).
Proof.
  intros Hok. apply tolerated_fields in Hok as (_ & Hts & _ & _ & _ & Hq & Ha).
  destruct (formatted_time_ok log Hts) as [time Htime].
  destruct (clipped_ok 100 _ (field_text_like "user_question" "No question" log Hq))
    as [q Hclipq].
  destruct (clipped_ok 100 _ (field_text_like "ai_response" "No response" log Ha))
    as [a Hclipa].
  unfold recent_entry, recent_lines, error_occurred.
  rewrite Htime, Hclipq, Hclipa. cbn [res_value].
  rewrite bind_eval, bind_print, bind_eval, bind_print, bind_eval, bind_print.
  rewrite !printed_printed.
  destruct (truthy _).
  - change (print RecentErrorMark ?w')
      with (printed w' [RecentErrorMark], Ok tt).
    rewrite printed_printed. reflexivity.
  - rewrite app_nil_r. reflexivity.
Qed.

Lemma error_entry_lines (i : nat) (log : record) (w : world) :
  tolerated log = true ->
  error_entry i log w = (printed w (error_lines i log), Ok tt).
Proof.
  intros Hok. apply tolerated_fields in Hok as (_ & Hts & _ & _ & _ & Hq & _).
  destruct (formatted_time_ok log Hts) as [time Htime].
  destruct (clipped_ok 80 _ (field_text_like "user_question" "No question" log Hq))
    as [q Hclipq].
  unfold error_entry, error_lines. rewrite Htime, Hclipq. reflexivity.
Qed.

(** On records of a usable shape the run reaches the export block, having
    printed everything up to the banner of that block. *)
Lemma report_body (now : datetime) (logs : list record) (w : world) :
  forallb tolerated logs = true ->
  report now (map PDict logs) w
  = export now logs (printed w (body_lines logs)).
Proof.
  intros Hok.
  assert (Hall : forall log, In log logs -> tolerated log = true)
    by (apply forallb_forall; exact Hok).
  destruct (tolerated_records logs Hok) as (Hready & Hq & Hr & Hda & _).
  apply unique_sessions_ready in Hready as [n Hn].
  apply average_length_averageable in Hq as [aq Haq].
  apply average_length_averageable in Hr as [ar Har].
  apply (tally_from_ok logs ∅) in Hda as [counts Hcounts].
  fold (data_availability_counts logs) in Hcounts.
  unfold report, body_lines.
  rewrite records_of_mappings, Hn, Haq, Har, Hcounts, length_map.
  cbn [res_value]. unfold total_conversations.
  rewrite !bind_print, bind_eval, !bind_print, bind_print_all.
  rewrite !bind_eval, !bind_print, bind_eval, bind_print_all, bind_print.
  unfold mbind at 1, prog_bind at 1.
  rewrite (for_each_lines recent_entry recent_lines)
    by (intros i log w' Hlog; apply recent_entry_lines, Hall,
        recent_view_members, Hlog).
  assert (Herrors : forall w',
            error_analysis logs w'
            = (printed w'
                 (if (0 <? errors logs)%nat
                  then Banner "ERROR ANALYSIS"
                         :: numbered error_lines 1 (error_logs logs)
                  else []), Ok tt)).
  { intros w'. unfold error_analysis. destruct (0 <? errors logs)%nat.
    - rewrite bind_print.
      rewrite (for_each_lines error_entry error_lines)
        by (intros i log w'' Hlog; apply error_entry_lines, Hall;
            unfold error_logs in Hlog; apply filter_In in Hlog; tauto).
      rewrite printed_printed. reflexivity.
    - unfold printed. rewrite app_nil_r. destruct w'; reflexivity. }
  unfold mbind at 1, prog_bind at 1. rewrite Herrors, bind_print.
  rewrite !printed_printed.
  apply (f_equal (fun out => export now logs (printed w out))).
  rewrite <- ?app_assoc. reflexivity.
Qed.

(** X14.  On records whose fields have a usable shape the run prints, in
    this order: the count and the statistics, the date range if any, the
    two averages, the availability lines, the recent conversations
    numbered from 1, the error block if there are errors with its entries
    numbered from 1, and the banner of the export block.  If the frame
    cannot be built the run ends there with that exception.  Otherwise,
    if the frame is empty or written without a failure, the run ends
    normally after the export lines, and the only file written is the
    export, none when the frame is empty; if the writing fails, the run
    ends with that exception, the export lines are not printed and the
    file is left incomplete.  A run on a file whose lines load to such
    records, at least one, is this. *)
Theorem normal_run_layout (now : datetime) (logs : list record) (w : world) :
  forallb tolerated logs = true ->
  (forall e, frame_error logs = Some e ->
     report now (map PDict logs) w = (printed w (body_lines logs), Raise e))
  /\ (frame_error logs = None ->
      frame_empty (DataFrame logs) = true
      \/ csv_error (export_frame (DataFrame logs)) = None ->
      report now (map PDict logs) w
      = ({| console := console w ++ report_lines now logs;
            files := files w ++ written now logs |}, Ok tt))
  /\ (forall e,
        frame_error logs = None ->
        frame_empty (DataFrame logs) = false ->
        csv_error (export_frame (DataFrame logs)) = Some e ->
        report now (map PDict logs) w
        = ({| console := console w ++ body_lines logs;
              files := files w ++ [(csv_name now, Incomplete)] |}, Raise e))
  /\ (forall lines,
        load lines = Ok (map PDict logs) -> logs <> [] ->
        view_logs now (Some lines) w = report now (map PDict logs) w).
Proof.
  intros Hok. rewrite (report_body now logs w Hok), export_run.
  split; [|split; [|split]].
  - intros e ->. reflexivity.
  - intros -> Hcsv. unfold report_lines, export_lines, written.
    destruct (frame_empty (DataFrame logs)).
    + unfold printed; cbn [console files].
      rewrite <- app_assoc, app_nil_r. reflexivity.
    + destruct Hcsv as [Hempty| ->]; [discriminate Hempty|].
      unfold printed; cbn [console files]. rewrite <- app_assoc. reflexivity.
  - intros e -> -> ->. reflexivity.
  - intros lines Hload Hne. unfold view_logs. rewrite Hload.
    rewrite <- export_run, <- (report_body now logs w Hok).
    destruct logs; [contradiction | reflexivity].
Qed.

Lemma omap_numbered {A B : Type} (f : line -> option B)
    (lines_of : nat -> A -> list line) (g : nat -> list B) (xs : list A) :
  (forall i x, omap f (lines_of i x) = g i) ->
  forall i, omap f (numbered lines_of i xs)
            = concat (map g (seq i (length xs))).
Proof.
  intros Hone. induction xs as [|x xs IH]; intros i; [reflexivity|].
  cbn [numbered length seq map concat]. rewrite omap_app, Hone, IH.
  reflexivity.
Qed.

Lemma concat_singletons {B : Type} (l : list B) :
  concat (map (fun x => [x]) l) = l.
Proof. induction l as [|x l IH]; [reflexivity|]. simpl. rewrite IH. reflexivity. Qed.

Lemma concat_empties {A B : Type} (l : list A) :
  concat (map (fun _ => @nil B) l) = [].
Proof. induction l as [|x l IH]; [reflexivity | exact IH]. Qed.

Lemma omap_availability {B : Type} (f : line -> option B)
    (counts : gmap string nat) :
  (forall name a t rate, f (Availability name a t rate) = None) ->
  omap f (availability_report counts) = [].
Proof.
  intros Hf. unfold availability_report.
  induction data_sources as [|name names IH]; [reflexivity|].
  cbn [map concat]. rewrite omap_app, IH, app_nil_r.
  unfold availability_line. destruct (0 <? _)%nat; [|reflexivity].
  cbn [omap list_omap]. rewrite Hf. reflexivity.
Qed.

Lemma omap_date_range {B : Type} (f : line -> option B) (logs : list record) :
  (forall text, f (DateRange text) = None) -> f DateRangeUnknown = None ->
  omap f (option_list (date_range logs)) = [].
Proof.
  intros Hrange Hunknown. unfold date_range.
  destruct (timestamps logs); [reflexivity|].
  destruct (parse_all _); [destruct (date_range_text _)|];
    simpl; rewrite ?Hrange, ?Hunknown; reflexivity.
Qed.

(** What the export block adds to the console holds no banner and no
    entry of a view. *)
Lemma export_adds (now : datetime) (logs : list record) (w : world) :
  exists out,
    console (export now logs w).1 = console w ++ out
    /\ banners out = [] /\ recent_numbers out = []
    /\ error_numbers out = [].
Proof.
  rewrite export_run.
  destruct (frame_error logs);
    [exists []; cbn; rewrite app_nil_r; repeat split|].
  destruct (frame_empty (DataFrame logs));
    [eexists; cbn; repeat split|].
  destruct (csv_error _);
    [exists []; cbn; rewrite app_nil_r; repeat split
    |eexists; cbn; repeat split].
Qed.

(** X15.  In the console of a normal run on tolerated records, the
    section banners come in the fixed order, the error banner being there
    exactly when there are errors; the recent conversations carry the
    numbers 1 to [min(5, total)] and the error entries the numbers 1 to
    [errors]. *)
Theorem normal_run_sections (now : datetime) (logs : list record) :
  forallb tolerated logs = true ->
  let out := console (report now (map PDict logs) start).1 in
  banners out
  = ["BASIC STATISTICS"; "DATA AVAILABILITY ANALYSIS";
     "RECENT CONVERSATIONS (Last 5)"]
    ++ (if (0 <? errors logs)%nat then ["ERROR ANALYSIS"] else [])
    ++ ["EXPORT OPTIONS"]
  /\ recent_numbers out = seq 1 (min 5 (length logs))
  /\ error_numbers out = seq 1 (errors logs).
Proof.
  intros Hok out. subst out.
  rewrite (report_body now logs start Hok).
  destruct (export_adds now logs (printed start (body_lines logs)))
    as (tail & -> & Hbanners & Hrecents & Herrs).
  cbn [printed console start app]. unfold body_lines.
  assert (Hrecent : length (recent_view logs) = min 5 (length logs)).
  { unfold recent_view. rewrite length_reverse, recent_logs_last.
    apply last_n_length. lia. }
  assert (Herrors : length (error_logs logs) = errors logs)
    by (symmetry; apply errors_filter).
  split; [|split].
  - unfold banners in *. rewrite !omap_app, Hbanners.
    rewrite omap_date_range, omap_availability by reflexivity.
    rewrite (omap_numbered _ recent_lines (fun _ => [])) by
      (intros i x; unfold recent_lines; destruct (error_occurred x); reflexivity).
    rewrite concat_empties.
    destruct (0 <? errors logs)%nat.
    + cbn [omap list_omap].
      change (omap ?f (numbered error_lines 1 (error_logs logs)))
        with (omap f (numbered error_lines 1 (error_logs logs))).
      rewrite (omap_numbered _ error_lines (fun _ => [])) by reflexivity.
      rewrite concat_empties. reflexivity.
    + reflexivity.
  - unfold recent_numbers in *. rewrite !omap_app, Hrecents.
    rewrite omap_date_range, omap_availability by reflexivity.
    rewrite (omap_numbered _ recent_lines (fun i => [i])) by
      (intros i x; unfold recent_lines; destruct (error_occurred x); reflexivity).
    rewrite concat_singletons, Hrecent.
    destruct (0 <? errors logs)%nat.
    + cbn [omap list_omap].
      change (omap ?f (numbered error_lines 1 (error_logs logs)))
        with (omap f (numbered error_lines 1 (error_logs logs))).
      rewrite (omap_numbered _ error_lines (fun _ => [])) by reflexivity.
      rewrite concat_empties, !app_nil_r. reflexivity.
    + cbn [omap list_omap app]. rewrite !app_nil_r. reflexivity.
  - unfold error_numbers in *. rewrite !omap_app, Herrs.
    rewrite omap_date_range, omap_availability by reflexivity.
    rewrite (omap_numbered _ recent_lines (fun _ => [])) by
      (intros i x; unfold recent_lines; destruct (error_occurred x); reflexivity).
    rewrite concat_empties.
    destruct (Nat.ltb_spec 0 (errors logs)) as [Hpos|Hzero].
    + cbn [omap list_omap].
      change (omap ?f (numbered error_lines 1 (error_logs logs)))
        with (omap f (numbered error_lines 1 (error_logs logs))).
      rewrite (omap_numbered _ error_lines (fun i => [i])) by reflexivity.
      rewrite concat_singletons, Herrors, !app_nil_r. reflexivity.
    + assert (errors logs = 0) as -> by lia. reflexivity.
Qed.

End Layout.

Lemma normal_run_layout_witness :
  @report Demo.lib Demo.noon
    (map PDict [Examples.chatty; []; Examples.odd_but_fine;
                Examples.with_orders]) start
  = ({| console :=
          @report_lines Demo.lib Demo.noon
            [Examples.chatty; []; Examples.odd_but_fine; Examples.with_orders];
        files :=
          @written Demo.lib Demo.noon
            [Examples.chatty; []; Examples.odd_but_fine;
             Examples.with_orders] |}, Ok tt).
Proof.
  exact (proj1 (proj2 (@normal_run_layout Demo.lib Demo.noon
                         [Examples.chatty; []; Examples.odd_but_fine;
                          Examples.with_orders] start eq_refl))
           eq_refl (or_intror eq_refl)).
Defined.

(** That run, line by line: the timestamp [yesterday] makes the date
    range unknown and is shown as it is; the one integer length, in a
    column where other records have none, is stored as a float. *)
Example normal_run_console :
  console
    (@report Demo.lib Demo.noon
       (map PDict [Examples.chatty; []; Examples.odd_but_fine;
                   Examples.with_orders]) start).1
  = [Found 4; Banner "BASIC STATISTICS"; TotalConversations 4;
     UniqueSessions 3; Errors 2 (200 # 4); DateRangeUnknown;
     AverageQuestionLength (Mean (12 # 4));
     AverageResponseLength (Mean (0 # 4));
     Banner "DATA AVAILABILITY ANALYSIS";
     Availability "order_data" 1 1 100; Availability "gm_report" 0 1 0;
     Banner "RECENT CONVERSATIONS (Last 5)";
     RecentHeading 1 "Unknown"; RecentQuestion "No question";
     RecentResponse "No response";
     RecentHeading 2 "yesterday"; RecentQuestion "No question";
     RecentResponse "Hello."; RecentErrorMark;
     RecentHeading 3 "Unknown"; RecentQuestion "No question";
     RecentResponse "No response";
     RecentHeading 4 "2024-05-01 10:20:30";
     RecentQuestion (shown 100 Examples.long_question);
     RecentResponse "No response"; RecentErrorMark;
     Banner "ERROR ANALYSIS";
     ErrorEntry 1 "2024-05-01 10:20:30" (shown 80 Examples.long_question);
     ErrorEntry 2 "yesterday" "No question";
     Banner "EXPORT OPTIONS";
     Exported "conversation_logs_analysis_20240517_120000.csv";
     FrameInfo; FrameShape 4 7;
     FrameColumns
       ["session_id"; "timestamp"; "user_question"; "error_occurred";
        "question_length"; "ai_response"; "data_availability"]]
  /\ cell_at
       (@export_frame Demo.lib
          (@DataFrame Demo.lib
             [Examples.chatty; []; Examples.odd_but_fine;
              Examples.with_orders]))
       2 "question_length"
     = Some (Obj (PFloat (S754_finite false (3 * 2 ^ 51) (-49)))).
Proof. split; vm_compute; reflexivity. Qed.

Lemma normal_run_sections_witness :
  banners
    (console
       (@report Demo.lib Demo.noon
          (map PDict [Examples.chatty; []; Examples.odd_but_fine;
                      Examples.with_orders]) start).1)
  = ["BASIC STATISTICS"; "DATA AVAILABILITY ANALYSIS";
     "RECENT CONVERSATIONS (Last 5)"; "ERROR ANALYSIS"; "EXPORT OPTIONS"].
Proof.
  exact (proj1 (@normal_run_sections Demo.lib Demo.noon
                  [Examples.chatty; []; Examples.odd_but_fine;
                   Examples.with_orders] eq_refl)).
Defined.
